(** * LUCAS soil-pH notebooks: feature pipeline, model builders and search

    A shallow embedding of the two notebooks of the repository (the Optuna
    notebook and [kanak_3.ipynb]).  Both notebooks open with the same
    data-preparation script; one defines [create_model] and the Optuna
    [objective], the other defines [create_cnn_model].

    Conventions of the embedding.
    - A float64 is a [num]: [NaN], one of the two infinities, or a finite
      value written as a rational.  What an operation gives on two finite
      values (a rounded value, or an infinity on overflow) is the
      processor's: it is a parameter, the class [Float64].  The sign of zero
      is not represented.
    - Keras checks the arguments of a layer when it is made and its input
      when it is added to a model; those checks are a parameter too, the
      class [Keras].
    - A pandas column is a [Series]: a numeric column or an object column of
      optional strings ([None] is the missing value).
    - A [DataFrame] is its row labels (the pandas index) and its columns in
      order, as an association list: the order of columns decides the order
      of the feature matrix.
    - Python exceptions are the [Raise] branch of [result]. *)

From Stdlib Require Import String Ascii DecimalString.
From Stdlib Require Import QArith ZArith Lia Bool List.
Import ListNotations.

Local Open Scope string_scope.
Local Open Scope list_scope.

(** ** Exceptions *)

Inductive exn : Type :=
| KeyError (key : string)
| TypeError
| IndexError
| ValueError.

Inductive result (A : Type) : Type :=
| Ok (a : A)
| Raise (e : exn).

Arguments Ok {A} a.
Arguments Raise {A} e.

Definition bind {A B : Type} (c : result A) (k : A -> result B) : result B :=
  match c with
  | Ok a => k a
  | Raise e => Raise e
  end.

Notation "x <- c ;; k" := (bind c (fun x => k))
  (at level 100, c at next level, right associativity).

(** ** Numbers: float64 as extended rationals *)

Inductive num : Type :=
| NaN
| PInf
| NInf
| Fin (q : Q).

Definition isnan (x : num) : bool :=
  match x with NaN => true | _ => false end.

(** [a < b] on rationals, as a boolean *)
Definition Qltb (a b : Q) : bool := negb (Qle_bool b a).

(** [x == y] on floats: [NaN] equals nothing, not even itself. *)
Definition num_eqb (x y : num) : bool :=
  match x, y with
  | Fin a, Fin b => Qeq_bool a b
  | PInf, PInf => true
  | NInf, NInf => true
  | _, _ => false
  end.

(** [x < y] on floats: false as soon as one side is [NaN]. *)
Definition num_ltb (x y : num) : bool :=
  match x, y with
  | NaN, _ | _, NaN => false
  | _, NInf => false
  | NInf, _ => true
  | PInf, _ => false
  | Fin _, PInf => true
  | Fin a, Fin b => Qltb a b
  end.

(** Arithmetic of numpy on two finite values.  In binary64 the result is
    rounded and overflows to an infinity; a sum or a product of two int64
    values wraps around.  Which value comes out is left open: the operations
    are parameters, known only to give a number (never [NaN]) on finite
    operands, the divisor of a quotient not being zero. *)
Class Float64 : Type := {
  float_add : Q -> Q -> num;
  float_mul : Q -> Q -> num;
  float_div : Q -> Q -> num;
  float_add_number : forall a b, isnan (float_add a b) = false;
  float_mul_number : forall a b, isnan (float_mul a b) = false;
  float_div_number : forall a b,
    Qeq_bool b 0 = false -> isnan (float_div a b) = false
}.

Section Arithmetic.

Context {fl : Float64}.

(** numpy's true division: a finite value over zero is an infinity of the
    sign of the numerator, zero over zero is [NaN]; no exception is raised. *)
Definition num_div (x y : num) : num :=
  match x, y with
  | NaN, _ | _, NaN => NaN
  | Fin a, Fin b =>
      if Qeq_bool b 0 then
        if Qeq_bool a 0 then NaN else if Qle_bool 0 a then PInf else NInf
      else float_div a b
  | Fin _, _ => Fin 0
  | PInf, Fin b => if Qle_bool 0 b then PInf else NInf
  | NInf, Fin b => if Qle_bool 0 b then NInf else PInf
  | _, _ => NaN
  end.

Definition num_add (x y : num) : num :=
  match x, y with
  | NaN, _ | _, NaN => NaN
  | Fin a, Fin b => float_add a b
  | PInf, NInf | NInf, PInf => NaN
  | PInf, _ | _, PInf => PInf
  | NInf, _ | _, NInf => NInf
  end.

Definition num_mul (x y : num) : num :=
  match x, y with
  | NaN, _ | _, NaN => NaN
  | Fin a, Fin b => float_mul a b
  | Fin a, PInf | PInf, Fin a =>
      if Qeq_bool a 0 then NaN else if Qle_bool 0 a then PInf else NInf
  | Fin a, NInf | NInf, Fin a =>
      if Qeq_bool a 0 then NaN else if Qle_bool 0 a then NInf else PInf
  | PInf, PInf | NInf, NInf => PInf
  | PInf, NInf | NInf, PInf => NInf
  end.

End Arithmetic.

(** The quotient of two counts, [m / n] on two non-negative integers. *)
Definition count_div (m n : nat) : num :=
  match n with
  | O => match m with O => NaN | S _ => PInf end
  | S _ => Fin (inject_Z (Z.of_nat m) / inject_Z (Z.of_nat n))
  end.

(** ** Series and data frames *)

Inductive Series : Type :=
| NumCol (values : list num)
| ObjCol (values : list (option string)).

Record DataFrame : Type := mkDataFrame {
  index : list nat;
  columns : list (string * Series)
}.

(** [len(df)] *)
Definition len (df : DataFrame) : nat := length (index df).

Fixpoint assoc {A : Type} (key : string) (l : list (string * A)) : option A :=
  match l with
  | [] => None
  | (k, v) :: rest => if String.eqb key k then Some v else assoc key rest
  end.

(** [col in df.columns] *)
Definition has_column (df : DataFrame) (col : string) : bool :=
  match assoc col (columns df) with Some _ => true | None => false end.

(** [df[col]] *)
Definition getitem (df : DataFrame) (col : string) : result Series :=
  match assoc col (columns df) with
  | Some s => Ok s
  | None => Raise (KeyError col)
  end.

Fixpoint assoc_set {A : Type} (key : string) (v : A) (l : list (string * A))
  : list (string * A) :=
  match l with
  | [] => [(key, v)]
  | (k, w) :: rest =>
      if String.eqb key k then (k, v) :: rest else (k, w) :: assoc_set key v rest
  end.

(** [df[col] = s]: an existing column is overwritten in place, a new one is
    appended as the last column. *)
Definition setitem (df : DataFrame) (col : string) (s : Series) : DataFrame :=
  {| index := index df; columns := assoc_set col s (columns df) |}.

(** [s.isna()] *)
Definition isna (s : Series) : list bool :=
  match s with
  | NumCol v => map isnan v
  | ObjCol v => map (fun c => match c with None => true | Some _ => false end) v
  end.

(** [s.notnull()] *)
Definition notnull (s : Series) : list bool := map negb (isna s).

(** [.sum()] of a boolean series *)
Definition count_true (m : list bool) : nat := length (List.filter id m).

(** The values of [l] not among [seen], each kept at its first occurrence,
    up to [eqb]. *)
Fixpoint unique_from {A : Type} (eqb : A -> A -> bool) (seen l : list A)
  : list A :=
  match l with
  | [] => []
  | x :: rest =>
      if existsb (eqb x) seen then unique_from eqb seen rest
      else x :: unique_from eqb (x :: seen) rest
  end.

(** [s.unique()] on the values of a series *)
Definition unique {A : Type} (eqb : A -> A -> bool) (l : list A) : list A :=
  unique_from eqb [] l.

(** The values of an object column that are not missing. *)
Definition present (v : list (option string)) : list string :=
  flat_map (fun c => match c with Some x => [x] | None => [] end) v.

(** [s.nunique()]: the number of distinct values, missing values left out. *)
Definition nunique (s : Series) : nat :=
  match s with
  | NumCol v => length (unique num_eqb (List.filter (fun x => negb (isnan x)) v))
  | ObjCol v => length (unique String.eqb (present v))
  end.

(** [for x in l: s = body(s, x)], stopping at the first exception *)
Fixpoint for_each {A S : Type} (l : list A) (body : S -> A -> result S) (s : S)
  : result S :=
  match l with
  | [] => Ok s
  | x :: rest => s' <- body s x ;; for_each rest body s'
  end.

(** [[f(x) for x in l]], stopping at the first exception *)
Fixpoint map_result {A B : Type} (f : A -> result B) (l : list A)
  : result (list B) :=
  match l with
  | [] => Ok []
  | x :: rest => y <- f x ;; ys <- map_result f rest ;; Ok (y :: ys)
  end.

(** Boolean indexing: the entries of [l] whose mask bit is set. *)
Fixpoint take_mask {A : Type} (m : list bool) (l : list A) : list A :=
  match m, l with
  | b :: m', x :: l' => if b then x :: take_mask m' l' else take_mask m' l'
  | _, _ => []
  end.

Definition series_mask (m : list bool) (s : Series) : Series :=
  match s with
  | NumCol v => NumCol (take_mask m v)
  | ObjCol v => ObjCol (take_mask m v)
  end.

(** [df.dropna(subset=[col])]: the rows whose [col] is present, with their
    labels; [KeyError] when the frame has no such column. *)
Definition dropna_subset (df : DataFrame) (col : string) : result DataFrame :=
  s <- getitem df col ;;
  let m := notnull s in
  Ok {| index := take_mask m (index df);
        columns := map (fun cs => (fst cs, series_mask m (snd cs))) (columns df) |}.

Definition is_numeric (s : Series) : bool :=
  match s with NumCol _ => true | ObjCol _ => false end.

(** [df.select_dtypes(include=[np.number]).columns.tolist()] *)
Definition select_dtypes_number (df : DataFrame) : list string :=
  map fst (List.filter (fun cs => is_numeric (snd cs)) (columns df)).

(** [s.replace(old, new)]: a new series; the receiver is left as it is. *)
Definition series_replace (old new : num) (s : Series) : Series :=
  match s with
  | NumCol v => NumCol (map (fun x => if num_eqb x old then new else x) v)
  | ObjCol v => ObjCol v
  end.

Fixpoint map2 {A B C : Type} (f : A -> B -> C) (l : list A) (l' : list B)
  : list C :=
  match l, l' with
  | x :: r, y :: r' => f x y :: map2 f r r'
  | _, _ => []
  end.

(** Element-wise arithmetic of two columns of one frame.  The measurement
    columns are numeric; an operand of object dtype is reported as
    [TypeError]. *)
Definition series_binop (op : num -> num -> num) (a b : Series) : result Series :=
  match a, b with
  | NumCol x, NumCol y => Ok (NumCol (map2 op x y))
  | _, _ => Raise TypeError
  end.

Definition series_map (f : num -> num) (a : Series) : result Series :=
  match a with
  | NumCol x => Ok (NumCol (map f x))
  | ObjCol _ => Raise TypeError
  end.

(** [df[cols]] for a list of names: the columns in the order asked for. *)
Definition getitems (df : DataFrame) (cols : list string) : result DataFrame :=
  cs <- map_result (fun c => s <- getitem df c ;; Ok (c, s)) cols ;;
  Ok {| index := index df; columns := cs |}.

(** Positional indexing ([.iloc[pos]], [a[pos]]) *)
Definition take_positions {A : Type} (pos : list nat) (l : list A)
  : result (list A) :=
  map_result (fun p => match nth_error l p with
                       | Some x => Ok x
                       | None => Raise IndexError
                       end) pos.

Definition series_take (pos : list nat) (s : Series) : result Series :=
  match s with
  | NumCol v => v' <- take_positions pos v ;; Ok (NumCol v')
  | ObjCol v => v' <- take_positions pos v ;; Ok (ObjCol v')
  end.

Definition iloc (df : DataFrame) (pos : list nat) : result DataFrame :=
  idx <- take_positions pos (index df) ;;
  cs <- map_result (fun cs => s <- series_take pos (snd cs) ;; Ok (fst cs, s))
                   (columns df) ;;
  Ok {| index := idx; columns := cs |}.

(** ** The data-preparation cell (shared by both notebooks) *)

Definition target : string := "pH_H2O".

(** [l.remove(x)]: the first occurrence goes. *)
Fixpoint list_remove (x : string) (l : list string) : list string :=
  match l with
  | [] => []
  | y :: rest => if String.eqb x y then rest else y :: list_remove x rest
  end.

(** The numeric columns of the loaded table without the target; the cell
    only prints how many there are. *)
Definition numeric_cols_loaded (df : DataFrame) : list string :=
  let numeric_cols := select_dtypes_number df in
  if existsb (String.eqb target) numeric_cols
  then list_remove target numeric_cols
  else numeric_cols.

Definition categorical_cols_declared : list string :=
  ["Depth"; "LC"; "LU"; "USDA"; "ISSS"; "NUTS_0"; "LC0_Desc"; "LC1_Desc"; "LU1_Desc"].

Definition categorical_cols (df : DataFrame) : list string :=
  List.filter (has_column df) categorical_cols_declared.

(** [df[col].isna().sum() / len(df)]: a quotient of two counts, [NaN] on an
    empty table.  Its comparison with the literal 0.3 is made on exact
    rationals; in binary64 the outcome is the same for every table of fewer
    than 10^15 rows, a quotient of counts below 3/10 being below it by more
    than the rounding of either side. *)
Definition missing_rate (df : DataFrame) (s : Series) : num :=
  count_div (count_true (isna s)) (len df).

(** [df[col].nunique() < 30 and df[col].isna().sum() / len(df) < 0.3] *)
Definition keeps (df : DataFrame) (s : Series) : bool :=
  (nunique s <? 30)%nat && num_ltb (missing_rate df s) (Fin (3 # 10)).

Definition filtered_cat_cols (df : DataFrame) : result (list string) :=
  for_each (categorical_cols df)
    (fun filtered_cat_cols col =>
       if has_column df col then
         s <- getitem df col ;;
         if keeps df s then Ok (filtered_cat_cols ++ [col])
         else Ok filtered_cat_cols
       else Ok filtered_cat_cols)
    [].

(** The test of the loop on a column name, as one boolean. *)
Definition kept_col (df : DataFrame) (col : string) : bool :=
  match assoc col (columns df) with
  | Some s => keeps df s
  | None => false
  end.

Definition zero : num := Fin 0.
Definition epsilon : num := Fin (1 # 1000).

Section DataPreparation.

(** [np.log1p] on one value and sklearn's shuffled split (test size 0.2,
    seed 42) on [n] rows, giving the train and the test positions, are
    library code: they are parameters of the cell. *)
Context {fl : Float64}.
Variable log1p : num -> num.
Variable shuffle_split : nat -> result (list nat * list nat).

(** [if "EC" in df.columns and "OC" in df.columns: ...] *)
Definition add_EC_OC_ratio (df : DataFrame) : result DataFrame :=
  if has_column df "EC" && has_column df "OC" then
    ec <- getitem df "EC" ;;
    oc <- getitem df "OC" ;;
    ratio <- series_binop num_div ec (series_replace zero epsilon oc) ;;
    Ok (setitem df "EC_OC_ratio" ratio)
  else Ok df.

Definition add_Clay_Sand_ratio (df : DataFrame) : result DataFrame :=
  if has_column df "Clay" && has_column df "Sand" then
    clay <- getitem df "Clay" ;;
    sand <- getitem df "Sand" ;;
    ratio <- series_binop num_div clay (series_replace zero epsilon sand) ;;
    Ok (setitem df "Clay_Sand_ratio" ratio)
  else Ok df.

Definition add_NPK_sum (df : DataFrame) : result DataFrame :=
  if has_column df "N" && has_column df "P" && has_column df "K" then
    n <- getitem df "N" ;;
    p <- getitem df "P" ;;
    k <- getitem df "K" ;;
    if (0 <? count_true (notnull n))%nat
       && (0 <? count_true (notnull p))%nat
       && (0 <? count_true (notnull k))%nat
    then
      np <- series_binop num_add n p ;;
      npk <- series_binop num_add np k ;;
      Ok (setitem df "NPK_sum" npk)
    else Ok df
  else Ok df.

Definition add_log_CaCO3 (df : DataFrame) : result DataFrame :=
  if has_column df "CaCO3" then
    c <- getitem df "CaCO3" ;;
    l <- series_map log1p c ;;
    Ok (setitem df "log_CaCO3" l)
  else Ok df.

Definition add_CN_ratio (df : DataFrame) : result DataFrame :=
  if has_column df "OC" && has_column df "N" then
    oc <- getitem df "OC" ;;
    n <- getitem df "N" ;;
    ratio <- series_binop num_div oc (series_replace zero epsilon n) ;;
    Ok (setitem df "CN_ratio" ratio)
  else Ok df.

Definition add_Clay_OC_interaction (df : DataFrame) : result DataFrame :=
  if has_column df "Clay" && has_column df "OC" then
    clay <- getitem df "Clay" ;;
    oc <- getitem df "OC" ;;
    prod <- series_binop num_mul clay oc ;;
    Ok (setitem df "Clay_OC_interaction" prod)
  else Ok df.

(** The feature-engineering block, in the order of the cell. *)
Definition feature_engineering (df : DataFrame) : result DataFrame :=
  df <- add_EC_OC_ratio df ;;
  df <- add_Clay_Sand_ratio df ;;
  df <- add_NPK_sum df ;;
  df <- add_log_CaCO3 df ;;
  df <- add_CN_ratio df ;;
  add_Clay_OC_interaction df.

(** [[col for col in df.select_dtypes(...).columns.tolist() if col != target]] *)
Definition numeric_cols (df : DataFrame) : list string :=
  List.filter (fun col => negb (String.eqb col target)) (select_dtypes_number df).

(** [train_test_split(X, y, test_size=0.2, random_state=42, shuffle=True)] *)
Definition train_test_split (X : DataFrame) (y : Series)
  : result (DataFrame * DataFrame * Series * Series) :=
  split <- shuffle_split (len X) ;;
  X_train <- iloc X (fst split) ;;
  X_test <- iloc X (snd split) ;;
  y_train <- series_take (fst split) y ;;
  y_test <- series_take (snd split) y ;;
  Ok (X_train, X_test, y_train, y_test).

(** What the cell leaves behind for the cells after it. *)
Record Prepared : Type := mkPrepared {
  p_filtered_cat_cols : list string;
  p_df : DataFrame;
  p_y : Series;
  p_numeric_cols : list string;
  p_X : DataFrame;
  p_X_train : DataFrame;
  p_X_test : DataFrame;
  p_y_train : Series;
  p_y_test : Series
}.

(** The cell from the loaded table on, statement by statement. *)
Definition prepare (df : DataFrame) : result Prepared :=
  filtered <- filtered_cat_cols df ;;
  df <- dropna_subset df target ;;
  df <- feature_engineering df ;;
  y <- getitem df target ;;
  let numeric := numeric_cols df in
  X <- getitems df (numeric ++ filtered) ;;
  parts <- train_test_split X y ;;
  let '(X_train, X_test, y_train, y_test) := parts in
  Ok {| p_filtered_cat_cols := filtered;
        p_df := df;
        p_y := y;
        p_numeric_cols := numeric;
        p_X := X;
        p_X_train := X_train;
        p_X_test := X_test;
        p_y_train := y_train;
        p_y_test := y_test |}.

End DataPreparation.

(** ** Keras models

    A layer is the constructor call that makes it, with the arguments the
    notebooks pass and the Keras defaults of the others ([Dense]: no
    activation, no regularizer, ["glorot_uniform"]).  A [Sequential] model
    is the list of layers added to it, in order, and the arguments of
    [compile]. *)

Inductive regularizer : Type :=
| l2 (strength : Q).

Inductive layer : Type :=
| Input (shape : list Z)
| Reshape (target_shape : list Z) (input_shape : list Z)
| Conv1D (filters kernel_size : Z) (padding : string) (activation : option string)
| BatchNormalization
| GlobalAveragePooling1D
| Dense (units : Z) (activation : option string)
        (kernel_regularizer : option regularizer) (kernel_initializer : string)
| Dropout (rate : Q).

Inductive optimizer : Type :=
| Adam (learning_rate : Q).

Record compile_args : Type := mkCompile {
  c_optimizer : optimizer;
  c_loss : string;
  c_metrics : list string
}.

Record Model : Type := mkModel {
  layers : list layer;
  compiled : option compile_args
}.

(** The checks of Keras on a layer that is added to a model holding the
    layers [before]: those of the constructor on its arguments and those of
    [add] on the shape it is fed.  [None] is a layer that passes, [Some e]
    the exception raised.  Keras is a library: what it checks is a
    parameter. *)
Class Keras : Type := {
  layer_check : list layer -> layer -> option exn
}.

Section Builders.

Context {keras : Keras}.

(** [models.Sequential()] *)
Definition Sequential : Model := {| layers := []; compiled := None |}.

(** [model.add(layer)], the layer being made in the call *)
Definition add (model : Model) (l : layer) : result Model :=
  match layer_check (layers model) l with
  | Some e => Raise e
  | None => Ok {| layers := layers model ++ [l]; compiled := compiled model |}
  end.

(** [model.compile(optimizer=..., loss=..., metrics=...)] *)
Definition compile (model : Model) (o : optimizer) (loss : string)
    (metrics : list string) : Model :=
  {| layers := layers model;
     compiled := Some {| c_optimizer := o; c_loss := loss; c_metrics := metrics |} |}.

(** [enumerate(l)] *)
Definition enumerate {A : Type} (l : list A) : list (nat * A) :=
  combine (seq 0 (length l)) l.

(** [l[i]] for a position counted from the front *)
Definition list_index {A : Type} (l : list A) (i : nat) : result A :=
  match nth_error l i with
  | Some x => Ok x
  | None => Raise IndexError
  end.

(** The body of the loop over the hidden layers, the same in both builders. *)
Definition add_hidden_block (dropout_rates : list Q) (activation : string)
    (l2_reg : Q) (model : Model) (step : nat * Z) : result Model :=
  let i := fst step in
  let neurons := snd step in
  model <- add model (Dense neurons (Some activation) (Some (l2 l2_reg))
                            "he_normal") ;;
  model <- add model BatchNormalization ;;
  rate <- list_index dropout_rates i ;;
  add model (Dropout rate).

Definition create_model (input_dim : Z) (neurons_layers : list Z)
    (dropout_rates : list Q) (activation : string) (learning_rate l2_reg : Q)
  : result Model :=
  let model := Sequential in
  model <- add model (Input [input_dim]) ;;
  model <- for_each (enumerate neurons_layers)
             (add_hidden_block dropout_rates activation l2_reg) model ;;
  model <- add model (Dense 1 None None "glorot_uniform") ;;
  Ok (compile model (Adam learning_rate) "mse" ["mae"]).

Definition create_cnn_model (input_dim : Z) (neurons_layers : list Z)
    (dropout_rates : list Q) (activation : string) (learning_rate l2_reg : Q)
    (cnn_filters kernel_size : Z) : result Model :=
  let model := Sequential in
  model <- add model (Reshape [input_dim; 1%Z] [input_dim]) ;;
  model <- add model (Conv1D cnn_filters kernel_size "same" (Some activation)) ;;
  model <- add model BatchNormalization ;;
  model <- add model (Conv1D (cnn_filters * 2) kernel_size "same"
                             (Some activation)) ;;
  model <- add model BatchNormalization ;;
  model <- add model GlobalAveragePooling1D ;;
  model <- for_each (enumerate neurons_layers)
             (add_hidden_block dropout_rates activation l2_reg) model ;;
  model <- add model (Dense 1 None None "glorot_uniform") ;;
  Ok (compile model (Adam learning_rate) "mse" ["mae"]).

(** The layers [ls] added to a model one after the other. *)
Definition add_all (model : Model) (ls : list layer) : result Model :=
  for_each ls add model.

(** The exception of the first layer of [ls] that Keras refuses, when the
    layers are added one after the other to a model holding [before]. *)
Fixpoint first_refusal (before ls : list layer) : option exn :=
  match ls with
  | [] => None
  | l :: rest =>
      match layer_check before l with
      | Some e => Some e
      | None => first_refusal (before ++ [l]) rest
      end
  end.

(** Keras takes the layers [ls], added in this order to an empty model. *)
Definition accepted (ls : list layer) : bool :=
  match first_refusal [] ls with
  | None => true
  | Some _ => false
  end.

End Builders.

(** The default arguments of the two builders. *)
Definition default_neurons_layers : list Z := [128; 64; 32]%Z.
Definition default_dropout_rates : list Q := [4 # 10; 3 # 10; 2 # 10].
Definition default_activation : string := "relu".

(** The hidden block of one layer and the stack of them, as the design
    describes it: a dense layer of the configured width and activation, a
    normalization layer, a dropout layer of the configured rate. *)
Definition hidden_block (activation : string) (l2_reg : Q) (neurons : Z)
    (rate : Q) : list layer :=
  [Dense neurons (Some activation) (Some (l2 l2_reg)) "he_normal";
   BatchNormalization;
   Dropout rate].

Definition dense_stack (activation : string) (l2_reg : Q)
    (neurons_layers : list Z) (dropout_rates : list Q) : list layer :=
  flat_map (fun nd => hidden_block activation l2_reg (fst nd) (snd nd))
           (combine neurons_layers dropout_rates)
  ++ [Dense 1 None None "glorot_uniform"].

(** The variance-scaling initializer that goes with an activation, as the
    Keras documentation pairs them: He for the rectifiers [relu] and [elu],
    LeCun for the self-normalizing [selu], Glorot (the default of [Dense])
    for the others. *)
Definition matched_initializer (activation : string) : string :=
  if String.eqb activation "relu" || String.eqb activation "elu" then "he_normal"
  else if String.eqb activation "selu" then "lecun_normal"
  else "glorot_uniform".

(** The reading under which every hidden layer of a model has the
    initializer that goes with the configured activation. *)
Definition hidden_layers_matched (activation : string) (model : Model) : Prop :=
  forall units act reg init,
    In (Dense units (Some act) reg init) (layers model) ->
    init = matched_initializer activation.

(** [str(n)] *)
Definition str_of_nat (n : nat) : string :=
  NilEmpty.string_of_uint (Nat.to_uint n).

(** ** Hyperparameter search

    Optuna and the Keras training loop are libraries.  A sampler and the
    training run are parameters with their contracts; the trial and the
    study are modelled from the design: a suggestion draws a value of the
    declared range or choice list and records it under its name, the study
    runs the objective once per trial and retains a trial of least value. *)

Inductive param : Type :=
| PInt (z : Z)
| PFloat (q : Q)
| PStr (s : string).

Inductive distribution : Type :=
| IntDistribution (low high : Z)
| FloatDistribution (low high : Q) (log : bool)
| CategoricalDistribution (choices : list param).

(** Python values that can be the choices of a categorical parameter. *)
Class PyValue (A : Type) : Type := {
  to_param : A -> param;
  of_param : param -> option A
}.

#[export] Instance PyValue_str : PyValue string :=
  {| to_param := PStr;
     of_param := fun v => match v with PStr s => Some s | _ => None end |}.

#[export] Instance PyValue_int : PyValue Z :=
  {| to_param := PInt;
     of_param := fun v => match v with PInt z => Some z | _ => None end |}.

(** The sampler of the study: it draws an integer or a float between two
    bounds, or one of a non-empty list of choices, and moves to its next
    state. *)
Class Sampler (St : Type) : Type := {
  sample_int : string -> Z -> Z -> St -> Z * St;
  sample_float : string -> Q -> Q -> bool -> St -> Q * St;
  sample_choice : forall A : Type, string -> A -> list A -> St -> A * St;
  sample_int_range : forall name low high s,
    (low <= high)%Z ->
    (low <= fst (sample_int name low high s) <= high)%Z;
  sample_float_range : forall name low high log s,
    low <= high ->
    low <= fst (sample_float name low high log s)
    /\ fst (sample_float name low high log s) <= high;
  sample_choice_In : forall A name (c : A) cs s,
    In (fst (sample_choice A name c cs s)) (c :: cs)
}.

(** The metrics of a training run, one value per epoch. *)
Record History : Type := mkHistory {
  h_loss : list Q;
  h_mae : list Q;
  h_val_loss : list Q;
  h_val_mae : list Q
}.

(** [min(l)]: the first of the least values; [ValueError] on an empty list. *)
Definition py_min (l : list Q) : result Q :=
  match l with
  | [] => Raise ValueError
  | x :: rest => Ok (fold_left (fun m y => if Qltb y m then y else m) rest x)
  end.

(** [range(n)] *)
Definition range (n : Z) : list nat := seq 0 (Z.to_nat n).

Notation "' p <- c ;; k" := (bind c (fun x => match x with p => k end))
  (at level 100, p pattern, c at next level, right associativity).

(** The configurations the objective draws from: one to five layers, a
    width and a dropout rate for each, an activation and an L2 strength. *)
Definition in_search_space (neurons_layers : list Z) (dropout_rates : list Q)
    (activation : string) (l2_reg : Q) : Prop :=
  (1 <= length neurons_layers <= 5)%nat
  /\ length dropout_rates = length neurons_layers
  /\ Forall (fun units => (16 <= units <= 512)%Z) neurons_layers
  /\ Forall (fun rate => 1 # 10 <= rate /\ rate <= 5 # 10) dropout_rates
  /\ In activation ["relu"; "elu"; "selu"]
  /\ 1 # 1000000 <= l2_reg /\ l2_reg <= 1 # 1000.

Section Search.

Context {St : Type} {sampler : Sampler St} {keras : Keras}.

(** [model.fit(X_train_processed, y_train, validation_split=0.2,
    epochs=..., batch_size=..., callbacks=[early_stopping, reduce_lr])]
    and the width of the processed training matrix. *)
Variable fit : Model -> Z -> Z -> History.
Variable input_dim : Z.

(** Modelled from the spec: an Optuna trial, the sampler state it draws
    from and the values and distributions suggested so far, by name. *)
Record Trial : Type := mkTrial {
  t_number : nat;
  t_sampler : St;
  t_params : list (string * param);
  t_distributions : list (string * distribution)
}.

Definition record (trial : Trial) (s : St) (name : string) (v : param)
    (d : distribution) : Trial :=
  {| t_number := t_number trial;
     t_sampler := s;
     t_params := t_params trial ++ [(name, v)];
     t_distributions := t_distributions trial ++ [(name, d)] |}.

(** Modelled from the spec: [trial.suggest_int(name, low, high)].  A name
    suggested before gives the value it was given. *)
Definition suggest_int (name : string) (low high : Z) (trial : Trial)
  : result (Z * Trial) :=
  match assoc name (t_params trial) with
  | Some v =>
      match v with PInt z => Ok (z, trial) | _ => Raise ValueError end
  | None =>
      if (high <? low)%Z then Raise ValueError
      else
        let drawn := sample_int name low high (t_sampler trial) in
        Ok (fst drawn,
            record trial (snd drawn) name (PInt (fst drawn))
                   (IntDistribution low high))
  end.

(** Modelled from the spec: [trial.suggest_float(name, low, high, log=...)] *)
Definition suggest_float (name : string) (low high : Q) (log : bool)
    (trial : Trial) : result (Q * Trial) :=
  match assoc name (t_params trial) with
  | Some v =>
      match v with PFloat q => Ok (q, trial) | _ => Raise ValueError end
  | None =>
      if Qltb high low then Raise ValueError
      else
        let drawn := sample_float name low high log (t_sampler trial) in
        Ok (fst drawn,
            record trial (snd drawn) name (PFloat (fst drawn))
                   (FloatDistribution low high log))
  end.

(** Modelled from the spec: [trial.suggest_categorical(name, choices)] *)
Definition suggest_categorical {A : Type} `{PyValue A} (name : string)
    (choices : list A) (trial : Trial) : result (A * Trial) :=
  match assoc name (t_params trial) with
  | Some v =>
      match of_param v with Some a => Ok (a, trial) | None => Raise ValueError end
  | None =>
      match choices with
      | [] => Raise ValueError
      | c :: cs =>
          let drawn := sample_choice A name c cs (t_sampler trial) in
          Ok (fst drawn,
              record trial (snd drawn) name (to_param (fst drawn))
                     (CategoricalDistribution (map to_param choices)))
      end
  end.

(** [f"n_units_l{i}"] and [f"dropout_l{i}"] *)
Definition n_units_l (i : nat) : string := "n_units_l" ++ str_of_nat i.
Definition dropout_l (i : nat) : string := "dropout_l" ++ str_of_nat i.

(** The objective of the study: the validation MAE of the best epoch of a
    run of at most 100 epochs on the sampled configuration. *)
Definition objective (trial : Trial) : result (Q * Trial) :=
  '(n_layers, trial) <- suggest_int "n_layers" 1 5 trial ;;
  '(neurons_layers, dropout_rates, trial) <-
    for_each (range n_layers)
      (fun acc i =>
         let '(neurons_layers, dropout_rates, trial) := acc in
         '(units, trial) <- suggest_int (n_units_l i) 16 512 trial ;;
         '(rate, trial) <- suggest_float (dropout_l i) (1 # 10) (5 # 10) false trial ;;
         Ok (neurons_layers ++ [units], dropout_rates ++ [rate], trial))
      ([], [], trial) ;;
  '(activation, trial) <-
    suggest_categorical "activation" ["relu"; "elu"; "selu"] trial ;;
  '(learning_rate, trial) <-
    suggest_float "learning_rate" (1 # 100000) (1 # 100) true trial ;;
  '(l2_reg, trial) <- suggest_float "l2_reg" (1 # 1000000) (1 # 1000) true trial ;;
  '(batch_size, trial) <-
    suggest_categorical "batch_size" [16; 32; 64; 128]%Z trial ;;
  model <- create_model input_dim neurons_layers dropout_rates activation
                        learning_rate l2_reg ;;
  let history := fit model batch_size 100 in
  val_mae <- py_min (h_val_mae history) ;;
  Ok (val_mae, trial).

(** Modelled from the spec: a finished trial as the study keeps it. *)
Record FrozenTrial : Type := mkFrozenTrial {
  number : nat;
  params : list (string * param);
  distributions : list (string * distribution);
  value : Q
}.

Definition freeze (trial : Trial) (v : Q) : FrozenTrial :=
  {| number := t_number trial;
     params := t_params trial;
     distributions := t_distributions trial;
     value := v |}.

(** Modelled from the spec: a study, its sampler and its finished trials in
    the order they ran. *)
Record Study : Type := mkStudy {
  study_sampler : St;
  trials : list FrozenTrial
}.

(** Modelled from the spec: [optuna.create_study(direction="minimize")] *)
Definition create_study (s : St) : Study := {| study_sampler := s; trials := [] |}.

(** Modelled from the spec: the trial a study hands to the objective, with
    its number and the sampler state of the study, nothing suggested yet. *)
Definition fresh_trial (k : nat) (s : St) : Trial :=
  {| t_number := k; t_sampler := s; t_params := []; t_distributions := [] |}.

(** Modelled from the spec: one trial of [study.optimize]: a fresh trial is
    handed to the objective and kept with the value returned. *)
Definition run_trial (objective : Trial -> result (Q * Trial)) (study : Study)
  : result Study :=
  let trial := fresh_trial (length (trials study)) (study_sampler study) in
  '(v, trial) <- objective trial ;;
  Ok {| study_sampler := t_sampler trial;
        trials := trials study ++ [freeze trial v] |}.

(** Modelled from the spec: [study.optimize(objective, n_trials=...)] *)
Definition optimize (objective : Trial -> result (Q * Trial)) (n_trials : nat)
    (study : Study) : result Study :=
  for_each (seq 0 n_trials) (fun study _ => run_trial objective study) study.

(** Modelled from the spec: [study.best_trial] of a minimizing study, the
    first trial of least value; [ValueError] when no trial has finished. *)
Definition best_trial (study : Study) : result FrozenTrial :=
  match trials study with
  | [] => Raise ValueError
  | t :: rest =>
      Ok (fold_left (fun best t' => if Qltb (value t') (value best) then t' else best)
                    rest t)
  end.

(** [trial.params[name]] *)
Definition params_getitem (trial : FrozenTrial) (name : string) : result param :=
  match assoc name (params trial) with
  | Some v => Ok v
  | None => Raise (KeyError name)
  end.

Definition as_int (v : param) : result Z :=
  match v with PInt z => Ok z | _ => Raise TypeError end.

Definition as_float (v : param) : result Q :=
  match v with PFloat q => Ok q | _ => Raise TypeError end.

Definition as_str (v : param) : result string :=
  match v with PStr s => Ok s | _ => Raise TypeError end.

(** The model built from the parameters of a trial, as the cell after the
    search does it for the best one. *)
Definition best_model (trial : FrozenTrial) : result Model :=
  best_n_layers <- (v <- params_getitem trial "n_layers" ;; as_int v) ;;
  best_neurons <- map_result
                    (fun i => v <- params_getitem trial (n_units_l i) ;; as_int v)
                    (range best_n_layers) ;;
  best_dropouts <- map_result
                     (fun i => v <- params_getitem trial (dropout_l i) ;; as_float v)
                     (range best_n_layers) ;;
  activation <- (v <- params_getitem trial "activation" ;; as_str v) ;;
  learning_rate <- (v <- params_getitem trial "learning_rate" ;; as_float v) ;;
  l2_reg <- (v <- params_getitem trial "l2_reg" ;; as_float v) ;;
  create_model input_dim best_neurons best_dropouts activation learning_rate l2_reg.

(** The search cell and the one printing its result: the study after its
    50 trials and the trial it reports as best. *)
Definition search (s : St) : result (Study * FrozenTrial) :=
  let study := create_study s in
  study <- optimize objective 50 study ;;
  trial <- best_trial study ;;
  Ok (study, trial).

(** The parameters of a trial lie in the ranges and choice lists that the
    objective declares, recorded under the names it uses. *)
Definition in_declared_ranges (t : FrozenTrial) : Prop :=
  exists n_layers activation learning_rate l2_reg batch_size,
    assoc "n_layers" (params t) = Some (PInt n_layers)
    /\ (1 <= n_layers <= 5)%Z
    /\ (forall i, (i < Z.to_nat n_layers)%nat ->
          exists units rate,
            assoc (n_units_l i) (params t) = Some (PInt units)
            /\ (16 <= units <= 512)%Z
            /\ assoc (dropout_l i) (params t) = Some (PFloat rate)
            /\ 1 # 10 <= rate /\ rate <= 5 # 10)
    /\ assoc "activation" (params t) = Some (PStr activation)
    /\ In activation ["relu"; "elu"; "selu"]
    /\ assoc "learning_rate" (params t) = Some (PFloat learning_rate)
    /\ 1 # 100000 <= learning_rate /\ learning_rate <= 1 # 100
    /\ assoc "learning_rate" (distributions t)
       = Some (FloatDistribution (1 # 100000) (1 # 100) true)
    /\ assoc "l2_reg" (params t) = Some (PFloat l2_reg)
    /\ 1 # 1000000 <= l2_reg /\ l2_reg <= 1 # 1000
    /\ assoc "l2_reg" (distributions t)
       = Some (FloatDistribution (1 # 1000000) (1 # 1000) true)
    /\ assoc "batch_size" (params t) = Some (PInt batch_size)
    /\ In batch_size [16; 32; 64; 128]%Z.

(** The value of a trial is the least validation MAE over the epochs of the
    run, of at most 100 epochs, of the model of its parameters. *)
Definition scored_by_best_epoch (t : FrozenTrial) : Prop :=
  exists model batch_size,
    best_model t = Ok model
    /\ assoc "batch_size" (params t) = Some (PInt batch_size)
    /\ py_min (h_val_mae (fit model batch_size 100)) = Ok (value t)
    /\ In (value t) (h_val_mae (fit model batch_size 100))
    /\ forall x, In x (h_val_mae (fit model batch_size 100)) -> value t <= x.

(** The trials [ts] are those of successive runs of [objective], numbered
    from [k] on: the first run draws from the sampler state [s], each later
    one from the state the run before it has left, and [s'] is the state
    after the last. *)
Inductive runs_of (objective : Trial -> result (Q * Trial))
  : nat -> St -> list FrozenTrial -> St -> Prop :=
| runs_none (k : nat) (s : St) : runs_of objective k s [] s
| runs_next (k : nat) (s : St) (v : Q) (trial : Trial)
    (ts : list FrozenTrial) (s' : St) :
    objective (fresh_trial k s) = Ok (v, trial) ->
    runs_of objective (S k) (t_sampler trial) ts s' ->
    runs_of objective k s (freeze trial v :: ts) s'.

(** The trials of a study all come from the objective. *)
Definition sound_trial (t : FrozenTrial) : Prop :=
  in_declared_ranges t /\ scored_by_best_epoch t.

End Search.

(** ** The fitted preprocessor

    scikit-learn is a library: its transformers are not in the notebooks,
    which only compose them.  They are modelled row by row from the design:
    the numeric pipeline (imputation, power transform, scaling) gives one
    output column per numeric column, with parameters frozen at fit time;
    the one-hot encoder learns the levels of each categorical column at fit
    time and maps a level to the indicator block of that vocabulary. *)

(** A level of a categorical column; [None] is the missing value. *)
Definition level : Type := option string.

Definition level_eqb (a b : level) : bool :=
  match a, b with
  | Some x, Some y => String.eqb x y
  | None, None => true
  | _, _ => false
  end.

(** [handle_unknown] of [OneHotEncoder] *)
Inductive unknown_policy : Type :=
| handle_unknown_error
| handle_unknown_ignore.

(** One row of the feature matrix: the numeric columns, then the filtered
    categorical columns. *)
Record Row : Type := mkRow {
  numerics : list num;
  categoricals : list level
}.

(** Modelled from the spec: the indicator block of a level in a vocabulary,
    a one at the place of the level and zeros elsewhere. *)
Definition one_hot (vocabulary : list level) (x : level) : list num :=
  map (fun c => if level_eqb c x then Fin 1 else Fin 0) vocabulary.

(** Modelled from the spec: [OneHotEncoder.transform] on one value.  A level
    that is not in the vocabulary is an error, or the all-zero block under
    the policy [ignore]. *)
Definition onehot_transform (policy : unknown_policy) (vocabulary : list level)
    (x : level) : result (list num) :=
  if existsb (level_eqb x) vocabulary then Ok (one_hot vocabulary x)
  else match policy with
       | handle_unknown_ignore => Ok (repeat (Fin 0) (length vocabulary))
       | handle_unknown_error => Raise ValueError
       end.

Section Preprocessing.

(** The fitted numeric pipeline: what it learns from the numeric part of
    the training rows, and the value it gives to column [j] of a row. *)
Variable numeric_state : Type.
Variable numeric_fit : list (list num) -> numeric_state.
Variable numeric_apply : numeric_state -> nat -> list num -> num.

(** Modelled from the spec: the preprocessor after [fit]. *)
Record Fitted : Type := mkFitted {
  n_numeric : nat;
  fitted_numeric : numeric_state;
  vocabularies : list (list level)
}.

Definition column_of (j : nat) (rows : list Row) : list level :=
  map (fun r => nth j (categoricals r) None) rows.

(** Modelled from the spec: [preprocessor.fit] on the training rows of a
    matrix of [n_num] numeric and [n_cat] categorical columns. *)
Definition fit_preprocessor (n_num n_cat : nat) (rows : list Row) : Fitted :=
  {| n_numeric := n_num;
     fitted_numeric := numeric_fit (map numerics rows);
     vocabularies := map (fun j => unique level_eqb (column_of j rows))
                         (seq 0 n_cat) |}.

Definition numeric_block (f : Fitted) (r : Row) : list num :=
  map (fun j => numeric_apply (fitted_numeric f) j (numerics r))
      (seq 0 (n_numeric f)).

Definition categorical_blocks (policy : unknown_policy) (f : Fitted) (r : Row)
  : result (list (list num)) :=
  map_result (fun vx => onehot_transform policy (fst vx) (snd vx))
             (combine (vocabularies f) (categoricals r)).

(** Modelled from the spec: [preprocessor.transform] on one row, the
    numeric block followed by the indicator blocks. *)
Definition transform_row (policy : unknown_policy) (f : Fitted) (r : Row)
  : result (list num) :=
  blocks <- categorical_blocks policy f r ;;
  Ok (numeric_block f r ++ concat blocks).

(** The notebooks build the encoder with [handle_unknown="ignore"]. *)
Definition categorical_transformer : unknown_policy := handle_unknown_ignore.

(** [preprocessor.fit_transform(X_train)] and [preprocessor.transform(X_test)] *)
Definition fit_transform (n_num n_cat : nat) (X_train : list Row)
  : Fitted * result (list (list num)) :=
  let f := fit_preprocessor n_num n_cat X_train in
  (f, map_result (transform_row categorical_transformer f) X_train).

Definition transform (f : Fitted) (X_test : list Row) : result (list (list num)) :=
  map_result (transform_row categorical_transformer f) X_test.

(** The place in an output row where the indicator block of the
    categorical column [j] begins. *)
Definition block_start (f : Fitted) (j : nat) : nat :=
  (n_numeric f + list_sum (map (@length level) (firstn j (vocabularies f))))%nat.

(** The number of columns the fitted preprocessor writes. *)
Definition output_width (f : Fitted) : nat :=
  (n_numeric f + list_sum (map (@length level) (vocabularies f)))%nat.

End Preprocessing.

(** ** The engineered features as a table

    The same six features, read as data: a name, the source columns it
    needs, an extra readiness test on those columns, and the series it is
    made of.  The properties compare the cell with this table. *)

Record feature : Type := mkFeature {
  f_name : string;
  f_sources : list string;
  f_ready : list Series -> bool;
  f_value : list Series -> result Series
}.

Section FeatureTable.

Context {fl : Float64}.

Definition guarded_ratio (numerator denominator : Series) : result Series :=
  series_binop num_div numerator (series_replace zero epsilon denominator).

Definition ratio_feature (name numerator denominator : string) : feature :=
  {| f_name := name;
     f_sources := [numerator; denominator];
     f_ready := fun _ => true;
     f_value := fun ss => match ss with
                          | [a; b] => guarded_ratio a b
                          | _ => Raise ValueError
                          end |}.

Definition has_value (s : Series) : bool := (0 <? count_true (notnull s))%nat.

Definition NPK_sum_feature : feature :=
  {| f_name := "NPK_sum";
     f_sources := ["N"; "P"; "K"];
     f_ready := forallb has_value;
     f_value := fun ss => match ss with
                          | [n; p; k] =>
                              np <- series_binop num_add n p ;;
                              series_binop num_add np k
                          | _ => Raise ValueError
                          end |}.

Definition log_CaCO3_feature (log1p : num -> num) : feature :=
  {| f_name := "log_CaCO3";
     f_sources := ["CaCO3"];
     f_ready := fun _ => true;
     f_value := fun ss => match ss with
                          | [c] => series_map log1p c
                          | _ => Raise ValueError
                          end |}.

Definition Clay_OC_interaction_feature : feature :=
  {| f_name := "Clay_OC_interaction";
     f_sources := ["Clay"; "OC"];
     f_ready := fun _ => true;
     f_value := fun ss => match ss with
                          | [a; b] => series_binop num_mul a b
                          | _ => Raise ValueError
                          end |}.

Definition ratio_features : list feature :=
  [ratio_feature "EC_OC_ratio" "EC" "OC";
   ratio_feature "Clay_Sand_ratio" "Clay" "Sand";
   ratio_feature "CN_ratio" "OC" "N"].

Definition engineered (log1p : num -> num) : list feature :=
  [ratio_feature "EC_OC_ratio" "EC" "OC";
   ratio_feature "Clay_Sand_ratio" "Clay" "Sand";
   NPK_sum_feature;
   log_CaCO3_feature log1p;
   ratio_feature "CN_ratio" "OC" "N";
   Clay_OC_interaction_feature].

End FeatureTable.

Definition engineered_names : list string :=
  ["EC_OC_ratio"; "Clay_Sand_ratio"; "NPK_sum"; "log_CaCO3"; "CN_ratio";
   "Clay_OC_interaction"].

Definition source_names : list string :=
  ["EC"; "OC"; "Clay"; "Sand"; "N"; "P"; "K"; "CaCO3"].

(** The source columns of a feature, when the frame has them all. *)
Fixpoint lookup_all (df : DataFrame) (cols : list string) : option (list Series) :=
  match cols with
  | [] => Some []
  | c :: rest =>
      match assoc c (columns df), lookup_all df rest with
      | Some s, Some ss => Some (s :: ss)
      | _, _ => None
      end
  end.

(** A feature can be computed on a frame: its sources are all there and
    pass its readiness test. *)
Definition computable (f : feature) (df : DataFrame) : bool :=
  match lookup_all df (f_sources f) with
  | Some ss => f_ready f ss
  | None => false
  end.

Definition feature_series (f : feature) (df : DataFrame) : result Series :=
  match lookup_all df (f_sources f) with
  | Some ss => f_value f ss
  | None => Raise (KeyError (f_name f))
  end.

Definition apply_feature (df : DataFrame) (f : feature) : result DataFrame :=
  if computable f df then
    s <- feature_series f df ;; Ok (setitem df (f_name f) s)
  else Ok df.

(** The measurement columns the features read are numeric where present. *)
Definition numeric_sources (df : DataFrame) : Prop :=
  forall c s, In c source_names -> assoc c (columns df) = Some s ->
              is_numeric s = true.

(** No feature of the list is a source of a feature of the list. *)
Definition independent (fs : list feature) : Prop :=
  forall f g, In f fs -> In g fs -> ~ In (f_name f) (f_sources g).

(** On numeric sources the series of the feature is computed, not raised. *)
Definition total_on_numeric (f : feature) : Prop :=
  forall ss, Forall (fun s => is_numeric s = true) ss ->
             length ss = length (f_sources f) ->
             exists s, f_value f ss = Ok s.

Definition numeric_sources_of (fs : list feature) (df : DataFrame) : Prop :=
  forall f c s, In f fs -> In c (f_sources f) ->
                assoc c (columns df) = Some s -> is_numeric s = true.

(** What a feature of the table leaves in the frame [df'], from [df]. *)
Definition feature_outcome (df df' : DataFrame) (f : feature) : Prop :=
  if computable f df
  then exists s, feature_series f df = Ok s
                 /\ assoc (f_name f) (columns df') = Some s
  else assoc (f_name f) (columns df') = assoc (f_name f) (columns df).

(** The condition of the feature in words: every named source column is in
    the frame and, for [NPK_sum], each of them has a value somewhere. *)
Definition sources_available (f : feature) (df : DataFrame) : Prop :=
  (forall c, In c (f_sources f) -> has_column df c = true)
  /\ (f_name f = "NPK_sum" ->
      forall c s, In c (f_sources f) -> assoc c (columns df) = Some s ->
                  (0 < count_true (notnull s))%nat).

(** ** Sample tables *)

(** A column of [k] rows holding [k] distinct levels. *)
Definition levels (k : nat) : Series :=
  ObjCol (map (fun i => Some (str_of_nat i)) (seq 0 k)).

Definition constant_col (k : nat) (x : num) : Series := NumCol (repeat x k).

(** A loaded table of [k] rows: a categorical [Depth] with [k] levels and a
    target that is present everywhere. *)
Definition depth_table (k : nat) : DataFrame :=
  {| index := seq 0 k;
     columns := [("Depth", levels k); ("pH_H2O", constant_col k (Fin 7))] |}.

(** A stand-in for [np.log1p] on the sample tables: it agrees with [log1p]
    at zero, missing and plus infinity; the samples hold no other value in
    [CaCO3]. *)
Definition sample_log1p (x : num) : num :=
  match x with
  | Fin q => if Qeq_bool q 0 then Fin 0 else NaN
  | PInf => PInf
  | _ => NaN
  end.

(** A stand-in for the shuffled split on the sample tables: the first fifth
    of the rows (rounded up) is the test side, the rest the train side. *)
Definition sample_split (n : nat) : result (list nat * list nat) :=
  let n_test := ((n + 4) / 5)%nat in
  if (n_test <? n)%nat then Ok (seq n_test (n - n_test), seq 0 n_test)
  else Raise ValueError.

(** One row: the conductivity is missing and the organic carbon is zero. *)
Definition lone_zero_OC : DataFrame :=
  {| index := [0%nat];
     columns := [("EC", NumCol [NaN]); ("OC", NumCol [Fin 0]);
                 ("pH_H2O", NumCol [Fin 7])] |}.

(** Five rows of soil measurements; the target of rows 1 and 3 is missing,
    [Depth] is missing in rows 1 and 3 only, [OC] and [N] hold zeros, and
    there is no [Sand], [P], [K] or [CaCO3] column. *)
Definition soil_table : DataFrame :=
  {| index := seq 0 5;
     columns :=
       [("Depth", ObjCol [Some "0-20"; None; Some "20-30"; None; Some "0-20"]);
        ("EC", NumCol [Fin 12; Fin 8; NaN; Fin 4; Fin 9]);
        ("OC", NumCol [Fin 0; Fin 2; Fin 3; Fin 0; Fin 6]);
        ("Clay", NumCol [Fin 50; Fin 40; Fin 30; Fin 20; Fin 10]);
        ("N", NumCol [Fin 1; Fin 0; Fin 0; Fin 2; Fin 3]);
        ("pH_H2O", NumCol [Fin 7; NaN; Fin (13 # 2); NaN; Fin 5])] |}.

(** The value a denominator is divided by: [s.replace(0, 0.001)] on one
    entry. *)
Definition guarded (d : num) : num := if num_eqb d zero then epsilon else d.

(** The reading under which no row with a zero denominator has a missing or
    infinite ratio, for one run of the block from [df] to [df']. *)
Definition zero_denominators_give_finite_ratios {fl : Float64}
    (df df' : DataFrame) : Prop :=
  forall f a b r j d,
    In f ratio_features ->
    lookup_all df (f_sources f) = Some [NumCol a; NumCol b] ->
    assoc (f_name f) (columns df') = Some (NumCol r) ->
    nth_error b j = Some d ->
    num_eqb d zero = true ->
    exists q, nth_error r j = Some (Fin q).

Definition is_Conv1D (l : layer) : bool :=
  match l with Conv1D _ _ _ _ => true | _ => false end.

(** A sampler for the examples: a counter, which decides the value drawn
    and goes up by one at each draw. *)
Definition cycling_int (low high : Z) (n : nat) : Z :=
  (low + Z.of_nat n mod (high - low + 1))%Z.

Definition cycling_float (low high : Q) (n : nat) : Q :=
  if Nat.even n then low else high.

Definition cycling_choice {A : Type} (c : A) (cs : list A) (n : nat) : A :=
  nth (n mod S (length cs)) (c :: cs) c.

(** A training run for the examples: three epochs whose validation MAE
    depends on the depth of the model and on the batch size. *)
Definition sample_fit (model : Model) (batch_size epochs : Z) : History :=
  let depth := Z.of_nat (length (layers model)) in
  {| h_loss := [1; 1 # 2; 1 # 3];
     h_mae := [1; 1 # 2; 1 # 3];
     h_val_loss := [1; 1 # 2; 1 # 2];
     h_val_mae := [Qmake (depth + batch_size) 100;
                   Qmake (depth + 1) 100;
                   Qmake (depth + 2) 100] |}.


(** A stand-in for the fitted numeric pipeline on the sample rows: it
    learns nothing and leaves a value as it is. *)
Definition sample_numeric_fit (train : list (list num)) : unit := tt.

Definition sample_numeric_apply (state : unit) (j : nat) (row : list num) : num :=
  nth j row NaN.

(** Training rows with the depths 0-20 and 20-30, and test rows of which
    the second has the depth 30-60. *)
Definition sample_X_train : list Row :=
  [{| numerics := [Fin 12; Fin 0]; categoricals := [Some "0-20"] |};
   {| numerics := [Fin 9; Fin 6]; categoricals := [Some "20-30"] |};
   {| numerics := [Fin 4; Fin 3]; categoricals := [Some "0-20"] |}].

Definition sample_X_test : list Row :=
  [{| numerics := [Fin 8; Fin 2]; categoricals := [Some "20-30"] |};
   {| numerics := [Fin 7; Fin 1]; categoricals := [Some "30-60"] |}].

(** A stand-in for the arithmetic of numpy on the sample tables: the exact
    operation on rationals. *)
#[export] Instance sample_float64 : Float64 :=
  {| float_add := fun a b => Fin (a + b);
     float_mul := fun a b => Fin (a * b);
     float_div := fun a b => Fin (a / b);
     float_add_number := fun _ _ => eq_refl;
     float_mul_number := fun _ _ => eq_refl;
     float_div_number := fun _ _ _ => eq_refl |}.

(** A stand-in for the checks of Keras on the sample models: [ValueError]
    for a width, a filter count or a kernel size that is not positive, for
    a dropout rate outside [0, 1], for a negative penalty or dimension and
    for an activation that is not one of a few names. *)
Definition sample_activation (activation : option string) : bool :=
  match activation with
  | None => true
  | Some a => existsb (String.eqb a) ["relu"; "elu"; "selu"; "tanh"; "sigmoid"]
  end.

Definition sample_layer_ok (l : layer) : bool :=
  match l with
  | Input shape => forallb (fun d => (0 <=? d)%Z) shape
  | Reshape shape _ => forallb (fun d => (0 <=? d)%Z) shape
  | Conv1D filters kernel_size _ activation =>
      (0 <? filters)%Z && (0 <? kernel_size)%Z && sample_activation activation
  | Dense units activation regularizer _ =>
      (0 <? units)%Z && sample_activation activation
      && match regularizer with
         | Some (l2 strength) => Qle_bool 0 strength
         | None => true
         end
  | Dropout rate => Qle_bool 0 rate && Qle_bool rate 1
  | BatchNormalization | GlobalAveragePooling1D => true
  end.

#[export] Instance sample_keras : Keras :=
  {| layer_check := fun _ l => if sample_layer_ok l then None else Some ValueError |}.

(** * Properties *)

(** ** Generic facts on the frame operations *)

Lemma bind_Ok {A B : Type} (c : result A) (k : A -> result B) (b : B) :
  (x <- c ;; k x) = Ok b -> exists a, c = Ok a /\ k a = Ok b.
Proof. destruct c as [a|e]; simpl; [eauto | discriminate]. Qed.

Lemma has_column_assoc df col :
  has_column df col = true <-> exists s, assoc col (columns df) = Some s.
Proof.
  unfold has_column. destruct (assoc col (columns df)) as [s|].
  - split; eauto.
  - split; [discriminate | intros [s Hs]; discriminate].
Qed.

(** ** The categorical filter *)

Lemma filtered_loop df l acc :
  for_each l
    (fun filtered col =>
       if has_column df col then
         s <- getitem df col ;;
         if keeps df s then Ok (filtered ++ [col]) else Ok filtered
       else Ok filtered) acc
  = Ok (acc ++ List.filter (kept_col df) l).
Proof.
  revert acc. induction l as [|col l IH]; intros acc; simpl.
  - now rewrite app_nil_r.
  - unfold has_column, getitem, kept_col.
    destruct (assoc col (columns df)) as [s|]; simpl.
    + destruct (keeps df s); simpl; rewrite IH; [|reflexivity].
      now rewrite <- app_assoc.
    + apply IH.
Qed.

Lemma kept_of_present df l :
  List.filter (kept_col df) (List.filter (has_column df) l)
  = List.filter (kept_col df) l.
Proof.
  induction l as [|c l IH]; [reflexivity|].
  cbn [List.filter]. unfold kept_col at 2, has_column at 1.
  destruct (assoc c (columns df)) as [s|] eqn:E.
  - cbn [List.filter]. unfold kept_col at 1. rewrite E. now rewrite IH.
  - exact IH.
Qed.

Lemma filtered_cat_cols_eq df :
  filtered_cat_cols df = Ok (List.filter (kept_col df) categorical_cols_declared).
Proof.
  unfold filtered_cat_cols. rewrite filtered_loop. cbn [app]. f_equal.
  apply kept_of_present.
Qed.

(** The rate test of the cell on exact rationals: fewer than three rows in
    ten are missing.  An empty table has rate [NaN], which is below nothing. *)
Lemma missing_rate_lt df s :
  num_ltb (missing_rate df s) (Fin (3 # 10)) = true
  <-> (10 * count_true (isna s) < 3 * len df)%nat.
Proof.
  unfold missing_rate, count_div.
  generalize (count_true (isna s)) as a. generalize (len df) as n.
  intros n a. destruct n as [|n].
  - destruct a as [|a]; simpl; split; try discriminate; lia.
  - unfold num_ltb, Qltb.
    rewrite negb_true_iff, <- not_true_iff_false, Qle_bool_iff.
    unfold Qle, Qdiv, Qmult, Qinv, inject_Z. simpl.
    lia.
Qed.

Example depth_30_levels_excluded :
  nunique (levels 30) = 30%nat /\ filtered_cat_cols (depth_table 30) = Ok [].
Proof. vm_compute. split; reflexivity. Qed.

Example depth_29_levels_included :
  nunique (levels 29) = 29%nat
  /\ filtered_cat_cols (depth_table 29) = Ok ["Depth"].
Proof. vm_compute. split; reflexivity. Qed.

(** C1. A candidate categorical column of the table is in the filtered set
    exactly when it has fewer than 30 distinct values and fewer than three
    rows in ten are missing; with exactly 30 distinct values it is left out,
    with 29 (and the rate below 0.3) it is kept. *)
Theorem C1_categorical_filter (df : DataFrame) (col : string) (s : Series) :
  In col categorical_cols_declared ->
  assoc col (columns df) = Some s ->
  exists kept,
    filtered_cat_cols df = Ok kept
    /\ (In col kept <->
        (nunique s < 30)%nat /\ (10 * count_true (isna s) < 3 * len df)%nat)
    /\ (nunique s = 30%nat -> ~ In col kept)
    /\ (nunique s = 29%nat ->
        (10 * count_true (isna s) < 3 * len df)%nat -> In col kept).
Proof.
  intros Hcand Hcol. eexists. split; [apply filtered_cat_cols_eq|].
  assert (Hiff : In col (List.filter (kept_col df) categorical_cols_declared) <->
                 (nunique s < 30)%nat
                 /\ (10 * count_true (isna s) < 3 * len df)%nat).
  { rewrite filter_In. unfold kept_col. rewrite Hcol. unfold keeps.
    rewrite andb_true_iff, Nat.ltb_lt, missing_rate_lt. tauto. }
  split; [exact Hiff|]. split.
  - intros H30 Hin. apply Hiff in Hin. lia.
  - intros H29 Hrate. apply Hiff. lia.
Qed.

Lemma C1_categorical_filter_witness :
  exists kept,
    filtered_cat_cols (depth_table 29) = Ok kept
    /\ (In "Depth" kept <->
        (nunique (levels 29) < 30)%nat
        /\ (10 * count_true (isna (levels 29)) < 3 * len (depth_table 29))%nat)
    /\ (nunique (levels 29) = 30%nat -> ~ In "Depth" kept)
    /\ (nunique (levels 29) = 29%nat ->
        (10 * count_true (isna (levels 29)) < 3 * len (depth_table 29))%nat ->
        In "Depth" kept).
Proof.
  apply (C1_categorical_filter (depth_table 29) "Depth" (levels 29)).
  - simpl. tauto.
  - reflexivity.
Defined.

(** ** Rows kept by [dropna] *)

Lemma take_mask_In {A : Type} (m : list bool) (l : list A) (x : A) :
  In x (take_mask m l) ->
  exists pos, nth_error m pos = Some true /\ nth_error l pos = Some x.
Proof.
  revert l. induction m as [|b m IH]; intros [|y l]; simpl; try tauto.
  destruct b; simpl.
  - intros [<-|Hin]; [exists 0%nat; auto|].
    destruct (IH _ Hin) as [pos Hpos]. exists (S pos). exact Hpos.
  - intros Hin. destruct (IH _ Hin) as [pos Hpos]. exists (S pos). exact Hpos.
Qed.

Lemma nth_error_seq_label (a n pos label : nat) :
  nth_error (seq a n) pos = Some label -> label = (a + pos)%nat.
Proof.
  revert a pos. induction n as [|n IH]; intros a [|pos]; simpl; try discriminate.
  - intros [= <-]. lia.
  - intros H. apply IH in H. lia.
Qed.

Lemma notnull_isna s pos :
  nth_error (isna s) pos = Some true -> nth_error (notnull s) pos = Some false.
Proof. unfold notnull. intros H. now rewrite nth_error_map, H. Qed.

Lemma count_true_repeat_false n : count_true (repeat false n) = 0%nat.
Proof. unfold count_true. induction n; simpl; auto. Qed.

(** After masking a series by its own [notnull], nothing is missing. *)
Lemma isna_series_mask s :
  count_true (isna (series_mask (notnull s) s)) = 0%nat.
Proof.
  assert (H : forall {A} (f : A -> bool) (l : list A),
             map f (take_mask (map negb (map f l)) l)
             = repeat false (count_true (map negb (map f l)))).
  { intros A f l. unfold count_true.
    induction l as [|x l IH]; [reflexivity|]. simpl.
    destruct (f x) eqn:E; simpl; [|rewrite E]; now rewrite IH. }
  destruct s as [v|v]; unfold notnull; simpl; rewrite H;
    apply count_true_repeat_false.
Qed.

Lemma assoc_map_snd {A B : Type} (f : A -> B) (c : string) (l : list (string * A)) :
  assoc c (map (fun cs => (fst cs, f (snd cs))) l) = option_map f (assoc c l).
Proof.
  induction l as [|[k v] l IH]; simpl; [reflexivity|].
  destruct (String.eqb c k); [reflexivity | exact IH].
Qed.

Lemma dropna_subset_Ok df col df' :
  dropna_subset df col = Ok df' ->
  exists t, assoc col (columns df) = Some t
    /\ index df' = take_mask (notnull t) (index df)
    /\ forall c, assoc c (columns df')
                 = option_map (series_mask (notnull t)) (assoc c (columns df)).
Proof.
  unfold dropna_subset, getitem.
  destruct (assoc col (columns df)) as [t|]; simpl; [|discriminate].
  intros [= <-]. exists t. simpl. split; [reflexivity|]. split; [reflexivity|].
  intros c. apply assoc_map_snd.
Qed.

(** ** Feature engineering against the feature table *)

Lemma assoc_assoc_set {A : Type} (c k : string) (v : A) (l : list (string * A)) :
  assoc c (assoc_set k v l) = if String.eqb c k then Some v else assoc c l.
Proof.
  induction l as [|[k' w] l IH]; simpl.
  - reflexivity.
  - destruct (String.eqb_spec k k') as [->|Hk]; simpl.
    + destruct (String.eqb c k'); reflexivity.
    + rewrite IH. destruct (String.eqb_spec c k') as [->|Hc]; [|reflexivity].
      destruct (String.eqb_spec k' k) as [->|]; [congruence | reflexivity].
Qed.

Lemma assoc_setitem df k v c :
  assoc c (columns (setitem df k v))
  = if String.eqb c k then Some v else assoc c (columns df).
Proof. apply assoc_assoc_set. Qed.

Section Features.

Context {fl : Float64}.
Variable log1p : num -> num.

Lemma add_EC_OC_ratio_table df :
  add_EC_OC_ratio df = apply_feature df (ratio_feature "EC_OC_ratio" "EC" "OC").
Proof.
  unfold add_EC_OC_ratio, apply_feature, computable, feature_series,
    has_column, getitem. simpl.
  destruct (assoc "EC" (columns df)), (assoc "OC" (columns df)); reflexivity.
Qed.

Lemma add_Clay_Sand_ratio_table df :
  add_Clay_Sand_ratio df
  = apply_feature df (ratio_feature "Clay_Sand_ratio" "Clay" "Sand").
Proof.
  unfold add_Clay_Sand_ratio, apply_feature, computable, feature_series,
    has_column, getitem. simpl.
  destruct (assoc "Clay" (columns df)), (assoc "Sand" (columns df)); reflexivity.
Qed.

Lemma add_NPK_sum_table df : add_NPK_sum df = apply_feature df NPK_sum_feature.
Proof.
  unfold add_NPK_sum, apply_feature, computable, feature_series,
    has_column, getitem. simpl.
  destruct (assoc "N" (columns df)) as [n|], (assoc "P" (columns df)) as [p|],
    (assoc "K" (columns df)) as [k|]; simpl; try reflexivity.
  unfold has_value. rewrite andb_true_r, andb_assoc.
  destruct (_ && _ && _); [|reflexivity].
  destruct (series_binop num_add n p); reflexivity.
Qed.

Lemma add_log_CaCO3_table df :
  add_log_CaCO3 log1p df = apply_feature df (log_CaCO3_feature log1p).
Proof.
  unfold add_log_CaCO3, apply_feature, computable, feature_series,
    has_column, getitem. simpl.
  destruct (assoc "CaCO3" (columns df)); reflexivity.
Qed.

Lemma add_CN_ratio_table df :
  add_CN_ratio df = apply_feature df (ratio_feature "CN_ratio" "OC" "N").
Proof.
  unfold add_CN_ratio, apply_feature, computable, feature_series,
    has_column, getitem. simpl.
  destruct (assoc "OC" (columns df)), (assoc "N" (columns df)); reflexivity.
Qed.

Lemma add_Clay_OC_interaction_table df :
  add_Clay_OC_interaction df = apply_feature df Clay_OC_interaction_feature.
Proof.
  unfold add_Clay_OC_interaction, apply_feature, computable, feature_series,
    has_column, getitem. simpl.
  destruct (assoc "Clay" (columns df)), (assoc "OC" (columns df)); reflexivity.
Qed.

(** The block of the cell is the table applied row by row. *)
Lemma feature_engineering_table df :
  feature_engineering log1p df = for_each (engineered log1p) apply_feature df.
Proof.
  unfold feature_engineering, engineered. cbn [for_each].
  rewrite add_EC_OC_ratio_table.
  destruct (apply_feature df _) as [df1|]; [cbn [bind]|reflexivity].
  rewrite add_Clay_Sand_ratio_table.
  destruct (apply_feature df1 _) as [df2|]; [cbn [bind]|reflexivity].
  rewrite add_NPK_sum_table.
  destruct (apply_feature df2 _) as [df3|]; [cbn [bind]|reflexivity].
  rewrite add_log_CaCO3_table.
  destruct (apply_feature df3 _) as [df4|]; [cbn [bind]|reflexivity].
  rewrite add_CN_ratio_table.
  destruct (apply_feature df4 _) as [df5|]; [cbn [bind]|reflexivity].
  rewrite add_Clay_OC_interaction_table.
  destruct (apply_feature df5 _); reflexivity.
Qed.

End Features.

Lemma lookup_all_agree df df' cols :
  (forall c, In c cols -> assoc c (columns df') = assoc c (columns df)) ->
  lookup_all df' cols = lookup_all df cols.
Proof.
  induction cols as [|c cols IH]; intros H; simpl; [reflexivity|].
  rewrite H by (left; reflexivity).
  rewrite IH by (intros c' Hc'; apply H; right; exact Hc').
  reflexivity.
Qed.

Lemma lookup_all_In df cols ss :
  lookup_all df cols = Some ss ->
  length ss = length cols
  /\ forall s, In s ss -> exists c, In c cols /\ assoc c (columns df) = Some s.
Proof.
  revert ss. induction cols as [|c cols IH]; intros ss; simpl.
  - intros [= <-]. split; [reflexivity | intros s []].
  - destruct (assoc c (columns df)) as [s0|] eqn:E; [|discriminate].
    destruct (lookup_all df cols) as [ss0|]; [|discriminate].
    intros [= <-]. destruct (IH ss0 eq_refl) as [Hlen Hin]. split.
    + simpl. now rewrite Hlen.
    + intros s [<-|Hs]; [exists c; auto|].
      destruct (Hin s Hs) as [c' [Hc' Ha]]. exists c'. auto.
Qed.

Lemma apply_feature_frame df f df' :
  apply_feature df f = Ok df' ->
  index df' = index df
  /\ forall c, c <> f_name f -> assoc c (columns df') = assoc c (columns df).
Proof.
  unfold apply_feature. destruct (computable f df).
  - destruct (feature_series f df) as [s|]; simpl; [|discriminate].
    intros [= <-]. split; [reflexivity|]. intros c Hc.
    rewrite assoc_setitem. destruct (String.eqb_spec c (f_name f)); tauto.
  - intros [= <-]. auto.
Qed.

Lemma apply_feature_name df f df' :
  apply_feature df f = Ok df' ->
  if computable f df
  then exists s, feature_series f df = Ok s
                 /\ assoc (f_name f) (columns df') = Some s
  else df' = df.
Proof.
  unfold apply_feature. destruct (computable f df).
  - destruct (feature_series f df) as [s|]; simpl; [|discriminate].
    intros [= <-]. exists s. split; [reflexivity|].
    rewrite assoc_setitem. now rewrite String.eqb_refl.
  - now intros [= <-].
Qed.

Lemma agree_off_name df df' (f g : feature) :
  (forall c, c <> f_name f -> assoc c (columns df') = assoc c (columns df)) ->
  ~ In (f_name f) (f_sources g) ->
  computable g df' = computable g df /\ feature_series g df' = feature_series g df.
Proof.
  intros Hframe Hnot.
  assert (H : lookup_all df' (f_sources g) = lookup_all df (f_sources g)).
  { apply lookup_all_agree. intros c Hc. apply Hframe. intros ->. tauto. }
  unfold computable, feature_series. now rewrite H.
Qed.

Lemma feature_series_total df f :
  total_on_numeric f ->
  (forall c s, In c (f_sources f) -> assoc c (columns df) = Some s ->
               is_numeric s = true) ->
  computable f df = true -> exists s, feature_series f df = Ok s.
Proof.
  intros Htot Hnum. unfold computable, feature_series.
  destruct (lookup_all df (f_sources f)) as [ss|] eqn:E; [|discriminate].
  intros _. destruct (lookup_all_In _ _ _ E) as [Hlen Hin].
  apply Htot; [|exact Hlen].
  apply List.Forall_forall. intros s Hs.
  destruct (Hin s Hs) as [c [Hc Ha]]. eapply Hnum; eauto.
Qed.

Lemma for_each_features fs : forall df df',
  independent fs ->
  List.NoDup (map f_name fs) ->
  for_each fs apply_feature df = Ok df' ->
  index df' = index df
  /\ (forall c, ~ In c (map f_name fs) ->
                assoc c (columns df') = assoc c (columns df))
  /\ (forall f, In f fs -> feature_outcome df df' f).
Proof.
  induction fs as [|f fs IH]; intros df df' Hind Hnd Hrun.
  - simpl in Hrun. injection Hrun as <-. repeat split; auto. intros f [].
  - cbn [for_each] in Hrun. apply bind_Ok in Hrun as [df1 [Hdf1 Hrun]].
    destruct (apply_feature_frame _ _ _ Hdf1) as [Hidx1 Hframe1].
    pose proof (apply_feature_name _ _ _ Hdf1) as Hname1.
    inversion Hnd as [|? ? Hfresh Hnd']; subst.
    destruct (IH df1 df') as [Hidx [Hframe Hout]]; auto.
    { intros g h Hg Hh. apply Hind; right; assumption. }
    split; [congruence|]. split.
    + intros c Hc. rewrite Hframe by (intros Hin; apply Hc; right; exact Hin).
      apply Hframe1. intros ->. apply Hc. left; reflexivity.
    + intros g [<-|Hg].
      * unfold feature_outcome. rewrite (Hframe (f_name f) Hfresh).
        destruct (computable f df); [exact Hname1 | now subst].
      * specialize (Hout g Hg). unfold feature_outcome in *.
        destruct (agree_off_name df df1 f g Hframe1) as [Hc Hs].
        { apply Hind; [left; reflexivity | right; exact Hg]. }
        rewrite Hc, Hs in Hout.
        destruct (computable g df); [exact Hout|].
        rewrite Hout. apply Hframe1. intros Heq.
        apply Hfresh. rewrite <- Heq. apply in_map. exact Hg.
Qed.

(** On numeric sources no feature of the table raises. *)
Lemma for_each_features_total fs : forall df,
  independent fs ->
  (forall f, In f fs -> total_on_numeric f) ->
  numeric_sources_of fs df ->
  exists df', for_each fs apply_feature df = Ok df'.
Proof.
  induction fs as [|f fs IH]; intros df Hind Htot Hnum.
  - exists df. reflexivity.
  - assert (Hstep : exists df1, apply_feature df f = Ok df1).
    { unfold apply_feature. destruct (computable f df) eqn:Ec; [|eauto].
      destruct (feature_series_total df f) as [s Hs]; auto.
      - apply Htot. left; reflexivity.
      - intros c s Hc. apply (Hnum f); auto. left; reflexivity.
      - rewrite Hs. simpl. eauto. }
    destruct Hstep as [df1 Hdf1].
    destruct (apply_feature_frame _ _ _ Hdf1) as [_ Hframe1].
    destruct (IH df1) as [df' Hrun].
    + intros g h Hg Hh. apply Hind; right; assumption.
    + intros g Hg. apply Htot. right; exact Hg.
    + intros g c s Hg Hc Ha. apply (Hnum g c s); [right; exact Hg | exact Hc |].
      rewrite <- Ha. symmetry. apply Hframe1. intros ->.
      apply (Hind f g); [left; reflexivity | right; exact Hg | exact Hc].
    + exists df'. cbn [for_each]. rewrite Hdf1. exact Hrun.
Qed.

Section EngineeredTable.

Context {fl : Float64}.
Variable log1p : num -> num.

Lemma engineered_names_eq : map f_name (engineered log1p) = engineered_names.
Proof. reflexivity. Qed.

Lemma engineered_sources f c :
  In f (engineered log1p) -> In c (f_sources f) -> In c source_names.
Proof.
  unfold engineered. simpl.
  intros [<-|[<-|[<-|[<-|[<-|[<-|[]]]]]]]; simpl; tauto.
Qed.

Lemma engineered_independent : independent (engineered log1p).
Proof.
  intros f g Hf Hg Hin.
  pose proof (engineered_sources g _ Hg Hin) as Hsrc.
  apply (in_map f_name) in Hf. rewrite engineered_names_eq in Hf.
  revert Hf Hsrc. generalize (f_name f). intros c. unfold engineered_names, source_names.
  simpl. intuition (subst; discriminate).
Qed.

Lemma engineered_NoDup : List.NoDup (map f_name (engineered log1p)).
Proof.
  rewrite engineered_names_eq. unfold engineered_names.
  repeat (constructor; [simpl; intuition discriminate|]). constructor.
Qed.

Lemma engineered_total f : In f (engineered log1p) -> total_on_numeric f.
Proof.
  unfold engineered. simpl.
  intros [<-|[<-|[<-|[<-|[<-|[<-|[]]]]]]] ss Hnum Hlen; simpl in *;
    repeat (destruct ss as [|[?|?] ss]; try discriminate Hlen;
            repeat match goal with
                   | H : Forall _ (_ :: _) |- _ => inversion H; clear H; subst
                   end; try discriminate);
    simpl; eauto.
Qed.

Lemma numeric_sources_engineered df :
  numeric_sources df -> numeric_sources_of (engineered log1p) df.
Proof.
  intros H f c s Hf Hc. apply H. eapply engineered_sources; eauto.
Qed.

(** On a frame whose measurement columns are numeric the block returns. *)
Lemma feature_engineering_total df :
  numeric_sources df -> exists df', feature_engineering log1p df = Ok df'.
Proof.
  intros H. rewrite feature_engineering_table.
  apply for_each_features_total.
  - apply engineered_independent.
  - apply engineered_total.
  - now apply numeric_sources_engineered.
Qed.

Lemma feature_engineering_Ok df df' :
  feature_engineering log1p df = Ok df' ->
  index df' = index df
  /\ (forall c, ~ In c engineered_names ->
                assoc c (columns df') = assoc c (columns df))
  /\ (forall f, In f (engineered log1p) -> feature_outcome df df' f).
Proof.
  rewrite feature_engineering_table. intros H.
  apply for_each_features in H.
  - now rewrite engineered_names_eq in H.
  - apply engineered_independent.
  - apply engineered_NoDup.
Qed.

End EngineeredTable.

Section EngineeredProperties.

Context {fl : Float64}.
Variable log1p : num -> num.

Lemma computable_available f df :
  In f (engineered log1p) ->
  computable f df = true <-> sources_available f df.
Proof.
  unfold engineered. simpl.
  intros [<-|[<-|[<-|[<-|[<-|[<-|[]]]]]]];
    unfold computable, sources_available, has_column; simpl.
  all: try (split;
    [ intros H; split; [|discriminate];
      intros c [<-|[<-|[]]];
      repeat match goal with
             | H : context [assoc ?k ?l] |- _ => destruct (assoc k l); try discriminate
             end; reflexivity
    | intros [H _];
      pose proof (H _ (or_introl eq_refl)) as H1;
      pose proof (H _ (or_intror (or_introl eq_refl))) as H2;
      repeat match goal with
             | H : context [assoc ?k ?l] |- _ => destruct (assoc k l); try discriminate
             end; reflexivity ]).
  - (* NPK_sum *)
    destruct (assoc "N" (columns df)) as [n|] eqn:En;
      destruct (assoc "P" (columns df)) as [p|] eqn:Ep;
      destruct (assoc "K" (columns df)) as [k|] eqn:Ek;
      try (split; [discriminate|];
           intros [H _];
           pose proof (H "N" (or_introl eq_refl)) as H1;
           pose proof (H "P" (or_intror (or_introl eq_refl))) as H2;
           pose proof (H "K" (or_intror (or_intror (or_introl eq_refl)))) as H3;
           rewrite ?En, ?Ep, ?Ek in *; discriminate).
    unfold has_value. cbn [forallb]. rewrite !andb_true_iff, !Nat.ltb_lt. split.
    + intros [Hn [Hp [Hk _]]]. split.
      * intros c [<-|[<-|[<-|[]]]]; rewrite ?En, ?Ep, ?Ek; reflexivity.
      * intros _ c s [<-|[<-|[<-|[]]]] Hs; rewrite ?En, ?Ep, ?Ek in Hs;
          injection Hs as <-; assumption.
    + intros [_ H]. specialize (H eq_refl).
      repeat split; [apply (H "N") | apply (H "P") | apply (H "K")];
        simpl; auto.
  - (* log_CaCO3 *)
    split.
    + intros H. split; [|discriminate]. intros c [<-|[]].
      destruct (assoc "CaCO3" (columns df)); [reflexivity | discriminate].
    + intros [H _]. pose proof (H _ (or_introl eq_refl)) as H1.
      destruct (assoc "CaCO3" (columns df)); [reflexivity | discriminate].
Qed.

(** C4. On a table whose measurement columns are numeric the block raises
    nothing, and for each of the six features: when its named source columns
    are all in the table (for [NPK_sum], each with a value somewhere) its
    column holds the series computed from them; otherwise the feature is
    skipped, its name being looked up as before; the column is therefore in
    the resulting table exactly when the sources were available or a column
    of that name was there already. *)
Theorem C4_features_follow_sources (df : DataFrame) :
  numeric_sources df ->
  exists df',
    feature_engineering log1p df = Ok df'
    /\ forall f, In f (engineered log1p) ->
         (sources_available f df ->
          exists s, feature_series f df = Ok s
                    /\ assoc (f_name f) (columns df') = Some s)
         /\ (~ sources_available f df ->
             assoc (f_name f) (columns df') = assoc (f_name f) (columns df))
         /\ (has_column df' (f_name f) = true <->
             sources_available f df \/ has_column df (f_name f) = true).
Proof.
  intros Hnum. destruct (feature_engineering_total log1p df Hnum) as [df' Hrun].
  exists df'. split; [exact Hrun|].
  destruct (feature_engineering_Ok log1p df df' Hrun) as [_ [_ Hout]].
  intros f Hf. specialize (Hout f Hf). unfold feature_outcome in Hout.
  pose proof (computable_available f df Hf) as Hav.
  destruct (computable f df) eqn:Ec.
  - assert (Hyes : sources_available f df) by (apply Hav; reflexivity).
    destruct Hout as [s [Hs Hcol]]. split; [eauto|]. split; [tauto|].
    unfold has_column at 1. rewrite Hcol. tauto.
  - assert (Hno : ~ sources_available f df).
    { intros H. apply Hav in H. discriminate. }
    split; [tauto|]. split; [auto|].
    unfold has_column. rewrite Hout. tauto.
Qed.

End EngineeredProperties.

(** ** The preparation cell, statement by statement *)

Lemma map_result_Ok {A B : Type} (f : A -> result B) (l : list A) (l' : list B) :
  map_result f l = Ok l' -> Forall2 (fun x y => f x = Ok y) l l'.
Proof.
  revert l'. induction l as [|x l IH]; intros l'; simpl.
  - intros [= <-]. constructor.
  - intros H. apply bind_Ok in H as [y [Hy H]].
    apply bind_Ok in H as [ys [Hys H]]. injection H as <-.
    constructor; auto.
Qed.

Lemma getitems_Ok df cols X :
  getitems df cols = Ok X ->
  index X = index df
  /\ forall c, In c cols -> assoc c (columns X) = assoc c (columns df).
Proof.
  unfold getitems. intros H. apply bind_Ok in H as [cs [Hcs H]].
  injection H as <-. simpl. split; [reflexivity|].
  apply map_result_Ok in Hcs.
  induction Hcs as [|c [k s] cols cs Hc _ IH]; intros c0 Hin; [destruct Hin|].
  unfold getitem in Hc.
  destruct (assoc c (columns df)) as [s0|] eqn:E; simpl in Hc; [|discriminate].
  injection Hc as <- <-. simpl.
  destruct (String.eqb_spec c0 c) as [->|Hne]; [now rewrite E|].
  destruct Hin as [->|Hin]; [congruence | now apply IH].
Qed.

Lemma In_select_dtypes_number df c v :
  assoc c (columns df) = Some (NumCol v) -> In c (select_dtypes_number df).
Proof.
  unfold select_dtypes_number.
  induction (columns df) as [|[k s] l IH]; simpl; [discriminate|].
  destruct (String.eqb_spec c k) as [->|Hne].
  - intros [= ->]. simpl. left; reflexivity.
  - intros H. destruct (is_numeric s); simpl; auto.
Qed.

Lemma In_numeric_cols df c v :
  assoc c (columns df) = Some (NumCol v) -> c <> target -> In c (numeric_cols df).
Proof.
  intros H Hne. unfold numeric_cols. apply filter_In. split.
  - eapply In_select_dtypes_number; eauto.
  - destruct (String.eqb_spec c target); [contradiction | reflexivity].
Qed.

Lemma take_positions_In {A : Type} (pos : list nat) (l l' : list A) :
  take_positions pos l = Ok l' -> forall x, In x l' -> In x l.
Proof.
  unfold take_positions. intros H. apply map_result_Ok in H.
  induction H as [|p y pos l' Hp _ IH]; intros x; [intros []|].
  intros [<-|Hin]; [|now apply IH].
  destruct (nth_error l p) eqn:E; [|discriminate].
  injection Hp as <-. eapply nth_error_In; eauto.
Qed.

Lemma iloc_index df pos df' :
  iloc df pos = Ok df' -> forall i, In i (index df') -> In i (index df).
Proof.
  unfold iloc. intros H. apply bind_Ok in H as [idx [Hidx H]].
  apply bind_Ok in H as [cs [_ H]]. injection H as <-. simpl.
  eapply take_positions_In; eauto.
Qed.

Lemma count_true_zero_In (m : list bool) :
  count_true m = 0%nat <-> ~ In true m.
Proof.
  unfold count_true. induction m as [|[|] m IH]; simpl.
  - tauto.
  - split; [discriminate | intros H; exfalso; auto].
  - rewrite IH. intuition discriminate.
Qed.

Lemma series_take_isna pos s s' :
  series_take pos s = Ok s' -> forall b, In b (isna s') -> In b (isna s).
Proof.
  destruct s as [v|v]; simpl; intros H; apply bind_Ok in H as [v' [Hv H]];
    injection H as <-; simpl; intros b Hb;
    apply in_map_iff in Hb as [x [<- Hx]]; apply in_map_iff; exists x;
    (split; [reflexivity|]); eapply take_positions_In; eauto.
Qed.

Section PrepareFacts.

Context {fl : Float64}.
Variable log1p : num -> num.
Variable shuffle_split : nat -> result (list nat * list nat).

Lemma prepare_Ok df r :
  prepare log1p shuffle_split df = Ok r ->
  exists dropped,
    filtered_cat_cols df = Ok (p_filtered_cat_cols r)
    /\ dropna_subset df target = Ok dropped
    /\ feature_engineering log1p dropped = Ok (p_df r)
    /\ getitem (p_df r) target = Ok (p_y r)
    /\ p_numeric_cols r = numeric_cols (p_df r)
    /\ getitems (p_df r) (p_numeric_cols r ++ p_filtered_cat_cols r) = Ok (p_X r)
    /\ train_test_split shuffle_split (p_X r) (p_y r)
       = Ok (p_X_train r, p_X_test r, p_y_train r, p_y_test r).
Proof.
  unfold prepare. intros H.
  apply bind_Ok in H as [filtered [Hf H]].
  apply bind_Ok in H as [dropped [Hd H]].
  apply bind_Ok in H as [df' [He H]].
  apply bind_Ok in H as [y [Hy H]].
  apply bind_Ok in H as [X [HX H]].
  apply bind_Ok in H as [[[[Xtr Xte] ytr] yte] [Hs H]].
  injection H as <-. simpl. exists dropped. repeat split; assumption.
Qed.

Lemma train_test_split_Ok X y Xtr Xte ytr yte :
  train_test_split shuffle_split X y = Ok (Xtr, Xte, ytr, yte) ->
  (forall i, In i (index Xtr) -> In i (index X))
  /\ (forall i, In i (index Xte) -> In i (index X))
  /\ (forall b, In b (isna ytr) -> In b (isna y))
  /\ (forall b, In b (isna yte) -> In b (isna y)).
Proof.
  unfold train_test_split. intros H.
  apply bind_Ok in H as [split [_ H]].
  apply bind_Ok in H as [a [Ha H]].
  apply bind_Ok in H as [b [Hb H]].
  apply bind_Ok in H as [c [Hc H]].
  apply bind_Ok in H as [d [Hd H]].
  injection H as <- <- <- <-.
  repeat split.
  - eapply iloc_index; eauto.
  - eapply iloc_index; eauto.
  - eapply series_take_isna; eauto.
  - eapply series_take_isna; eauto.
Qed.

(** The frame after the cell, column by column, from the loaded table: the
    columns that are not engineered are the loaded ones restricted to the
    rows whose target is present. *)
Lemma prepare_columns df r :
  prepare log1p shuffle_split df = Ok r ->
  exists t,
    assoc target (columns df) = Some t
    /\ index (p_df r) = take_mask (notnull t) (index df)
    /\ index (p_X r) = take_mask (notnull t) (index df)
    /\ forall c, ~ In c engineered_names ->
         assoc c (columns (p_df r))
         = option_map (series_mask (notnull t)) (assoc c (columns df)).
Proof.
  intros H. destruct (prepare_Ok _ _ H) as [d [_ [Hd [He [_ [_ [HX _]]]]]]].
  destruct (dropna_subset_Ok _ _ _ Hd) as [t [Ht [Hidx Hcols]]].
  destruct (feature_engineering_Ok _ _ _ He) as [Hidx' [Hframe _]].
  destruct (getitems_Ok _ _ _ HX) as [HidxX _].
  exists t. split; [exact Ht|]. split; [congruence|]. split; [congruence|].
  intros c Hc. rewrite Hframe by exact Hc. apply Hcols.
Qed.

End PrepareFacts.

(** ** Rows without a target *)

Section PrepareProperties.

Context {fl : Float64}.
Variable log1p : num -> num.
Variable shuffle_split : nat -> result (list nat * list nat).

Lemma target_not_engineered : ~ In target engineered_names.
Proof. unfold target, engineered_names. simpl. intuition discriminate. Qed.

Lemma kept_label_present (t : Series) (n i : nat) :
  In i (take_mask (notnull t) (seq 0 n)) ->
  nth_error (isna t) i = Some true -> False.
Proof.
  intros Hin Hna. apply take_mask_In in Hin as [pos [Hm Hl]].
  apply nth_error_seq_label in Hl. simpl in Hl. subst pos.
  apply notnull_isna in Hna. congruence.
Qed.

(** C2. In a loaded table (rows labelled 0, 1, ...) a row whose [pH_H2O] is
    missing is no row of the feature matrix [X], nor of its train and test
    parts; the target vector [y] is the target column restricted to the same
    rows as [X], and neither [y] nor its two parts hold a missing value. *)
Theorem C2_missing_target_rows_dropped (df : DataFrame) (r : Prepared) :
  index df = seq 0 (len df) ->
  prepare log1p shuffle_split df = Ok r ->
  exists t,
    assoc target (columns df) = Some t
    /\ (forall i, nth_error (isna t) i = Some true ->
          ~ In i (index (p_X r))
          /\ ~ In i (index (p_X_train r))
          /\ ~ In i (index (p_X_test r)))
    /\ index (p_X r) = take_mask (notnull t) (index df)
    /\ p_y r = series_mask (notnull t) t
    /\ count_true (isna (p_y r)) = 0%nat
    /\ count_true (isna (p_y_train r)) = 0%nat
    /\ count_true (isna (p_y_test r)) = 0%nat.
Proof.
  intros Hrange Hrun.
  destruct (prepare_columns _ _ _ _ Hrun) as [t [Ht [_ [HidxX Hcols]]]].
  destruct (prepare_Ok _ _ _ _ Hrun) as [d [_ [_ [_ [Hy [_ [_ Hsplit]]]]]]].
  destruct (train_test_split_Ok _ _ _ _ _ _ _ Hsplit) as [Htr [Hte [Hytr Hyte]]].
  assert (Hyeq : p_y r = series_mask (notnull t) t).
  { unfold getitem in Hy. rewrite (Hcols target target_not_engineered), Ht in Hy.
    simpl in Hy. now injection Hy as <-. }
  assert (Hy0 : count_true (isna (p_y r)) = 0%nat).
  { rewrite Hyeq. apply isna_series_mask. }
  exists t. split; [exact Ht|]. split; [|split; [exact HidxX|]].
  - intros i Hna.
    assert (HX : ~ In i (index (p_X r))).
    { rewrite HidxX, Hrange. intros Hin. eapply kept_label_present; eauto. }
    repeat split; auto.
  - split; [exact Hyeq|]. split; [exact Hy0|].
    apply count_true_zero_In in Hy0.
    split; apply count_true_zero_In; auto.
Qed.

(** C10. The three denominator columns [OC], [Sand] and [N] come out of the
    feature-engineering block as they went in: in the frame after the block
    and in the feature matrix they hold the loaded values of the rows kept,
    zeros included; the 0.001 is only in the series that is divided by. *)
Theorem C10_denominators_unchanged (df : DataFrame) (r : Prepared)
    (c : string) (v : list num) :
  prepare log1p shuffle_split df = Ok r ->
  In c ["OC"; "Sand"; "N"] ->
  assoc c (columns df) = Some (NumCol v) ->
  exists t dropped,
    assoc target (columns df) = Some t
    /\ dropna_subset df target = Ok dropped
    /\ assoc c (columns dropped) = Some (NumCol (take_mask (notnull t) v))
    /\ assoc c (columns (p_df r)) = assoc c (columns dropped)
    /\ assoc c (columns (p_X r)) = assoc c (columns dropped)
    /\ series_replace zero epsilon (NumCol v) = NumCol (map guarded v).
Proof.
  intros Hrun Hc Hv.
  destruct (prepare_columns _ _ _ _ Hrun) as [t [Ht [_ [_ Hcols]]]].
  destruct (prepare_Ok _ _ _ _ Hrun) as [d [_ [Hd [_ [_ [Hnum [HX _]]]]]]].
  destruct (dropna_subset_Ok _ _ _ Hd) as [t' [Ht' [_ Hdcols]]].
  assert (t' = t) by congruence. subst t'.
  assert (Hne : ~ In c engineered_names).
  { unfold engineered_names. simpl in *. intuition (subst; discriminate). }
  assert (Hct : c <> target).
  { unfold target. simpl in Hc. intuition (subst; discriminate). }
  assert (Hdc : assoc c (columns d) = Some (NumCol (take_mask (notnull t) v))).
  { now rewrite Hdcols, Hv. }
  assert (Hpc : assoc c (columns (p_df r)) = assoc c (columns d)).
  { now rewrite (Hcols c Hne), Hdcols. }
  exists t, d. repeat split; auto.
  destruct (getitems_Ok _ _ _ HX) as [_ Hget].
  rewrite Hget; [exact Hpc|].
  apply in_or_app. left. rewrite Hnum.
  eapply In_numeric_cols; [|exact Hct]. rewrite Hpc. exact Hdc.
Qed.

End PrepareProperties.

Lemma C2_missing_target_rows_dropped_witness :
  exists r,
    prepare sample_log1p sample_split soil_table = Ok r
    /\ exists t,
      assoc target (columns soil_table) = Some t
      /\ (forall i, nth_error (isna t) i = Some true ->
            ~ In i (index (p_X r))
            /\ ~ In i (index (p_X_train r))
            /\ ~ In i (index (p_X_test r)))
      /\ index (p_X r) = take_mask (notnull t) (index soil_table)
      /\ p_y r = series_mask (notnull t) t
      /\ count_true (isna (p_y r)) = 0%nat
      /\ count_true (isna (p_y_train r)) = 0%nat
      /\ count_true (isna (p_y_test r)) = 0%nat.
Proof.
  eexists. split; [vm_compute; reflexivity|].
  apply (C2_missing_target_rows_dropped sample_log1p sample_split soil_table).
  - reflexivity.
  - vm_compute. reflexivity.
Defined.

Lemma C10_denominators_unchanged_witness :
  exists r,
    prepare sample_log1p sample_split soil_table = Ok r
    /\ exists t dropped,
      assoc target (columns soil_table) = Some t
      /\ dropna_subset soil_table target = Ok dropped
      /\ assoc "OC" (columns dropped)
         = Some (NumCol (take_mask (notnull t) [Fin 0; Fin 2; Fin 3; Fin 0; Fin 6]))
      /\ assoc "OC" (columns (p_df r)) = assoc "OC" (columns dropped)
      /\ assoc "OC" (columns (p_X r)) = assoc "OC" (columns dropped)
      /\ series_replace zero epsilon (NumCol [Fin 0; Fin 2; Fin 3; Fin 0; Fin 6])
         = NumCol (map guarded [Fin 0; Fin 2; Fin 3; Fin 0; Fin 6]).
Proof.
  eexists. split; [vm_compute; reflexivity|].
  apply (C10_denominators_unchanged sample_log1p sample_split soil_table _ "OC").
  - vm_compute. reflexivity.
  - simpl. tauto.
  - reflexivity.
Defined.

Example soil_table_OC_keeps_its_zero :
  exists r, prepare sample_log1p sample_split soil_table = Ok r
    /\ assoc "OC" (columns (p_X r)) = Some (NumCol [Fin 0; Fin 3; Fin 6])
    /\ assoc "EC_OC_ratio" (columns (p_X r))
       = Some (NumCol [Fin 12000; NaN; Fin (9 # 6)]).
Proof. eexists. split; [vm_compute; reflexivity|]. split; reflexivity. Qed.

(** ** Guarded ratios *)

Lemma nth_error_map2 {A B C : Type} (f : A -> B -> C) (a : list A) (b : list B)
    (j : nat) (x : A) (y : B) :
  nth_error a j = Some x -> nth_error b j = Some y ->
  nth_error (map2 f a b) j = Some (f x y).
Proof.
  revert b j. induction a as [|x0 a IH]; intros [|y0 b] [|j]; simpl;
    try discriminate.
  - now intros [= ->] [= ->].
  - apply IH.
Qed.

Lemma guarded_nonzero d : num_eqb (guarded d) zero = false.
Proof.
  unfold guarded. destruct (num_eqb d zero) eqn:E; [reflexivity | exact E].
Qed.

Lemma ratio_features_engineered {fl : Float64} log1p f :
  In f ratio_features -> In f (engineered log1p).
Proof. unfold ratio_features, engineered. simpl. tauto. Qed.

Lemma num_div_epsilon_isnan {fl : Float64} (x : num) :
  isnan (num_div x epsilon) = isnan x.
Proof.
  destruct x as [| | |q]; try reflexivity.
  unfold num_div, epsilon.
  change (Qeq_bool (1 # 1000) 0) with false. cbv iota.
  now apply float_div_number.
Qed.

(** C3, as the code has it.  For each of the three ratio features whose two
    source columns are numeric columns of the table, every row is the
    numerator divided by the guarded denominator, which is never zero: a
    zero denominator is replaced by 0.001 before the division.  In a row
    whose denominator is zero the ratio is the float64 quotient of the
    numerator by 0.001; it is missing exactly when the numerator is
    missing. *)
Theorem C3_zero_denominator_guarded {fl : Float64} (log1p : num -> num)
    (df df' : DataFrame) (f : feature) (a b : list num) :
  feature_engineering log1p df = Ok df' ->
  In f ratio_features ->
  lookup_all df (f_sources f) = Some [NumCol a; NumCol b] ->
  exists r,
    assoc (f_name f) (columns df') = Some (NumCol r)
    /\ forall j x d,
         nth_error a j = Some x -> nth_error b j = Some d ->
         nth_error r j = Some (num_div x (guarded d))
         /\ num_eqb (guarded d) zero = false
         /\ (num_eqb d zero = true ->
             guarded d = epsilon
             /\ (forall q, x = Fin q ->
                   nth_error r j = Some (float_div q (1 # 1000)))
             /\ exists y, nth_error r j = Some y /\ isnan y = isnan x).
Proof.
  intros Hrun Hf Hsrc.
  destruct (feature_engineering_Ok _ _ _ Hrun) as [_ [_ Hout]].
  specialize (Hout f (ratio_features_engineered log1p f Hf)).
  unfold feature_outcome, computable, feature_series in Hout.
  rewrite Hsrc in Hout.
  assert (Hval : f_ready f [NumCol a; NumCol b] = true
                 /\ f_value f [NumCol a; NumCol b]
                    = Ok (NumCol (map2 num_div a (map guarded b)))).
  { unfold ratio_features in Hf. simpl in Hf.
    destruct Hf as [<-|[<-|[<-|[]]]]; split; reflexivity. }
  destruct Hval as [Hready Hval]. rewrite Hready, Hval in Hout.
  destruct Hout as [s [Hs Hcol]]. injection Hs as <-.
  eexists. split; [exact Hcol|].
  intros j x d Hx Hd.
  assert (Hr : nth_error (map2 num_div a (map guarded b)) j
               = Some (num_div x (guarded d))).
  { apply nth_error_map2; [exact Hx|]. now rewrite nth_error_map, Hd. }
  split; [exact Hr|]. split; [apply guarded_nonzero|].
  intros Hzero.
  assert (Hg : guarded d = epsilon) by (unfold guarded; now rewrite Hzero).
  split; [exact Hg|]. split.
  - intros q ->. rewrite Hr, Hg. reflexivity.
  - eexists. split; [exact Hr|]. rewrite Hg. apply num_div_epsilon_isnan.
Qed.

Lemma C3_zero_denominator_guarded_witness :
  exists df',
    feature_engineering sample_log1p soil_table = Ok df'
    /\ exists r,
      assoc "EC_OC_ratio" (columns df') = Some (NumCol r)
      /\ forall j x d,
           nth_error [Fin 12; Fin 8; NaN; Fin 4; Fin 9] j = Some x ->
           nth_error [Fin 0; Fin 2; Fin 3; Fin 0; Fin 6] j = Some d ->
           nth_error r j = Some (num_div x (guarded d))
           /\ num_eqb (guarded d) zero = false
           /\ (num_eqb d zero = true ->
               guarded d = epsilon
               /\ (forall q, x = Fin q ->
                     nth_error r j = Some (float_div q (1 # 1000)))
               /\ exists y, nth_error r j = Some y /\ isnan y = isnan x).
Proof.
  eexists. split; [vm_compute; reflexivity|].
  apply (C3_zero_denominator_guarded sample_log1p soil_table _
           (ratio_feature "EC_OC_ratio" "EC" "OC")).
  - vm_compute. reflexivity.
  - simpl. tauto.
  - reflexivity.
Defined.

(** A row with a zero denominator and a missing numerator has a missing
    ratio: the guard keeps the divisor away from zero, not the quotient away
    from [NaN]. *)
Lemma C3_counterexample :
  exists df',
    feature_engineering sample_log1p lone_zero_OC = Ok df'
    /\ assoc "OC" (columns lone_zero_OC) = Some (NumCol [Fin 0])
    /\ assoc "EC_OC_ratio" (columns df') = Some (NumCol [NaN])
    /\ ~ zero_denominators_give_finite_ratios lone_zero_OC df'.
Proof.
  eexists. split; [vm_compute; reflexivity|].
  split; [reflexivity|]. split; [reflexivity|].
  intros H.
  destruct (H (ratio_feature "EC_OC_ratio" "EC" "OC") [NaN] [Fin 0] [NaN]
              0%nat (Fin 0)) as [q Hq];
    try reflexivity; [simpl; tauto | discriminate Hq].
Qed.

(** ** The filter runs before the rows are dropped *)

(** C9. The filtered categorical set of the cell is the filter evaluated on
    the loaded table, rows without a target included; and there is a table
    on which the cell keeps a set of columns that differs from the one the
    filter gives once those rows are dropped. *)
Theorem C9_filter_sees_dropped_rows :
  (forall (fl : Float64) log1p shuffle_split df r,
      prepare log1p shuffle_split df = Ok r ->
      filtered_cat_cols df = Ok (p_filtered_cat_cols r))
  /\ exists df r dropped kept',
       prepare sample_log1p sample_split df = Ok r
       /\ dropna_subset df target = Ok dropped
       /\ filtered_cat_cols dropped = Ok kept'
       /\ p_filtered_cat_cols r <> kept'.
Proof.
  split.
  - intros fl log1p shuffle_split df r H.
    destruct (prepare_Ok _ _ _ _ H) as [d [Hf _]]. exact Hf.
  - exists soil_table. eexists. eexists. eexists.
    split; [vm_compute; reflexivity|].
    split; [vm_compute; reflexivity|].
    split; [vm_compute; reflexivity|].
    simpl. discriminate.
Qed.

Lemma C9_filter_sees_dropped_rows_witness :
  exists r,
    prepare sample_log1p sample_split soil_table = Ok r
    /\ filtered_cat_cols soil_table = Ok (p_filtered_cat_cols r).
Proof.
  eexists. split; [vm_compute; reflexivity|].
  apply (proj1 C9_filter_sees_dropped_rows sample_float64 sample_log1p
           sample_split soil_table).
  vm_compute. reflexivity.
Defined.

Example soil_table_filter_before_and_after :
  filtered_cat_cols soil_table = Ok []
  /\ (d <- dropna_subset soil_table target ;; filtered_cat_cols d) = Ok ["Depth"].
Proof. split; vm_compute; reflexivity. Qed.

Lemma C4_features_follow_sources_witness :
  exists df',
    feature_engineering sample_log1p soil_table = Ok df'
    /\ forall f, In f (engineered sample_log1p) ->
         (sources_available f soil_table ->
          exists s, feature_series f soil_table = Ok s
                    /\ assoc (f_name f) (columns df') = Some s)
         /\ (~ sources_available f soil_table ->
             assoc (f_name f) (columns df')
             = assoc (f_name f) (columns soil_table))
         /\ (has_column df' (f_name f) = true <->
             sources_available f soil_table
             \/ has_column soil_table (f_name f) = true).
Proof.
  apply (C4_features_follow_sources sample_log1p soil_table).
  intros c s Hc Hs. unfold source_names in Hc. simpl in Hc.
  repeat (destruct Hc as [<-|Hc];
          [vm_compute in Hs; try discriminate; now injection Hs as <-|]).
  destruct Hc.
Defined.

Example soil_table_engineered_columns :
  exists df',
    feature_engineering sample_log1p soil_table = Ok df'
    /\ map (has_column df') engineered_names
       = [true; false; false; false; true; true].
Proof. eexists. split; vm_compute; reflexivity. Qed.

(** ** The model builders *)

Lemma skipn_nth_error {A : Type} (l : list A) (k : nat) (x : A) :
  nth_error l k = Some x -> skipn k l = x :: skipn (S k) l.
Proof.
  revert k. induction l as [|y l IH]; intros [|k]; simpl; try discriminate.
  - now intros [= ->].
  - intros H. now rewrite (IH k H).
Qed.

Section BuilderFacts.

Context {keras : Keras}.

Lemma bind_assoc {A B C : Type} (c : result A) (k : A -> result B)
    (k' : B -> result C) :
  (y <- (x <- c ;; k x) ;; k' y) = (x <- c ;; y <- k x ;; k' y).
Proof. destruct c; reflexivity. Qed.

Lemma bind_ret {A : Type} (c : result A) : (x <- c ;; Ok x) = c.
Proof. destruct c; reflexivity. Qed.

Lemma add_all_app (ls ls' : list layer) : forall m : Model,
  add_all m (ls ++ ls') = (m' <- add_all m ls ;; add_all m' ls').
Proof.
  unfold add_all. induction ls as [|l ls IH]; intros m; cbn [app for_each bind].
  - reflexivity.
  - rewrite bind_assoc. destruct (add m l) as [m1|e]; cbn [bind]; [apply IH|].
    reflexivity.
Qed.

(** Adding layers one after the other stops at the first one that Keras
    refuses, with its exception; otherwise the layers are appended. *)
Lemma add_all_outcome (ls : list layer) : forall m : Model,
  add_all m ls
  = match first_refusal (layers m) ls with
    | None => Ok {| layers := layers m ++ ls; compiled := compiled m |}
    | Some e => Raise e
    end.
Proof.
  unfold add_all. induction ls as [|l ls IH]; intros m; cbn [for_each first_refusal].
  - rewrite app_nil_r. now destruct m.
  - unfold add at 1. destruct (layer_check (layers m) l) as [e|]; cbn [bind].
    + reflexivity.
    + rewrite IH. cbn [layers compiled]. rewrite <- app_assoc. reflexivity.
Qed.

Lemma add_hidden_block_rate (ds : list Q) (activation : string) (l2_reg : Q)
    (m : Model) (i : nat) (n : Z) (d : Q) :
  nth_error ds i = Some d ->
  add_hidden_block ds activation l2_reg m (i, n)
  = add_all m (hidden_block activation l2_reg n d).
Proof.
  intros Hd. unfold add_hidden_block, add_all, hidden_block, list_index.
  cbn [fst snd for_each]. rewrite Hd.
  destruct (add m _) as [m1|e]; cbn [bind]; [|reflexivity].
  destruct (add m1 _) as [m2|e]; cbn [bind]; [|reflexivity].
  now rewrite bind_ret.
Qed.

(** Without a rate for the layer, its dense and normalization layers are
    still added before the lookup fails. *)
Lemma add_hidden_block_no_rate (ds : list Q) (activation : string) (l2_reg : Q)
    (m : Model) (i : nat) (n : Z) :
  nth_error ds i = None ->
  add_hidden_block ds activation l2_reg m (i, n)
  = (_ <- add_all m [Dense n (Some activation) (Some (l2 l2_reg)) "he_normal";
                     BatchNormalization] ;;
     Raise IndexError).
Proof.
  intros Hd. unfold add_hidden_block, add_all, list_index.
  cbn [fst snd for_each]. rewrite Hd.
  destruct (add m _) as [m1|e]; cbn [bind]; [|reflexivity].
  destruct (add m1 _) as [m2|e]; cbn [bind]; reflexivity.
Qed.

(** The loop over the hidden layers adds one block per width, with the
    dropout rate of the same position. *)
Lemma hidden_loop (activation : string) (l2_reg : Q) (ds : list Q) :
  forall (ns : list Z) (k : nat) (m : Model),
    (k + length ns <= length ds)%nat ->
    for_each (combine (seq k (length ns)) ns)
             (add_hidden_block ds activation l2_reg) m
    = add_all m (flat_map (fun nd => hidden_block activation l2_reg
                                       (fst nd) (snd nd))
                          (combine ns (skipn k ds))).
Proof.
  induction ns as [|n ns IH]; intros k m Hlen.
  - reflexivity.
  - cbn [length] in Hlen. cbn [length seq combine for_each].
    destruct (nth_error ds k) as [d|] eqn:Hd.
    2:{ apply nth_error_None in Hd. lia. }
    rewrite (add_hidden_block_rate _ _ _ _ _ _ _ Hd).
    rewrite (skipn_nth_error _ _ _ Hd). cbn [combine flat_map fst snd].
    rewrite add_all_app.
    destruct (add_all m _) as [m1|e]; cbn [bind]; [|reflexivity].
    apply IH. lia.
Qed.

(** The dense builder adds its input layer and the dense stack, one layer
    after the other, and compiles what it has built. *)
Lemma create_model_add_all input_dim ns ds activation learning_rate l2_reg :
  (length ns <= length ds)%nat ->
  create_model input_dim ns ds activation learning_rate l2_reg
  = (model <- add_all Sequential
                (Input [input_dim] :: dense_stack activation l2_reg ns ds) ;;
     Ok (compile model (Adam learning_rate) "mse" ["mae"])).
Proof.
  intros Hlen. unfold create_model, enumerate, dense_stack.
  unfold add_all at 1. cbn [for_each].
  change (for_each ?l add ?m) with (add_all m l).
  destruct (add Sequential _) as [m0|e]; cbn [bind]; [|reflexivity].
  rewrite hidden_loop by (simpl; lia). cbn [skipn].
  rewrite add_all_app.
  destruct (add_all m0 _) as [m1|e]; cbn [bind]; [|reflexivity].
  unfold add_all. cbn [for_each].
  destruct (add m1 _) as [m2|e]; reflexivity.
Qed.

Lemma create_cnn_model_add_all input_dim ns ds activation learning_rate l2_reg
    cnn_filters kernel_size :
  (length ns <= length ds)%nat ->
  create_cnn_model input_dim ns ds activation learning_rate l2_reg
                   cnn_filters kernel_size
  = (model <- add_all Sequential
                ([Reshape [input_dim; 1%Z] [input_dim];
                  Conv1D cnn_filters kernel_size "same" (Some activation);
                  BatchNormalization;
                  Conv1D (cnn_filters * 2) kernel_size "same" (Some activation);
                  BatchNormalization;
                  GlobalAveragePooling1D]
                 ++ dense_stack activation l2_reg ns ds) ;;
     Ok (compile model (Adam learning_rate) "mse" ["mae"])).
Proof.
  intros Hlen. unfold create_cnn_model, enumerate, dense_stack.
  unfold add_all at 1. cbn [for_each app].
  change (for_each ?l add ?m) with (add_all m l).
  destruct (add Sequential _) as [m0|e]; cbn [bind]; [|reflexivity].
  destruct (add m0 _) as [m1|e]; cbn [bind]; [|reflexivity].
  destruct (add m1 _) as [m2|e]; cbn [bind]; [|reflexivity].
  destruct (add m2 _) as [m3|e]; cbn [bind]; [|reflexivity].
  destruct (add m3 _) as [m4|e]; cbn [bind]; [|reflexivity].
  destruct (add m4 _) as [m5|e]; cbn [bind]; [|reflexivity].
  rewrite hidden_loop by (simpl; lia). cbn [skipn].
  rewrite add_all_app.
  destruct (add_all m5 _) as [m6|e]; cbn [bind]; [|reflexivity].
  unfold add_all. cbn [for_each].
  destruct (add m6 _) as [m7|e]; reflexivity.
Qed.

(** The model a builder returns when Keras takes every layer. *)
Lemma add_all_accepted (ls : list layer) (o : optimizer) :
  accepted ls = true ->
  (model <- add_all Sequential ls ;; Ok (compile model o "mse" ["mae"]))
  = Ok {| layers := ls;
          compiled := Some {| c_optimizer := o; c_loss := "mse";
                              c_metrics := ["mae"] |} |}.
Proof.
  unfold accepted. intros Hacc. rewrite add_all_outcome. cbn [Sequential layers].
  destruct (first_refusal [] ls); [discriminate|]. reflexivity.
Qed.

Lemma create_model_layers input_dim ns ds activation learning_rate l2_reg :
  (length ns <= length ds)%nat ->
  accepted (Input [input_dim] :: dense_stack activation l2_reg ns ds) = true ->
  create_model input_dim ns ds activation learning_rate l2_reg
  = Ok {| layers := Input [input_dim] :: dense_stack activation l2_reg ns ds;
          compiled := Some {| c_optimizer := Adam learning_rate;
                              c_loss := "mse"; c_metrics := ["mae"] |} |}.
Proof.
  intros Hlen Hacc. rewrite create_model_add_all by exact Hlen.
  now apply add_all_accepted.
Qed.

(** What the dense builder returns, it has built from the input layer and
    the dense stack. *)
Lemma create_model_Ok input_dim ns ds activation learning_rate l2_reg model :
  (length ns <= length ds)%nat ->
  create_model input_dim ns ds activation learning_rate l2_reg = Ok model ->
  model = {| layers := Input [input_dim] :: dense_stack activation l2_reg ns ds;
             compiled := Some {| c_optimizer := Adam learning_rate;
                                 c_loss := "mse"; c_metrics := ["mae"] |} |}.
Proof.
  intros Hlen. rewrite create_model_add_all by exact Hlen.
  rewrite add_all_outcome. cbn [Sequential layers compiled].
  destruct (first_refusal [] _); cbn [bind]; [discriminate|].
  now intros [= <-].
Qed.

Lemma In_dense_stack activation l2_reg ns ds units act reg init :
  In (Dense units (Some act) reg init) (dense_stack activation l2_reg ns ds) ->
  In units ns /\ act = activation /\ reg = Some (l2 l2_reg) /\ init = "he_normal".
Proof.
  unfold dense_stack. rewrite in_app_iff, in_flat_map.
  intros [[[n d] [Hnd Hin]]|[H|[]]]; [|discriminate].
  simpl in Hin. destruct Hin as [H|[H|[H|[]]]]; try discriminate.
  injection H as -> -> <- <-. apply in_combine_l in Hnd. auto.
Qed.

Lemma dense_stack_no_conv activation l2_reg ns ds :
  List.filter is_Conv1D (dense_stack activation l2_reg ns ds) = [].
Proof.
  unfold dense_stack.
  induction (combine ns ds) as [|[n d] l IH]; simpl; [reflexivity | exact IH].
Qed.

(** C6, as the code has it.  With at least as many dropout rates as widths,
    and layers that Keras takes, the dense builder returns a model whose
    layers are, after the input, one block per hidden layer (a dense layer
    of the configured width and activation, a normalization layer, a dropout
    layer of the configured rate) and a last dense layer of one unit without
    activation; every hidden dense layer carries the L2 penalty of the
    configured strength and the initializer he_normal, whatever the
    activation; he_normal is the scheme that goes with relu, the default
    activation. *)
Theorem C6_dense_model (input_dim : Z) (neurons_layers : list Z)
    (dropout_rates : list Q) (activation : string) (learning_rate l2_reg : Q) :
  (length neurons_layers <= length dropout_rates)%nat ->
  accepted (Input [input_dim]
            :: dense_stack activation l2_reg neurons_layers dropout_rates)
  = true ->
  exists model,
    create_model input_dim neurons_layers dropout_rates activation
                 learning_rate l2_reg = Ok model
    /\ layers model
       = Input [input_dim]
         :: dense_stack activation l2_reg neurons_layers dropout_rates
    /\ length (layers model) = (3 * length neurons_layers + 2)%nat
    /\ (forall units act reg init,
          In (Dense units (Some act) reg init) (layers model) ->
          In units neurons_layers /\ act = activation
          /\ reg = Some (l2 l2_reg) /\ init = "he_normal")
    /\ matched_initializer default_activation = "he_normal".
Proof.
  intros Hlen Hacc. eexists. split; [now apply create_model_layers|].
  cbn [layers]. split; [reflexivity|]. split; [|split; [|reflexivity]].
  - unfold dense_stack. cbn [length]. rewrite length_app. cbn [length].
    assert (H : forall l : list (Z * Q),
               length (flat_map (fun nd => hidden_block activation l2_reg
                                             (fst nd) (snd nd)) l)
               = (3 * length l)%nat).
    { induction l as [|x l IH]; simpl; [reflexivity | rewrite IH; lia]. }
    rewrite H, length_combine. lia.
  - intros units act reg init [H|H]; [discriminate|].
    eapply In_dense_stack; eauto.
Qed.

(** C7. With at least as many dropout rates as widths, a positive filter
    count and layers that Keras takes, the convolutional builder returns a
    model whose layers are: the reshape of the flat vector of length N to
    (N, 1); a 1D convolution and a normalization; a second 1D convolution
    and a normalization; the global average pooling; then the dense stack,
    ending in the dense layer of one unit without activation.  The two
    convolutions are the only ones, and the second has twice the filters of
    the first, which is more.  The layers after the pooling are the ones
    the dense builder puts after its input layer for the same
    configuration. *)
Theorem C7_cnn_model (input_dim : Z) (neurons_layers : list Z)
    (dropout_rates : list Q) (activation : string) (learning_rate l2_reg : Q)
    (cnn_filters kernel_size : Z) :
  (length neurons_layers <= length dropout_rates)%nat ->
  (0 < cnn_filters)%Z ->
  accepted ([Reshape [input_dim; 1%Z] [input_dim];
             Conv1D cnn_filters kernel_size "same" (Some activation);
             BatchNormalization;
             Conv1D (cnn_filters * 2) kernel_size "same" (Some activation);
             BatchNormalization;
             GlobalAveragePooling1D]
            ++ dense_stack activation l2_reg neurons_layers dropout_rates)
  = true ->
  exists model,
    create_cnn_model input_dim neurons_layers dropout_rates activation
                     learning_rate l2_reg cnn_filters kernel_size = Ok model
    /\ layers model
       = [Reshape [input_dim; 1%Z] [input_dim];
          Conv1D cnn_filters kernel_size "same" (Some activation);
          BatchNormalization;
          Conv1D (cnn_filters * 2) kernel_size "same" (Some activation);
          BatchNormalization;
          GlobalAveragePooling1D]
         ++ dense_stack activation l2_reg neurons_layers dropout_rates
    /\ List.filter is_Conv1D (layers model)
       = [Conv1D cnn_filters kernel_size "same" (Some activation);
          Conv1D (cnn_filters * 2) kernel_size "same" (Some activation)]
    /\ (cnn_filters < cnn_filters * 2)%Z
    /\ forall dense,
         create_model input_dim neurons_layers dropout_rates activation
                      learning_rate l2_reg = Ok dense ->
         skipn 6 (layers model) = skipn 1 (layers dense).
Proof.
  intros Hlen Hpos Hacc. eexists. split.
  { rewrite create_cnn_model_add_all by exact Hlen.
    now apply add_all_accepted. }
  cbn [layers]. split; [reflexivity|]. split.
  { rewrite filter_app, dense_stack_no_conv. reflexivity. }
  split; [lia|].
  intros dense Hdense.
  apply create_model_Ok in Hdense; [|exact Hlen]. subst dense. reflexivity.
Qed.

End BuilderFacts.

Lemma C6_dense_model_witness :
  exists model,
    create_model 10 default_neurons_layers default_dropout_rates "elu"
                 (1 # 1000) (1 # 1000) = Ok model
    /\ layers model
       = Input [10%Z]
         :: dense_stack "elu" (1 # 1000) default_neurons_layers
                        default_dropout_rates
    /\ length (layers model) = (3 * length default_neurons_layers + 2)%nat
    /\ (forall units act reg init,
          In (Dense units (Some act) reg init) (layers model) ->
          In units default_neurons_layers /\ act = "elu"
          /\ reg = Some (l2 (1 # 1000)) /\ init = "he_normal")
    /\ matched_initializer default_activation = "he_normal".
Proof.
  apply (C6_dense_model 10 default_neurons_layers default_dropout_rates "elu").
  - simpl. lia.
  - vm_compute. reflexivity.
Defined.

(** With the activation selu, one of the three the search draws from, the
    hidden layer is still initialized with he_normal, while the scheme that
    goes with selu is lecun_normal. *)
Lemma C6_counterexample :
  exists model,
    create_model 10 [128%Z] [4 # 10] "selu" (1 # 1000) (1 # 1000) = Ok model
    /\ layers model
       = [Input [10%Z];
          Dense 128 (Some "selu") (Some (l2 (1 # 1000))) "he_normal";
          BatchNormalization;
          Dropout (4 # 10);
          Dense 1 None None "glorot_uniform"]
    /\ matched_initializer "selu" = "lecun_normal"
    /\ ~ hidden_layers_matched "selu" model.
Proof.
  eexists. split; [reflexivity|]. split; [reflexivity|]. split; [reflexivity|].
  intros H.
  specialize (H 128%Z "selu" (Some (l2 (1 # 1000))) "he_normal").
  cbn in H. discriminate H. tauto.
Qed.

(** A dropout rate outside [0, 1] is refused by the stand-in for Keras, as
    Keras refuses it, and a missing rate stops the builder after the dense
    and normalization layers of its block. *)
Example create_model_refused_rate :
  create_model 10 [8%Z] [3 # 2] "relu" (1 # 1000) (1 # 1000) = Raise ValueError
  /\ create_model 10 [128; 64]%Z [4 # 10] "relu" (1 # 1000) (1 # 1000)
     = Raise IndexError
  /\ create_cnn_model 10 [8%Z] [1 # 2] "relu" (1 # 1000) (1 # 1000) 0 3
     = Raise ValueError.
Proof. repeat split; reflexivity. Qed.

Lemma C7_cnn_model_witness :
  exists model,
    create_cnn_model 10 [256; 128; 64; 32]%Z [5 # 10; 4 # 10; 3 # 10; 2 # 10]
                     "elu" (5 # 10000) (5 # 10000) 32 3 = Ok model
    /\ layers model
       = [Reshape [10%Z; 1%Z] [10%Z];
          Conv1D 32 3 "same" (Some "elu");
          BatchNormalization;
          Conv1D (32 * 2) 3 "same" (Some "elu");
          BatchNormalization;
          GlobalAveragePooling1D]
         ++ dense_stack "elu" (5 # 10000) [256; 128; 64; 32]%Z
                        [5 # 10; 4 # 10; 3 # 10; 2 # 10]
    /\ List.filter is_Conv1D (layers model)
       = [Conv1D 32 3 "same" (Some "elu");
          Conv1D (32 * 2) 3 "same" (Some "elu")]
    /\ (32 < 32 * 2)%Z
    /\ forall dense,
         create_model 10 [256; 128; 64; 32]%Z [5 # 10; 4 # 10; 3 # 10; 2 # 10]
                      "elu" (5 # 10000) (5 # 10000) = Ok dense ->
         skipn 6 (layers model) = skipn 1 (layers dense).
Proof.
  apply (C7_cnn_model 10 [256; 128; 64; 32]%Z [5 # 10; 4 # 10; 3 # 10; 2 # 10]
           "elu" (5 # 10000) (5 # 10000) 32 3).
  - simpl. lia.
  - lia.
  - vm_compute. reflexivity.
Defined.

(** ** The search *)

Lemma Qltb_false a b : Qltb a b = false <-> b <= a.
Proof.
  unfold Qltb. rewrite negb_false_iff. apply Qle_bool_iff.
Qed.

Lemma Qltb_true a b : Qltb a b = true <-> a < b.
Proof.
  unfold Qltb. rewrite negb_true_iff, <- not_true_iff_false, Qle_bool_iff.
  split; [apply Qnot_le_lt | apply Qlt_not_le].
Qed.

(** The running minimum of a fold that keeps the first of the least keys:
    it is one of the values seen and its key is below all of theirs. *)
Lemma fold_min_spec {A : Type} (key : A -> Q) (rest : list A) : forall x,
  let m := fold_left (fun m y => if Qltb (key y) (key m) then y else m) rest x in
  In m (x :: rest) /\ forall y, In y (x :: rest) -> key m <= key y.
Proof.
  induction rest as [|z rest IH]; intros x; cbn [fold_left].
  - split; [left; reflexivity|]. intros y [<-|[]]. apply Qle_refl.
  - destruct (Qltb (key z) (key x)) eqn:E.
    + destruct (IH z) as [Hin Hle]. split.
      * destruct Hin as [<-|Hin]; [right; left; reflexivity | right; right; exact Hin].
      * intros y [<-|Hy]; [|now apply Hle].
        apply Qltb_true in E. apply Qle_trans with (key z).
        -- apply Hle. left; reflexivity.
        -- now apply Qlt_le_weak.
    + destruct (IH x) as [Hin Hle]. split.
      * destruct Hin as [<-|Hin]; [left; reflexivity | right; right; exact Hin].
      * intros y [<-|[<-|Hy]].
        -- apply Hle. left; reflexivity.
        -- apply Qltb_false in E. apply Qle_trans with (key x); [|exact E].
           apply Hle. left; reflexivity.
        -- apply Hle. right; exact Hy.
Qed.

Lemma py_min_spec (l : list Q) (m : Q) :
  py_min l = Ok m -> In m l /\ forall y, In y l -> m <= y.
Proof.
  destruct l as [|x rest]; simpl; [discriminate|].
  intros [= <-]. apply (fold_min_spec (fun q => q)).
Qed.

Lemma py_min_nonempty (l : list Q) : l <> [] -> exists m, py_min l = Ok m.
Proof. destruct l; [congruence | simpl; eauto]. Qed.

Section SearchFacts.

Context {St : Type} {sampler : Sampler St} {keras : Keras}.
Variable fit : Model -> Z -> Z -> History.
Variable input_dim : Z.

(** Keras runs at least one epoch: the history of a run is not empty. *)
Hypothesis fit_runs : forall model batch_size,
  h_val_mae (fit model batch_size 100) <> [].

(** Keras takes the layers of every configuration of the search space. *)
Hypothesis search_space_accepted : forall ns ds activation l2_reg,
  in_search_space ns ds activation l2_reg ->
  accepted (Input [input_dim] :: dense_stack activation l2_reg ns ds) = true.

Lemma suggest_int_fresh name low high (t : @Trial St) :
  assoc name (t_params t) = None -> (low <= high)%Z ->
  exists z s',
    suggest_int name low high t
    = Ok (z, record t s' name (PInt z) (IntDistribution low high))
    /\ (low <= z <= high)%Z.
Proof.
  intros Hfresh Hle. unfold suggest_int. rewrite Hfresh.
  destruct (Z.ltb_spec high low) as [Hlt|_]; [lia|].
  eexists. eexists. split; [reflexivity|]. now apply sample_int_range.
Qed.

Lemma suggest_float_fresh name low high log (t : @Trial St) :
  assoc name (t_params t) = None -> low <= high ->
  exists q s',
    suggest_float name low high log t
    = Ok (q, record t s' name (PFloat q) (FloatDistribution low high log))
    /\ low <= q /\ q <= high.
Proof.
  intros Hfresh Hle. unfold suggest_float. rewrite Hfresh.
  apply Qltb_false in Hle. rewrite Hle.
  eexists. eexists. split; [reflexivity|]. apply sample_float_range.
  now apply Qltb_false.
Qed.

Lemma suggest_categorical_fresh {A : Type} `{PyValue A} name (c : A) cs
    (t : @Trial St) :
  assoc name (t_params t) = None ->
  exists a s',
    suggest_categorical name (c :: cs) t
    = Ok (a, record t s' name (to_param a)
                    (CategoricalDistribution (map to_param (c :: cs))))
    /\ In a (c :: cs).
Proof.
  intros Hfresh. unfold suggest_categorical. rewrite Hfresh.
  eexists. eexists. split; [reflexivity|]. apply sample_choice_In.
Qed.

(** One suggestion of the objective under a name not used before: the value
    drawn and the next sampler state become variables with their range. *)
Ltac step_int :=
  match goal with
  | |- context [suggest_int ?name ?lo ?hi ?t] =>
      let z := fresh "units" in
      let s' := fresh "s" in
      let Heq := fresh "Heq" in
      let Hr := fresh "Hunits" in
      destruct (suggest_int_fresh name lo hi t) as (z & s' & Heq & Hr);
      [reflexivity | lia | rewrite Heq; clear Heq; cbn [bind]; cbv beta iota]
  end.

Ltac step_float :=
  match goal with
  | |- context [suggest_float ?name ?lo ?hi ?log ?t] =>
      let q := fresh "rate" in
      let s' := fresh "s" in
      let Heq := fresh "Heq" in
      let Hr := fresh "Hrate" in
      destruct (suggest_float_fresh name lo hi log t) as (q & s' & Heq & Hr);
      [reflexivity | apply Qle_bool_iff; reflexivity
      | rewrite Heq; clear Heq; cbn [bind]; cbv beta iota]
  end.

Ltac step_cat :=
  match goal with
  | |- context [suggest_categorical ?name (?c :: ?cs) ?t] =>
      let a := fresh "choice" in
      let s' := fresh "s" in
      let Heq := fresh "Heq" in
      let Hr := fresh "Hchoice" in
      destruct (suggest_categorical_fresh name c cs t) as (a & s' & Heq & Hr);
      [reflexivity | rewrite Heq; clear Heq; cbn [bind]; cbv beta iota]
  end.

(** The end of the objective once every suggestion is a variable: the model
    is built, the run has a least validation MAE, and the trial is read
    back name by name. *)
Ltac in_space :=
  apply search_space_accepted; unfold in_search_space; cbn [app length];
  repeat split; try lia; try assumption;
  try (repeat (apply Forall_cons; [eassumption|]); apply Forall_nil);
  match goal with
  | H : ?a <= ?x /\ _ |- ?a <= ?x => apply H
  | H : _ /\ ?x <= ?b |- ?x <= ?b => apply H
  end.

Ltac finish_objective n :=
  rewrite create_model_layers by first [simpl; lia | in_space]; cbn [bind];
  match goal with
  | |- context [py_min ?h] =>
      let m := fresh "m" in
      let Hm := fresh "Hm" in
      destruct (py_min_nonempty h) as [m Hm]; [apply fit_runs|];
      rewrite Hm; cbn [bind];
      eexists; eexists; split; [reflexivity|];
      split; [reflexivity|]; split;
      [ unfold in_declared_ranges, freeze; cbn [params distributions];
        exists n;
        match goal with
        | Ha : In ?act ["relu"; "elu"; "selu"],
          Hb : In ?batch [16%Z; 32%Z; 64%Z; 128%Z],
          Hlr : 1 # 100000 <= ?lr /\ ?lr <= 1 # 100,
          Hl2 : 1 # 1000000 <= ?l2r /\ ?l2r <= 1 # 1000 |- _ =>
            exists act, lr, l2r, batch;
            split; [reflexivity|]; split; [lia|]; split;
            [ intros i Hi;
              do 5 (try (destruct i as [|i];
                         [eexists; eexists;
                          split; [reflexivity|]; split; [eassumption|];
                          split; [reflexivity|]; eassumption|]));
              exfalso; lia
            | split; [reflexivity|]; split; [exact Ha|];
              split; [reflexivity|]; split; [apply Hlr|]; split; [apply Hlr|];
              split; [reflexivity|];
              split; [reflexivity|]; split; [apply Hl2|]; split; [apply Hl2|];
              split; [reflexivity|];
              split; [reflexivity | exact Hb] ]
        end
      | unfold scored_by_best_epoch;
        eexists; eexists; split;
        [ unfold best_model, freeze; cbn -[create_model];
          apply create_model_layers; [simpl; lia | in_space] |];
        unfold freeze; cbn [params value];
        split; [reflexivity|]; split; [exact Hm|];
        apply py_min_spec; exact Hm ]
  end.

Ltac unroll_objective k n :=
  change (Z.to_nat n) with k; cbn [seq for_each bind]; cbv beta iota;
  repeat first [step_int | step_float | step_cat];
  finish_objective n.

(** The objective on a trial that has suggested nothing yet: it returns, the
    parameters it leaves in the trial are within the declared ranges, and
    the value is the least validation MAE of the run. *)
Lemma objective_fresh (k : nat) (s : St) :
  exists v t,
    objective fit input_dim (fresh_trial k s) = Ok (v, t)
    /\ t_number t = k
    /\ in_declared_ranges (freeze t v)
    /\ scored_by_best_epoch fit input_dim (freeze t v).
Proof.
  unfold objective, fresh_trial.
  destruct (suggest_int_fresh "n_layers" 1 5
              {| t_number := k; t_sampler := s; t_params := [];
                 t_distributions := [] |})
    as (nl & s0 & Heq & Hnl); [reflexivity | lia |].
  rewrite Heq; clear Heq; cbn [bind]; cbv beta iota.
  unfold range.
  assert (Hcases : (nl = 1 \/ nl = 2 \/ nl = 3 \/ nl = 4 \/ nl = 5)%Z) by lia.
  destruct Hcases as [E|[E|[E|[E|E]]]]; rewrite E; clear E Hnl nl.
  - unroll_objective 1%nat 1%Z.
  - unroll_objective 2%nat 2%Z.
  - unroll_objective 3%nat 3%Z.
  - unroll_objective 4%nat 4%Z.
  - unroll_objective 5%nat 5%Z.
Qed.

(** One trial of the study: the objective runs on a fresh trial that has
    the number of the trial and the sampler state of the study. *)
Lemma run_trial_spec (study : @Study St) :
  exists study' v t,
    run_trial (objective fit input_dim) study = Ok study'
    /\ objective fit input_dim
         (fresh_trial (length (trials study)) (study_sampler study))
       = Ok (v, t)
    /\ trials study' = trials study ++ [freeze t v]
    /\ study_sampler study' = t_sampler t
    /\ number (freeze t v) = length (trials study)
    /\ sound_trial fit input_dim (freeze t v).
Proof.
  unfold run_trial.
  destruct (objective_fresh (length (trials study)) (study_sampler study))
    as (v & t & Hobj & Hnum & Hrange & Hscore).
  rewrite Hobj. cbn [bind]. eexists. exists v, t.
  split; [reflexivity|]. split; [reflexivity|]. cbn [trials study_sampler].
  split; [reflexivity|]. split; [reflexivity|].
  split; [exact Hnum|]. split; assumption.
Qed.

Lemma optimize_spec (n : nat) : forall (a : nat) (study : @Study St),
  exists study' ts,
    for_each (seq a n) (fun study _ => run_trial (objective fit input_dim) study)
             study = Ok study'
    /\ trials study' = trials study ++ ts
    /\ map number ts = seq (length (trials study)) n
    /\ runs_of (objective fit input_dim) (length (trials study))
               (study_sampler study) ts (study_sampler study')
    /\ Forall (sound_trial fit input_dim) ts.
Proof.
  induction n as [|n IH]; intros a study; cbn [seq for_each].
  - exists study, []. split; [reflexivity|]. rewrite app_nil_r.
    split; [reflexivity|]. split; [reflexivity|].
    split; [constructor | constructor].
  - destruct (run_trial_spec study)
      as (study1 & v & t & Hrun & Hobj & Htrials & Hsampler & Hnum & Hsound).
    rewrite Hrun. cbn [bind].
    destruct (IH (S a) study1) as (study' & ts & Hrest & Happ & Hnums & Hruns & Hall).
    assert (Hlen1 : length (trials study1) = S (length (trials study))).
    { rewrite Htrials, length_app. simpl. lia. }
    rewrite Hlen1 in Hnums, Hruns. rewrite Hsampler in Hruns.
    exists study', (freeze t v :: ts). split; [exact Hrest|].
    split; [rewrite Happ, Htrials, <- app_assoc; reflexivity|].
    split; [cbn [map]; now rewrite Hnum, Hnums|].
    split; [econstructor; eassumption|].
    constructor; assumption.
Qed.

Lemma best_trial_spec (study : @Study St) :
  trials study <> [] ->
  exists best,
    best_trial study = Ok best
    /\ In best (trials study)
    /\ forall t, In t (trials study) -> value best <= value t.
Proof.
  unfold best_trial. destruct (trials study) as [|t rest]; [congruence|].
  intros _. eexists. split; [reflexivity|]. apply (fold_min_spec value).
Qed.

(** C5. Whatever the sampler draws within the bounds it is asked for, the
    search returns after 50 trials, numbered 0 to 49: the trials of 50
    successive runs of the objective, each on a fresh trial that draws from
    the sampler state left by the run before it.  The parameters of every
    trial lie in the declared ranges: layer count in 1..5, each width in
    16..512, each dropout in [0.1, 0.5], activation among relu, elu and
    selu, learning rate in [1e-5, 1e-2] and L2 strength in [1e-6, 1e-3], both
    declared log-uniform, batch size among 16, 32, 64 and 128.  The value of
    every trial is the least validation MAE of its training run.  The trial
    kept as best is one of the 50 and no trial has a smaller value. *)
Theorem C5_search_keeps_argmin (s : St) :
  exists study best,
    search fit input_dim s = Ok (study, best)
    /\ map number (trials study) = seq 0 50
    /\ runs_of (objective fit input_dim) 0 s (trials study)
               (study_sampler study)
    /\ (forall t, In t (trials study) ->
          in_declared_ranges t /\ scored_by_best_epoch fit input_dim t)
    /\ In best (trials study)
    /\ forall t, In t (trials study) -> value best <= value t.
Proof.
  unfold search, optimize.
  destruct (optimize_spec 50 0 (create_study s))
    as (study & ts & Hrun & Happ & Hnums & Hruns & Hall).
  cbn [create_study trials study_sampler app length] in Happ, Hnums, Hruns.
  rewrite Hrun. cbn [bind].
  destruct (best_trial_spec study) as (best & Hbest & Hin & Hmin).
  { intros Hnil. rewrite Happ in Hnil. rewrite Hnil in Hnums. discriminate Hnums. }
  rewrite Hbest. cbn [bind]. exists study, best. rewrite Happ in *.
  split; [reflexivity|]. split; [exact Hnums|]. split; [exact Hruns|]. split.
  - intros t Ht. rewrite Forall_forall in Hall. exact (Hall t Ht).
  - split; assumption.
Qed.

End SearchFacts.

(** The sample sampler keeps to the bounds it is asked for. *)
Lemma cycling_int_range (name : string) (low high : Z) (n : nat) :
  (low <= high)%Z ->
  (low <= fst (cycling_int low high n, S n) <= high)%Z.
Proof.
  intros Hle. cbn [fst]. unfold cycling_int.
  pose proof (Z.mod_pos_bound (Z.of_nat n) (high - low + 1)). lia.
Qed.

Lemma cycling_float_range (name : string) (low high : Q) (log : bool) (n : nat) :
  low <= high ->
  low <= fst (cycling_float low high n, S n)
  /\ fst (cycling_float low high n, S n) <= high.
Proof.
  intros Hle. cbn [fst]. unfold cycling_float.
  destruct (Nat.even n); split; try apply Qle_refl; exact Hle.
Qed.

Lemma cycling_choice_In (A : Type) (name : string) (c : A) (cs : list A) (n : nat) :
  In (fst (cycling_choice c cs n, S n)) (c :: cs).
Proof.
  cbn [fst]. unfold cycling_choice.
  apply nth_In. cbn [length]. apply Nat.mod_upper_bound. discriminate.
Qed.

#[export] Instance cycling : Sampler nat :=
  {| sample_int := fun _ low high n => (cycling_int low high n, S n);
     sample_float := fun _ low high _ n => (cycling_float low high n, S n);
     sample_choice := fun A _ c cs n => (cycling_choice c cs n, S n);
     sample_int_range := cycling_int_range;
     sample_float_range := cycling_float_range;
     sample_choice_In := cycling_choice_In |}.

(** The stand-in for Keras takes the layers of the search space. *)
Lemma sample_keras_takes (ls : list layer) : forall before : list layer,
  forallb sample_layer_ok ls = true -> first_refusal before ls = None.
Proof.
  induction ls as [|l ls IH]; intros before; cbn [forallb first_refusal].
  - reflexivity.
  - rewrite andb_true_iff. intros [Hl Hls].
    cbn [layer_check sample_keras]. rewrite Hl. now apply IH.
Qed.

Lemma sample_dense_stack_ok (activation : string) (l2_reg : Q) (ns : list Z) :
  forall ds : list Q,
    sample_activation (Some activation) = true ->
    0 <= l2_reg ->
    Forall (fun units => (16 <= units <= 512)%Z) ns ->
    Forall (fun rate => 1 # 10 <= rate /\ rate <= 5 # 10) ds ->
    forallb sample_layer_ok (dense_stack activation l2_reg ns ds) = true.
Proof.
  intros ds Hact Hl2 Hns Hds. unfold dense_stack.
  rewrite forallb_app. apply andb_true_iff. split; [|reflexivity].
  revert ds Hds. induction Hns as [|n ns Hn Hns IH]; intros ds Hds; [reflexivity|].
  destruct Hds as [|d ds [Hlo Hhi] Hds]; [reflexivity|].
  cbn [combine flat_map hidden_block fst snd app forallb sample_layer_ok].
  rewrite Hact, (IH ds Hds).
  apply Qle_bool_iff in Hl2. rewrite Hl2.
  assert (H0 : Qle_bool 0 d = true).
  { apply Qle_bool_iff. apply Qle_trans with (1 # 10); [discriminate | exact Hlo]. }
  assert (H1 : Qle_bool d 1 = true).
  { apply Qle_bool_iff. apply Qle_trans with (5 # 10); [exact Hhi | discriminate]. }
  rewrite H0, H1.
  destruct (Z.ltb_spec 0 n); [reflexivity | lia].
Qed.

Lemma sample_keras_search_space (input_dim : Z) (ns : list Z) (ds : list Q)
    (activation : string) (l2_reg : Q) :
  (0 <= input_dim)%Z ->
  in_search_space ns ds activation l2_reg ->
  accepted (Input [input_dim] :: dense_stack activation l2_reg ns ds) = true.
Proof.
  intros Hdim (_ & _ & Hns & Hds & Hact & Hlo & _).
  unfold accepted. rewrite sample_keras_takes; [reflexivity|].
  cbn [forallb sample_layer_ok].
  destruct (Z.leb_spec 0 input_dim); [|lia]. cbn [andb].
  apply sample_dense_stack_ok; try assumption.
  - simpl in Hact. destruct Hact as [<-|[<-|[<-|[]]]]; reflexivity.
  - apply Qle_trans with (1 # 1000000); [discriminate | exact Hlo].
Qed.

Lemma C5_search_keeps_argmin_witness :
  exists study best,
    search sample_fit 10 0%nat = Ok (study, best)
    /\ map number (trials study) = seq 0 50
    /\ runs_of (objective sample_fit 10) 0 0%nat (trials study)
               (study_sampler study)
    /\ (forall t, In t (trials study) ->
          in_declared_ranges t /\ scored_by_best_epoch sample_fit 10 t)
    /\ In best (trials study)
    /\ forall t, In t (trials study) -> value best <= value t.
Proof.
  apply (C5_search_keeps_argmin sample_fit 10).
  - intros model batch_size. simpl. discriminate.
  - intros ns ds activation l2_reg H.
    apply sample_keras_search_space; [lia | exact H].
Defined.

Example cycling_search_best :
  exists study best,
    search sample_fit 10 0%nat = Ok (study, best)
    /\ map number (trials study) = seq 0 50
    /\ number best = 0%nat
    /\ value best = 6 # 100
    /\ params best
       = [("n_layers", PInt 1); ("n_units_l0", PInt 17);
          ("dropout_l0", PFloat (1 # 10)); ("activation", PStr "relu");
          ("learning_rate", PFloat (1 # 100000)); ("l2_reg", PFloat (1 # 1000));
          ("batch_size", PInt 64)].
Proof.
  eexists. eexists. split; [vm_compute; reflexivity|].
  repeat split; reflexivity.
Qed.

(** ** The fitted preprocessor *)

Lemma level_eqb_eq a b : level_eqb a b = true <-> a = b.
Proof.
  destruct a as [x|], b as [y|]; simpl; try (split; [discriminate | congruence]).
  - rewrite String.eqb_eq. split; congruence.
  - tauto.
Qed.

Lemma level_eqb_sym a b : level_eqb a b = level_eqb b a.
Proof.
  destruct a as [x|], b as [y|]; simpl; try reflexivity. apply String.eqb_sym.
Qed.

Lemma existsb_level (x : level) (l : list level) :
  existsb (level_eqb x) l = true <-> In x l.
Proof.
  rewrite existsb_exists. split.
  - intros [c [Hc Heq]]. apply level_eqb_eq in Heq. now subst c.
  - intros H. exists x. split; [exact H | now apply level_eqb_eq].
Qed.

Lemma unique_from_In {A : Type} (eqb : A -> A -> bool) (l seen : list A) (x : A) :
  In x (unique_from eqb seen l) -> In x l.
Proof.
  revert seen. induction l as [|y l IH]; intros seen; simpl; [tauto|].
  destruct (existsb (eqb y) seen).
  - intros H. right. eapply IH; eauto.
  - intros [<-|H]; [left; reflexivity | right; eapply IH; eauto].
Qed.

(** The levels kept are the levels of the column that were not seen before,
    each of them once. *)
Lemma unique_from_levels (l : list level) : forall seen : list level,
  List.NoDup (unique_from level_eqb seen l)
  /\ forall x, In x (unique_from level_eqb seen l) <-> In x l /\ ~ In x seen.
Proof.
  induction l as [|y l IH]; intros seen; cbn [unique_from].
  - split; [constructor|]. intros x. simpl. tauto.
  - destruct (existsb (level_eqb y) seen) eqn:E.
    + apply existsb_level in E. destruct (IH seen) as [Hnd Hin].
      split; [exact Hnd|]. intros x. rewrite Hin. simpl. split.
      * tauto.
      * intros [[<-|Hx] Hnot]; tauto.
    + assert (Hy : ~ In y seen).
      { intros H. apply existsb_level in H. congruence. }
      destruct (IH (y :: seen)) as [Hnd Hin]. split.
      * constructor; [|exact Hnd]. rewrite Hin. simpl. tauto.
      * intros x. simpl. rewrite Hin. simpl. split.
        -- intros [<-|[Hx Hnot]]; tauto.
        -- intros [[<-|Hx] Hnot]; [tauto|].
           destruct (level_eqb y x) eqn:Eyx.
           ++ apply level_eqb_eq in Eyx. tauto.
           ++ right. split; [exact Hx|]. intros [Heq|Hs]; [|tauto].
              apply level_eqb_eq in Heq. congruence.
Qed.

Lemma unique_levels (l : list level) :
  List.NoDup (unique level_eqb l)
  /\ forall x, In x (unique level_eqb l) <-> In x l.
Proof.
  unfold unique. destruct (unique_from_levels l []) as [Hnd Hin].
  split; [exact Hnd|]. intros x. rewrite Hin. simpl. tauto.
Qed.

(** The indicator block of a level that is not in the vocabulary is all
    zeros. *)
Lemma one_hot_unseen (vocabulary : list level) (x : level) :
  ~ In x vocabulary ->
  one_hot vocabulary x = repeat (Fin 0) (length vocabulary).
Proof.
  unfold one_hot. induction vocabulary as [|c v IH]; intros Hnot; [reflexivity|].
  cbn [map length repeat]. rewrite IH by (intros H; apply Hnot; right; exact H).
  destruct (level_eqb c x) eqn:E; [|reflexivity].
  apply level_eqb_eq in E. subst c. exfalso. apply Hnot. left; reflexivity.
Qed.

(** Under the policy [ignore] the encoder raises on no level. *)
Lemma onehot_ignore (vocabulary : list level) (x : level) :
  onehot_transform handle_unknown_ignore vocabulary x = Ok (one_hot vocabulary x).
Proof.
  unfold onehot_transform.
  destruct (existsb (level_eqb x) vocabulary) eqn:E; [reflexivity|].
  rewrite one_hot_unseen; [reflexivity|].
  intros H. apply existsb_level in H. congruence.
Qed.

Lemma map_result_pure {A B : Type} (f : A -> result B) (g : A -> B)
    (l : list A) :
  (forall x, In x l -> f x = Ok (g x)) -> map_result f l = Ok (map g l).
Proof.
  induction l as [|x l IH]; intros H; [reflexivity|].
  cbn [map_result map]. rewrite H by (left; reflexivity).
  cbn [bind]. rewrite IH by (intros y Hy; apply H; right; exact Hy).
  reflexivity.
Qed.

(** The entry at place [k] of block [j] of a list of blocks laid end to
    end. *)
Lemma nth_error_concat {A : Type} (blocks : list (list A)) :
  forall (j k : nat) (block : list A) (x : A),
    nth_error blocks j = Some block ->
    nth_error block k = Some x ->
    nth_error (concat blocks)
              (list_sum (map (@length A) (firstn j blocks)) + k)
    = Some x.
Proof.
  induction blocks as [|b blocks IH]; intros [|j] k block x; cbn [nth_error];
    try discriminate.
  - intros [= <-] Hk. cbn [firstn map concat].
    change (list_sum [] + k)%nat with k.
    rewrite nth_error_app1; [exact Hk|]. apply nth_error_Some. congruence.
  - intros Hj Hk. cbn [firstn map concat].
    change (list_sum (?a :: ?l)) with (a + list_sum l)%nat.
    rewrite nth_error_app2 by lia.
    replace (length b + list_sum (map (@length A) (firstn j blocks)) + k
             - length b)%nat
      with (list_sum (map (@length A) (firstn j blocks)) + k)%nat by lia.
    now apply (IH j k block x).
Qed.

(** The indicator blocks of a row are as long as the vocabularies. *)
Lemma one_hot_blocks_length (vs : list (list level)) :
  forall (xs : list level) (j : nat),
    length xs = length vs ->
    map (@length num)
        (firstn j (map (fun vx => one_hot (fst vx) (snd vx)) (combine vs xs)))
    = map (@length level) (firstn j vs).
Proof.
  induction vs as [|v vs IH]; intros [|x xs] [|j] Hlen; try discriminate Hlen;
    try reflexivity.
  cbn [combine map firstn fst snd]. injection Hlen as Hlen.
  rewrite (IH xs j Hlen). unfold one_hot at 1. now rewrite length_map.
Qed.

Lemma one_hot_blocks_nth (vs : list (list level)) :
  forall (xs : list level) (j : nat) (v : list level) (x : level),
    nth_error vs j = Some v -> nth_error xs j = Some x ->
    nth_error (map (fun vx => one_hot (fst vx) (snd vx)) (combine vs xs)) j
    = Some (one_hot v x).
Proof.
  induction vs as [|v0 vs IH]; intros [|x0 xs] [|j] v x; cbn [nth_error];
    try discriminate.
  - now intros [= <-] [= <-].
  - intros Hv Hx. cbn [combine map nth_error]. now apply IH.
Qed.

Lemma one_hot_blocks_sum (vs : list (list level)) : forall xs : list level,
  length xs = length vs ->
  length (concat (map (fun vx => one_hot (fst vx) (snd vx)) (combine vs xs)))
  = list_sum (map (@length level) vs).
Proof.
  induction vs as [|v vs IH]; intros [|x xs] Hlen; try discriminate Hlen;
    [reflexivity|].
  injection Hlen as Hlen. cbn [combine map concat fst snd].
  change (list_sum (?a :: ?l)) with (a + list_sum l)%nat.
  rewrite length_app, (IH xs Hlen). unfold one_hot. now rewrite length_map.
Qed.

Section PreprocessingFacts.

Variable numeric_state : Type.
Variable numeric_fit : list (list num) -> numeric_state.
Variable numeric_apply : numeric_state -> nat -> list num -> num.

(** The row the fitted preprocessor writes for a row of the matrix. *)
Lemma transform_row_ignore (f : Fitted numeric_state) (r : Row) :
  transform_row _ numeric_apply categorical_transformer f r
  = Ok (numeric_block _ numeric_apply f r
        ++ concat (map (fun vx => one_hot (fst vx) (snd vx))
                       (combine (vocabularies _ f) (categoricals r)))).
Proof.
  unfold transform_row, categorical_blocks, categorical_transformer.
  rewrite (map_result_pure _ (fun vx => one_hot (fst vx) (snd vx)));
    [reflexivity|].
  intros vx _. apply onehot_ignore.
Qed.

Lemma transform_row_entries (f : Fitted numeric_state) (r : Row) (out : list num) :
  length (categoricals r) = length (vocabularies _ f) ->
  transform_row _ numeric_apply categorical_transformer f r = Ok out ->
  length out = output_width _ f
  /\ (forall j, (j < n_numeric _ f)%nat ->
        nth_error out j
        = Some (numeric_apply (fitted_numeric _ f) j (numerics r)))
  /\ forall j vocabulary x k c,
       nth_error (vocabularies _ f) j = Some vocabulary ->
       nth_error (categoricals r) j = Some x ->
       nth_error vocabulary k = Some c ->
       nth_error out (block_start _ f j + k)
       = Some (if level_eqb c x then Fin 1 else Fin 0).
Proof.
  intros Hlen. rewrite transform_row_ignore. intros [= <-].
  assert (Hnum : length (numeric_block _ numeric_apply f r) = n_numeric _ f).
  { unfold numeric_block. now rewrite length_map, length_seq. }
  split; [|split].
  - unfold output_width. rewrite length_app, Hnum, one_hot_blocks_sum by exact Hlen.
    reflexivity.
  - intros j Hj. rewrite nth_error_app1 by lia.
    unfold numeric_block. rewrite nth_error_map.
    destruct (nth_error (seq 0 (n_numeric _ f)) j) as [j'|] eqn:Ej.
    + apply nth_error_seq_label in Ej. simpl in Ej. now subst j'.
    + apply nth_error_None in Ej. rewrite length_seq in Ej. lia.
  - intros j vocabulary x k c Hv Hx Hc. unfold block_start.
    rewrite nth_error_app2 by lia.
    replace (n_numeric _ f
             + list_sum (map (@length level) (firstn j (vocabularies _ f))) + k
             - length (numeric_block _ numeric_apply f r))%nat
      with (list_sum (map (@length level) (firstn j (vocabularies _ f))) + k)%nat
      by lia.
    rewrite <- (one_hot_blocks_length _ (categoricals r) j Hlen).
    apply (nth_error_concat _ j k (one_hot vocabulary x)).
    + now apply one_hot_blocks_nth.
    + unfold one_hot. now rewrite nth_error_map, Hc.
Qed.

Lemma transform_rows (f : Fitted numeric_state) (rows : list Row) :
  exists outs,
    map_result (transform_row _ numeric_apply categorical_transformer f) rows
    = Ok outs
    /\ length outs = length rows
    /\ forall i r, nth_error rows i = Some r ->
         exists out,
           nth_error outs i = Some out
           /\ transform_row _ numeric_apply categorical_transformer f r = Ok out.
Proof.
  eexists. split; [apply map_result_pure; intros r _; apply transform_row_ignore|].
  split; [apply length_map|].
  intros i r Hr. eexists. rewrite nth_error_map, Hr. split; [reflexivity|].
  apply transform_row_ignore.
Qed.

(** C8. The preprocessor is fitted on the training rows alone: its numeric
    state comes from their numeric part and the vocabulary of a categorical
    column holds the levels of the training rows in that column, each once.
    Fitted so, it raises on no row and writes the same number of columns
    for every row, of the training or of the test matrix.  In the row
    written for a test row, the numeric columns come first and the
    indicator block of a categorical column has a one at the place of the
    level of the row and zeros elsewhere: where the level is in no training
    row, the block is all zeros. *)
Theorem C8_fitted_width_and_unknown_levels (n_num n_cat : nat)
    (X_train X_test : list Row) :
  (forall r, In r (X_train ++ X_test) -> length (categoricals r) = n_cat) ->
  exists f train_out test_out,
    fit_transform _ numeric_fit numeric_apply n_num n_cat X_train
    = (f, Ok train_out)
    /\ transform _ numeric_apply f X_test = Ok test_out
    /\ length train_out = length X_train
    /\ length test_out = length X_test
    /\ (forall out, In out (train_out ++ test_out) ->
          length out = output_width _ f)
    /\ fitted_numeric _ f = numeric_fit (map numerics X_train)
    /\ (forall j, (j < n_cat)%nat ->
          exists vocabulary,
            nth_error (vocabularies _ f) j = Some vocabulary
            /\ List.NoDup vocabulary
            /\ forall x, In x vocabulary <-> In x (column_of j X_train))
    /\ forall i r,
         nth_error X_test i = Some r ->
         exists out,
           nth_error test_out i = Some out
           /\ (forall j, (j < n_num)%nat ->
                 nth_error out j
                 = Some (numeric_apply (numeric_fit (map numerics X_train)) j
                                       (numerics r)))
           /\ forall j vocabulary x,
                nth_error (vocabularies _ f) j = Some vocabulary ->
                nth_error (categoricals r) j = Some x ->
                (forall k c,
                    nth_error vocabulary k = Some c ->
                    nth_error out (block_start _ f j + k)
                    = Some (if level_eqb c x then Fin 1 else Fin 0))
                /\ (~ In x (column_of j X_train) ->
                    forall k, (k < length vocabulary)%nat ->
                      nth_error out (block_start _ f j + k) = Some (Fin 0)).
Proof.
  intros Hshape.
  set (f := fit_preprocessor _ numeric_fit n_num n_cat X_train).
  assert (Hvoc : forall j, (j < n_cat)%nat ->
            nth_error (vocabularies _ f) j
            = Some (unique level_eqb (column_of j X_train))).
  { intros j Hj. unfold f, fit_preprocessor. cbn [vocabularies].
    rewrite nth_error_map.
    destruct (nth_error (seq 0 n_cat) j) as [j'|] eqn:Ej.
    - apply nth_error_seq_label in Ej. simpl in Ej. now subst j'.
    - apply nth_error_None in Ej. rewrite length_seq in Ej. lia. }
  assert (Hvlen : length (vocabularies _ f) = n_cat).
  { unfold f, fit_preprocessor. cbn [vocabularies].
    now rewrite length_map, length_seq. }
  assert (Hs : forall r, In r (X_train ++ X_test) ->
                         length (categoricals r) = length (vocabularies _ f)).
  { intros r Hr. rewrite Hvlen. now apply Hshape. }
  destruct (transform_rows f X_train) as (train_out & Htr & Hltr & Hrtr).
  destruct (transform_rows f X_test) as (test_out & Hte & Hlte & Hrte).
  exists f, train_out, test_out.
  split; [unfold fit_transform; fold f; now rewrite Htr|].
  split; [exact Hte|]. split; [exact Hltr|]. split; [exact Hlte|].
  split; [|split; [reflexivity|split]].
  - intros out Hout. apply in_app_or in Hout as [Hin|Hin];
      apply In_nth_error in Hin as [i Hi].
    + destruct (nth_error X_train i) as [r|] eqn:Er.
      2:{ apply nth_error_None in Er. rewrite <- Hltr in Er.
          apply nth_error_None in Er. congruence. }
      destruct (Hrtr i r Er) as (out' & Ho & Hrow).
      assert (out' = out) by congruence. subst out'.
      apply (transform_row_entries f r out); [|exact Hrow].
      apply Hs. apply in_or_app. left. eapply nth_error_In; eauto.
    + destruct (nth_error X_test i) as [r|] eqn:Er.
      2:{ apply nth_error_None in Er. rewrite <- Hlte in Er.
          apply nth_error_None in Er. congruence. }
      destruct (Hrte i r Er) as (out' & Ho & Hrow).
      assert (out' = out) by congruence. subst out'.
      apply (transform_row_entries f r out); [|exact Hrow].
      apply Hs. apply in_or_app. right. eapply nth_error_In; eauto.
  - intros j Hj. eexists. split; [now apply Hvoc|]. apply unique_levels.
  - intros i r Hr. destruct (Hrte i r Hr) as (out & Ho & Hrow).
    exists out. split; [exact Ho|].
    destruct (transform_row_entries f r out) as (_ & Hnum & Hcat);
      [apply Hs; apply in_or_app; right; eapply nth_error_In; eauto
      | exact Hrow |].
    split; [exact Hnum|].
    intros j vocabulary x Hv Hx. split.
    + intros k c Hc. now apply (Hcat j vocabulary x k c).
    + intros Hunseen k Hk.
      destruct (nth_error vocabulary k) as [c|] eqn:Ec.
      2:{ apply nth_error_None in Ec. lia. }
      rewrite (Hcat j vocabulary x k c Hv Hx Ec).
      destruct (level_eqb c x) eqn:E; [|reflexivity].
      apply level_eqb_eq in E. subst c. exfalso. apply Hunseen.
      assert (Hj : (j < n_cat)%nat).
      { rewrite <- Hvlen. apply nth_error_Some. congruence. }
      rewrite (Hvoc j Hj) in Hv. injection Hv as <-.
      apply unique_levels. eapply nth_error_In; eauto.
Qed.

End PreprocessingFacts.

(** Under the policy [error] the same unseen level is an error. *)
Example unseen_level_raises_under_error :
  onehot_transform handle_unknown_error [Some "0-20"; Some "20-30"] (Some "30-60")
  = Raise ValueError
  /\ onehot_transform handle_unknown_ignore [Some "0-20"; Some "20-30"]
                      (Some "30-60")
     = Ok [Fin 0; Fin 0].
Proof. split; reflexivity. Qed.

Lemma C8_fitted_width_and_unknown_levels_witness :
  exists f train_out test_out,
    fit_transform _ sample_numeric_fit sample_numeric_apply 2 1 sample_X_train
    = (f, Ok train_out)
    /\ transform _ sample_numeric_apply f sample_X_test = Ok test_out
    /\ length train_out = length sample_X_train
    /\ length test_out = length sample_X_test
    /\ (forall out, In out (train_out ++ test_out) ->
          length out = output_width _ f)
    /\ fitted_numeric _ f = sample_numeric_fit (map numerics sample_X_train)
    /\ (forall j, (j < 1)%nat ->
          exists vocabulary,
            nth_error (vocabularies _ f) j = Some vocabulary
            /\ List.NoDup vocabulary
            /\ forall x, In x vocabulary <-> In x (column_of j sample_X_train))
    /\ forall i r,
         nth_error sample_X_test i = Some r ->
         exists out,
           nth_error test_out i = Some out
           /\ (forall j, (j < 2)%nat ->
                 nth_error out j
                 = Some (sample_numeric_apply
                           (sample_numeric_fit (map numerics sample_X_train)) j
                           (numerics r)))
           /\ forall j vocabulary x,
                nth_error (vocabularies _ f) j = Some vocabulary ->
                nth_error (categoricals r) j = Some x ->
                (forall k c,
                    nth_error vocabulary k = Some c ->
                    nth_error out (block_start _ f j + k)
                    = Some (if level_eqb c x then Fin 1 else Fin 0))
                /\ (~ In x (column_of j sample_X_train) ->
                    forall k, (k < length vocabulary)%nat ->
                      nth_error out (block_start _ f j + k) = Some (Fin 0)).
Proof.
  apply (C8_fitted_width_and_unknown_levels unit sample_numeric_fit
           sample_numeric_apply 2 1 sample_X_train sample_X_test).
  intros r Hr. simpl in Hr.
  repeat (destruct Hr as [<-|Hr]; [reflexivity|]). destruct Hr.
Defined.

Example sample_rows_processed :
  transform _ sample_numeric_apply
    (fit_preprocessor _ sample_numeric_fit 2 1 sample_X_train) sample_X_test
  = Ok [[Fin 8; Fin 2; Fin 0; Fin 1]; [Fin 7; Fin 1; Fin 0; Fin 0]]
  /\ snd (fit_transform _ sample_numeric_fit sample_numeric_apply 2 1 sample_X_train)
     = Ok [[Fin 12; Fin 0; Fin 1; Fin 0];
           [Fin 9; Fin 6; Fin 0; Fin 1];
           [Fin 4; Fin 3; Fin 1; Fin 0]].
Proof. split; reflexivity. Qed.

(** * Further properties of the notebooks

    Properties of the preparation cell, of the two builders and of the cell
    that rebuilds the best model, beyond the ones above. *)

From Stdlib Require Import DecimalNat.

(** [len(s)] *)
Definition series_length (s : Series) : nat :=
  match s with
  | NumCol v => length v
  | ObjCol v => length v
  end.

(** Every column of the frame has one entry per row. *)
Definition rectangular (df : DataFrame) : Prop :=
  Forall (fun cs => series_length (snd cs) = len df) (columns df).

(** One entry of a column. *)
Inductive cell : Type :=
| CNum (x : num)
| CObj (x : option string).

(** [s.iloc[k]] where there is such a position *)
Definition series_get (s : Series) (k : nat) : option cell :=
  match s with
  | NumCol v => option_map CNum (nth_error v k)
  | ObjCol v => option_map CObj (nth_error v k)
  end.

(** ** The categorical filter *)

Lemma filter_NoDup_strings (f : string -> bool) (l : list string) :
  NoDup l -> NoDup (List.filter f l).
Proof.
  induction 1 as [|x l Hx Hnd IH]; simpl; [constructor|].
  destruct (f x); [|exact IH].
  constructor; [|exact IH]. intros Hin. apply filter_In in Hin. tauto.
Qed.

Lemma categorical_cols_declared_NoDup : NoDup categorical_cols_declared.
Proof.
  unfold categorical_cols_declared.
  repeat (constructor; [simpl; intuition discriminate|]). constructor.
Qed.

(** The filter never raises; what it keeps are candidates that are columns
    of the table, each once, in the order of the candidate list. *)
Theorem filtered_cat_cols_sound (df : DataFrame) :
  exists kept,
    filtered_cat_cols df = Ok kept
    /\ NoDup kept
    /\ (forall col, In col kept ->
          In col categorical_cols_declared /\ has_column df col = true)
    /\ exists keep, kept = List.filter keep categorical_cols_declared.
Proof.
  eexists. split; [apply filtered_cat_cols_eq|]. split.
  - apply filter_NoDup_strings, categorical_cols_declared_NoDup.
  - split; [|eexists; reflexivity].
    intros col Hin. apply filter_In in Hin as [Hdecl Hkept].
    split; [exact Hdecl|]. unfold kept_col in Hkept. unfold has_column.
    destruct (assoc col (columns df)); [reflexivity | discriminate].
Qed.

(** On a table without rows the missing rate is 0/0, which is below
    nothing: no categorical column is kept. *)
Theorem filtered_cat_cols_empty_table (df : DataFrame) :
  len df = 0%nat -> filtered_cat_cols df = Ok [].
Proof.
  intros Hlen. rewrite filtered_cat_cols_eq. f_equal.
  assert (H : forall col, kept_col df col = false).
  { intros col. unfold kept_col. destruct (assoc col (columns df)) as [s|]; [|reflexivity].
    unfold keeps. apply andb_false_iff. right.
    apply not_true_iff_false. rewrite missing_rate_lt, Hlen. lia. }
  induction categorical_cols_declared as [|c l IH]; simpl; [reflexivity|].
  now rewrite H.
Qed.

Definition empty_table : DataFrame :=
  {| index := []; columns := [("Depth", ObjCol []); ("pH_H2O", NumCol [])] |}.

Lemma filtered_cat_cols_empty_table_witness :
  filtered_cat_cols empty_table = Ok [].
Proof. apply (filtered_cat_cols_empty_table empty_table). reflexivity. Defined.

(** ** Columns of the feature matrix *)

Lemma getitems_names df cols X :
  getitems df cols = Ok X -> map fst (columns X) = cols.
Proof.
  unfold getitems. intros H. apply bind_Ok in H as [cs [Hcs H]].
  injection H as <-. simpl. apply map_result_Ok in Hcs.
  induction Hcs as [|c [k s] cols cs Hc _ IH]; [reflexivity|].
  apply bind_Ok in Hc as [s' [_ Hc]]. injection Hc as <- _.
  simpl. now rewrite IH.
Qed.

Lemma iloc_names df pos df' :
  iloc df pos = Ok df' -> map fst (columns df') = map fst (columns df).
Proof.
  unfold iloc. intros H. apply bind_Ok in H as [idx [_ H]].
  apply bind_Ok in H as [cs [Hcs H]]. injection H as <-. simpl.
  apply map_result_Ok in Hcs.
  induction Hcs as [|[c s] [c' s'] l l' Hc _ IH]; [reflexivity|].
  apply bind_Ok in Hc as [s0 [_ Hc]]. injection Hc as <- _.
  simpl. now rewrite IH.
Qed.

Lemma target_not_candidate : ~ In target categorical_cols_declared.
Proof.
  unfold target, categorical_cols_declared. simpl. intuition discriminate.
Qed.

Lemma filtered_cat_cols_In df kept col :
  filtered_cat_cols df = Ok kept -> In col kept ->
  In col categorical_cols_declared /\ has_column df col = true.
Proof.
  intros H Hin. destruct (filtered_cat_cols_sound df) as (k & Hk & _ & Hs & _).
  rewrite Hk in H. injection H as ->. now apply Hs.
Qed.

Section MatrixColumns.

Context {fl : Float64}.
Variable log1p : num -> num.
Variable shuffle_split : nat -> result (list nat * list nat).

(** The feature matrix has the numeric columns of the frame after the
    feature block, in the order of the frame, followed by the filtered
    categorical columns; the target is none of them. *)
Theorem X_columns_without_target (df : DataFrame) (r : Prepared) :
  prepare log1p shuffle_split df = Ok r ->
  map fst (columns (p_X r)) = numeric_cols (p_df r) ++ p_filtered_cat_cols r
  /\ ~ In target (map fst (columns (p_X r)))
  /\ ~ In target (map fst (columns (p_X_train r)))
  /\ ~ In target (map fst (columns (p_X_test r))).
Proof.
  intros Hrun.
  destruct (prepare_Ok _ _ _ _ Hrun) as [d [Hf [_ [_ [_ [Hnum [HX Hsplit]]]]]]].
  pose proof (getitems_names _ _ _ HX) as Hnames. rewrite Hnum in Hnames.
  assert (Hfree : ~ In target (map fst (columns (p_X r)))).
  { rewrite Hnames. intros Hin. apply in_app_or in Hin as [Hin|Hin].
    - unfold numeric_cols in Hin. apply filter_In in Hin as [_ Hne].
      unfold target in Hne. rewrite String.eqb_refl in Hne. discriminate.
    - apply (filtered_cat_cols_In _ _ _ Hf) in Hin as [Hdecl _].
      exact (target_not_candidate Hdecl). }
  split; [exact Hnames|]. split; [exact Hfree|].
  unfold train_test_split in Hsplit.
  apply bind_Ok in Hsplit as [split [_ H]].
  apply bind_Ok in H as [a [Ha H]].
  apply bind_Ok in H as [b [Hb H]].
  apply bind_Ok in H as [c [_ H]].
  apply bind_Ok in H as [e [_ H]].
  injection H as <- <- _ _.
  split; [rewrite (iloc_names _ _ _ Ha) | rewrite (iloc_names _ _ _ Hb)];
    exact Hfree.
Qed.

End MatrixColumns.

Lemma X_columns_without_target_witness :
  exists r,
    prepare sample_log1p sample_split soil_table = Ok r
    /\ map fst (columns (p_X r)) = numeric_cols (p_df r) ++ p_filtered_cat_cols r
    /\ ~ In target (map fst (columns (p_X r)))
    /\ ~ In target (map fst (columns (p_X_train r)))
    /\ ~ In target (map fst (columns (p_X_test r))).
Proof.
  eexists. split; [vm_compute; reflexivity|].
  apply (X_columns_without_target sample_log1p sample_split soil_table).
  vm_compute. reflexivity.
Defined.

(** ** The feature block appends *)

(** The column a feature adds to a frame, if it adds one. *)
Definition feature_column (df : DataFrame) (f : feature) : list (string * Series) :=
  if computable f df then
    match feature_series f df with
    | Ok s => [(f_name f, s)]
    | Raise _ => []
    end
  else [].

Lemma assoc_set_absent {A : Type} (k : string) (v : A) (l : list (string * A)) :
  assoc k l = None -> assoc_set k v l = l ++ [(k, v)].
Proof.
  induction l as [|[k' w] l IH]; simpl; [reflexivity|].
  destruct (String.eqb k k'); [discriminate|]. intros H. now rewrite IH.
Qed.

Lemma apply_feature_columns df f df' :
  assoc (f_name f) (columns df) = None ->
  apply_feature df f = Ok df' ->
  columns df' = columns df ++ feature_column df f.
Proof.
  intros Hfresh. unfold apply_feature, feature_column.
  destruct (computable f df).
  - destruct (feature_series f df) as [s|]; simpl; [|discriminate].
    intros [= <-]. simpl. now apply assoc_set_absent.
  - intros [= <-]. now rewrite app_nil_r.
Qed.

Lemma flat_map_agree {A B : Type} (f g : A -> list B) (l : list A) :
  (forall a, In a l -> f a = g a) -> flat_map f l = flat_map g l.
Proof.
  induction l as [|a l IH]; intros H; simpl; [reflexivity|].
  rewrite (H a) by (left; reflexivity).
  rewrite IH by (intros b Hb; apply H; right; exact Hb). reflexivity.
Qed.

Lemma for_each_features_columns fs : forall df df',
  independent fs ->
  List.NoDup (map f_name fs) ->
  (forall f, In f fs -> assoc (f_name f) (columns df) = None) ->
  for_each fs apply_feature df = Ok df' ->
  columns df' = columns df ++ flat_map (feature_column df) fs.
Proof.
  induction fs as [|f fs IH]; intros df df' Hind Hnd Hfresh Hrun.
  - simpl in Hrun. injection Hrun as <-. simpl. now rewrite app_nil_r.
  - cbn [for_each] in Hrun. apply bind_Ok in Hrun as [df1 [Hdf1 Hrun]].
    destruct (apply_feature_frame _ _ _ Hdf1) as [_ Hframe1].
    inversion Hnd as [|? ? Hnew Hnd']; subst.
    assert (Hne : forall g, In g fs -> f_name g <> f_name f).
    { intros g Hg Heq. apply Hnew. rewrite <- Heq. now apply in_map. }
    rewrite (IH df1 df'); auto.
    + rewrite (apply_feature_columns df f df1); auto.
      2:{ apply Hfresh. left; reflexivity. }
      cbn [flat_map]. rewrite <- app_assoc. f_equal. f_equal.
      apply flat_map_agree. intros g Hg. unfold feature_column.
      destruct (agree_off_name df df1 f g Hframe1) as [Hc Hs].
      { apply Hind; [left; reflexivity | right; exact Hg]. }
      now rewrite Hc, Hs.
    + intros g h Hg Hh. apply Hind; right; assumption.
    + intros g Hg. rewrite Hframe1 by (apply Hne; exact Hg).
      apply Hfresh. right; exact Hg.
Qed.

Lemma f_value_numeric {fl : Float64} log1p f ss s :
  In f (engineered log1p) -> f_value f ss = Ok s -> is_numeric s = true.
Proof.
  unfold engineered. simpl.
  intros [<-|[<-|[<-|[<-|[<-|[<-|[]]]]]]]; simpl;
    repeat (destruct ss as [|[?|?] ss]; simpl; try discriminate);
    try (intros [= <-]; reflexivity).
Qed.

Lemma feature_column_numeric {fl : Float64} log1p df f c s :
  In f (engineered log1p) -> In (c, s) (feature_column df f) ->
  c = f_name f /\ is_numeric s = true /\ c <> target.
Proof.
  intros Hf. unfold feature_column.
  destruct (computable f df); [|intros []].
  unfold feature_series.
  destruct (lookup_all df (f_sources f)) as [ss|]; [|intros []].
  destruct (f_value f ss) as [s'|] eqn:E; [|intros []].
  intros [[= <- <-]|[]]. split; [reflexivity|]. split.
  - eapply f_value_numeric; eauto.
  - intros Heq. apply target_not_engineered. rewrite <- Heq.
    rewrite <- (engineered_names_eq log1p). now apply in_map.
Qed.

(** The names of the columns the features add to a frame, in order. *)
Definition added_names {fl : Float64} (log1p : num -> num) (df : DataFrame)
  : list string :=
  map fst (flat_map (feature_column df) (engineered log1p)).

Lemma numeric_cols_app (i : list nat) (l l' : list (string * Series)) :
  numeric_cols {| index := i; columns := l ++ l' |}
  = numeric_cols {| index := i; columns := l |}
    ++ numeric_cols {| index := i; columns := l' |}.
Proof.
  unfold numeric_cols, select_dtypes_number. simpl.
  now rewrite filter_app, map_app, filter_app.
Qed.

Lemma numeric_cols_columns df df' :
  columns df = columns df' -> numeric_cols df = numeric_cols df'.
Proof. unfold numeric_cols, select_dtypes_number. now intros ->. Qed.

Lemma numeric_cols_dropna df col dropped :
  dropna_subset df col = Ok dropped -> numeric_cols dropped = numeric_cols df.
Proof.
  unfold dropna_subset. intros H. apply bind_Ok in H as [t [_ H]].
  injection H as <-. unfold numeric_cols, select_dtypes_number. simpl.
  f_equal. induction (columns df) as [|[c s] l IH]; simpl; [reflexivity|].
  destruct s; simpl; rewrite IH; reflexivity.
Qed.

Section AppendedColumns.

Context {fl : Float64}.
Variable log1p : num -> num.
Variable shuffle_split : nat -> result (list nat * list nat).

Lemma added_all_numeric (i : list nat) (df : DataFrame) :
  numeric_cols {| index := i;
                  columns := flat_map (feature_column df) (engineered log1p) |}
  = added_names log1p df.
Proof.
  unfold added_names, numeric_cols, select_dtypes_number. cbn [columns].
  assert (H : forall cs, In cs (flat_map (feature_column df) (engineered log1p)) ->
                         is_numeric (snd cs) = true /\ fst cs <> target).
  { intros [c s] Hin. apply in_flat_map in Hin as [f [Hf Hin]].
    destruct (feature_column_numeric log1p df f c s Hf Hin) as [_ [Hn Ht]].
    split; assumption. }
  induction (flat_map (feature_column df) (engineered log1p)) as [|[c s] l IH];
    [reflexivity|].
  destruct (H (c, s) (or_introl eq_refl)) as [Hn Ht]. simpl in Hn, Ht.
  cbn [List.filter map snd fst]. rewrite Hn. cbn [List.filter map fst].
  destruct (String.eqb_spec c target) as [->|_]; [contradiction|].
  cbn [negb]. f_equal. apply IH. intros cs Hcs. apply H. right; exact Hcs.
Qed.

(** When no column of the loaded table has the name of an engineered
    feature, the block appends: the frame after it is the frame before it
    followed by the columns of the features that can be computed, in the
    order of the cell.  The feature matrix then has the numeric columns of
    the loaded table (target left out) in the order of the table, the
    engineered features after them, and the filtered categorical columns
    last. *)
Theorem X_column_order (df : DataFrame) (r : Prepared) :
  (forall c, In c engineered_names -> has_column df c = false) ->
  prepare log1p shuffle_split df = Ok r ->
  exists dropped,
    dropna_subset df target = Ok dropped
    /\ columns (p_df r)
       = columns dropped ++ flat_map (feature_column dropped) (engineered log1p)
    /\ map fst (columns (p_X r))
       = numeric_cols df ++ added_names log1p dropped ++ p_filtered_cat_cols r.
Proof.
  intros Hnew Hrun.
  destruct (prepare_Ok _ _ _ _ Hrun) as [d [_ [Hd [He [_ [Hnum [HX _]]]]]]].
  destruct (dropna_subset_Ok _ _ _ Hd) as [t [_ [_ Hdcols]]].
  assert (Hcols : columns (p_df r)
                  = columns d ++ flat_map (feature_column d) (engineered log1p)).
  { rewrite feature_engineering_table in He.
    apply for_each_features_columns; auto.
    - apply engineered_independent.
    - apply engineered_NoDup.
    - intros f Hf. rewrite Hdcols.
      assert (Hc : has_column df (f_name f) = false).
      { apply Hnew. rewrite <- (engineered_names_eq log1p). now apply in_map. }
      unfold has_column in Hc.
      destruct (assoc (f_name f) (columns df)); [discriminate | reflexivity]. }
  exists d. split; [exact Hd|]. split; [exact Hcols|].
  rewrite (getitems_names _ _ _ HX), Hnum, app_assoc. f_equal.
  rewrite (numeric_cols_columns (p_df r)
             {| index := index (p_df r);
                columns := columns d
                           ++ flat_map (feature_column d) (engineered log1p) |})
    by exact Hcols.
  rewrite numeric_cols_app, added_all_numeric. f_equal.
  rewrite <- (numeric_cols_dropna _ _ _ Hd).
  now apply numeric_cols_columns.
Qed.

End AppendedColumns.

Lemma X_column_order_witness :
  exists r,
    prepare sample_log1p sample_split soil_table = Ok r
    /\ exists dropped,
      dropna_subset soil_table target = Ok dropped
      /\ columns (p_df r)
         = columns dropped
           ++ flat_map (feature_column dropped) (engineered sample_log1p)
      /\ map fst (columns (p_X r))
         = numeric_cols soil_table ++ added_names sample_log1p dropped
           ++ p_filtered_cat_cols r.
Proof.
  eexists. split; [vm_compute; reflexivity|].
  apply (X_column_order sample_log1p sample_split soil_table).
  - intros c Hc. unfold engineered_names in Hc. simpl in Hc.
    repeat (destruct Hc as [<-|Hc]; [reflexivity|]). destruct Hc.
  - vm_compute. reflexivity.
Defined.

Example soil_table_X_columns :
  exists r,
    prepare sample_log1p sample_split soil_table = Ok r
    /\ map fst (columns (p_X r))
       = ["EC"; "OC"; "Clay"; "N"; "EC_OC_ratio"; "CN_ratio"; "Clay_OC_interaction"].
Proof. eexists. split; vm_compute; reflexivity. Qed.

(** ** Rows and the target *)

Definition table_without_target : DataFrame :=
  {| index := [0%nat; 1%nat];
     columns := [("Depth", ObjCol [Some "0-20"; Some "20-30"]);
                 ("EC", NumCol [Fin 12; Fin 8])] |}.

Lemma take_mask_seq_In (m : list bool) : forall a n i,
  In i (take_mask m (seq a n)) <->
  exists p, (p < n)%nat /\ i = (a + p)%nat /\ nth_error m p = Some true.
Proof.
  induction m as [|b m IH]; intros a n i.
  - simpl. split; [tauto|]. intros [p [_ [_ H]]]. destruct p; discriminate.
  - destruct n as [|n]; simpl.
    + split; [tauto|]. intros [p [Hp _]]. lia.
    + assert (Hrest : In i (take_mask m (seq (S a) n)) <->
                      exists p, (S p < S n)%nat /\ i = (a + S p)%nat
                                /\ nth_error m p = Some true).
      { rewrite IH. split; intros [p [Hp [Hi Hm]]]; exists p;
          (split; [lia|]); (split; [lia | exact Hm]). }
      destruct b; simpl.
      * rewrite Hrest. split.
        -- intros [<-|[p [Hp [Hi Hm]]]].
           ++ exists 0%nat. split; [lia|]. split; [lia | reflexivity].
           ++ exists (S p). auto.
        -- intros [[|p] [Hp [Hi Hm]]]; [left; lia|]. right. exists p. auto.
      * rewrite Hrest. split.
        -- intros [p [Hp [Hi Hm]]]. exists (S p). auto.
        -- intros [[|p] [Hp [Hi Hm]]]; [discriminate|]. exists p. auto.
Qed.

Lemma take_mask_length {A : Type} (m : list bool) : forall (l : list A),
  length l = length m -> length (take_mask m l) = count_true m.
Proof.
  unfold count_true.
  induction m as [|b m IH]; intros [|x l] Hlen; try discriminate; [reflexivity|].
  injection Hlen as Hlen. destruct b; simpl; now rewrite IH.
Qed.

Lemma notnull_length s : length (notnull s) = series_length s.
Proof.
  unfold notnull. rewrite length_map.
  destruct s; simpl; apply length_map.
Qed.

Section RowsKept.

Context {fl : Float64}.
Variable log1p : num -> num.
Variable shuffle_split : nat -> result (list nat * list nat).

(** Without a [pH_H2O] column the cell stops at [dropna] with a
    [KeyError] on that name, whatever else the table holds. *)
Theorem prepare_without_target (df : DataFrame) :
  has_column df target = false ->
  prepare log1p shuffle_split df = Raise (KeyError target).
Proof.
  intros H. unfold prepare. rewrite filtered_cat_cols_eq. cbn [bind].
  unfold dropna_subset, getitem. unfold has_column in H.
  destruct (assoc target (columns df)); [discriminate | reflexivity].
Qed.

(** In a loaded table the rows of the feature matrix are exactly the rows
    whose target is present, and there are as many as there are present
    targets. *)
Theorem X_rows_are_rows_with_target (df : DataFrame) (r : Prepared) (t : Series) :
  index df = seq 0 (len df) ->
  assoc target (columns df) = Some t ->
  series_length t = len df ->
  prepare log1p shuffle_split df = Ok r ->
  (forall i, In i (index (p_X r)) <->
             (i < len df)%nat /\ nth_error (notnull t) i = Some true)
  /\ len (p_X r) = count_true (notnull t)
  /\ (len (p_X r) + count_true (isna t) = len df)%nat.
Proof.
  intros Hrange Ht Hlen Hrun.
  destruct (prepare_columns _ _ _ _ Hrun) as [t' [Ht' [_ [HidxX _]]]].
  assert (t' = t) by congruence. subst t'.
  assert (Hcount : len (p_X r) = count_true (notnull t)).
  { unfold len at 1. rewrite HidxX. apply take_mask_length.
    rewrite notnull_length, Hlen. reflexivity. }
  split; [|split; [exact Hcount|]].
  - intros i. rewrite HidxX, Hrange, take_mask_seq_In. split.
    + intros [p [Hp [-> Hm]]]. simpl. auto.
    + intros [Hi Hm]. exists i. auto.
  - rewrite Hcount, <- Hlen, <- notnull_length. unfold notnull, count_true.
    induction (isna t) as [|[|] l IH]; simpl; lia.
Qed.

End RowsKept.

Lemma prepare_without_target_witness :
  prepare sample_log1p sample_split table_without_target = Raise (KeyError target).
Proof.
  apply (prepare_without_target sample_log1p sample_split table_without_target).
  reflexivity.
Defined.

Lemma X_rows_are_rows_with_target_witness :
  exists r,
    prepare sample_log1p sample_split soil_table = Ok r
    /\ (forall i, In i (index (p_X r)) <->
          (i < len soil_table)%nat
          /\ nth_error (notnull (NumCol [Fin 7; NaN; Fin (13 # 2); NaN; Fin 5])) i
             = Some true)
    /\ len (p_X r) = count_true (notnull (NumCol [Fin 7; NaN; Fin (13 # 2); NaN; Fin 5]))
    /\ (len (p_X r) + count_true (isna (NumCol [Fin 7; NaN; Fin (13 # 2); NaN; Fin 5]))
        = len soil_table)%nat.
Proof.
  eexists. split; [vm_compute; reflexivity|].
  apply (X_rows_are_rows_with_target sample_log1p sample_split soil_table).
  - reflexivity.
  - reflexivity.
  - reflexivity.
  - vm_compute. reflexivity.
Defined.

(** ** The two ways of leaving the target out *)

Lemma list_remove_filter (x : string) (l : list string) :
  NoDup l ->
  list_remove x l = List.filter (fun c => negb (String.eqb c x)) l.
Proof.
  induction 1 as [|y l Hy Hnd IH]; simpl; [reflexivity|].
  rewrite (String.eqb_sym y x).
  destruct (String.eqb_spec x y) as [->|Hne]; simpl.
  - symmetry. apply forallb_filter_id. apply forallb_forall.
    intros c Hc. destruct (String.eqb_spec c y) as [->|_]; [contradiction | reflexivity].
  - now rewrite IH.
Qed.

Lemma filter_absent (x : string) (l : list string) :
  existsb (String.eqb x) l = false ->
  List.filter (fun c => negb (String.eqb c x)) l = l.
Proof.
  induction l as [|y l IH]; simpl; [reflexivity|].
  rewrite (String.eqb_sym y x). destruct (String.eqb x y); simpl; [discriminate|].
  intros H. now rewrite IH.
Qed.

Lemma NoDup_filter_names (f : string * Series -> bool) (l : list (string * Series)) :
  NoDup (map fst l) -> NoDup (map fst (List.filter f l)).
Proof.
  induction l as [|cs l IH]; simpl; [constructor|].
  intros H. inversion H as [|? ? Hnew Hnd]; subst.
  destruct (f cs); simpl; [|now apply IH].
  constructor; [|now apply IH].
  intros Hin. apply Hnew. apply in_map_iff in Hin as [cs' [Heq Hin]].
  apply filter_In in Hin as [Hin _]. rewrite <- Heq. now apply in_map.
Qed.

(** Before the feature block the cell leaves the target out of the numeric
    columns with [remove], after it with a comprehension.  On a table whose
    column names are distinct the two give the same list. *)
Theorem numeric_cols_two_ways (df : DataFrame) :
  NoDup (map fst (columns df)) ->
  numeric_cols_loaded df = numeric_cols df.
Proof.
  intros Hnd. unfold numeric_cols_loaded, numeric_cols.
  destruct (existsb (String.eqb target) (select_dtypes_number df)) eqn:E.
  - apply list_remove_filter. unfold select_dtypes_number.
    now apply NoDup_filter_names.
  - symmetry. now apply filter_absent.
Qed.

Lemma numeric_cols_two_ways_witness :
  numeric_cols_loaded soil_table = numeric_cols soil_table.
Proof.
  apply (numeric_cols_two_ways soil_table).
  simpl. repeat (constructor; [simpl; intuition discriminate|]). constructor.
Defined.

(** With a repeated name the two differ: [remove] takes out one
    occurrence only. *)
Example numeric_cols_repeated_target :
  let df := {| index := [0%nat];
               columns := [("pH_H2O", NumCol [Fin 7]); ("pH_H2O", NumCol [Fin 6])] |} in
  numeric_cols_loaded df = ["pH_H2O"] /\ numeric_cols df = [].
Proof. split; reflexivity. Qed.

(** ** The frame stays rectangular *)

(** Every column found by name has one entry per row. *)
Definition aligned (df : DataFrame) : Prop :=
  forall c s, assoc c (columns df) = Some s -> series_length s = len df.

Lemma assoc_In {A : Type} (c : string) (l : list (string * A)) (v : A) :
  assoc c l = Some v -> In (c, v) l.
Proof.
  induction l as [|[k w] l IH]; simpl; [discriminate|].
  destruct (String.eqb_spec c k) as [->|_].
  - intros [= ->]. left; reflexivity.
  - intros H. right. now apply IH.
Qed.

Lemma rectangular_aligned df : rectangular df -> aligned df.
Proof.
  intros H c s Hs. apply assoc_In in Hs.
  unfold rectangular in H. rewrite Forall_forall in H. exact (H (c, s) Hs).
Qed.

Lemma take_mask_length_eq {A B : Type} (m : list bool) :
  forall (l : list A) (l' : list B),
    length l = length l' -> length (take_mask m l) = length (take_mask m l').
Proof.
  induction m as [|b m IH]; intros [|x l] [|y l'] Hlen; try discriminate;
    try reflexivity.
  injection Hlen as Hlen. destruct b; simpl; now rewrite (IH l l').
Qed.

Lemma series_mask_length (m : list bool) (s : Series) (i : list nat) :
  series_length s = length i ->
  series_length (series_mask m s) = length (take_mask m i).
Proof. destruct s; simpl; apply take_mask_length_eq. Qed.

Lemma dropna_aligned df col dropped :
  aligned df -> dropna_subset df col = Ok dropped -> aligned dropped.
Proof.
  intros Hal Hd. destruct (dropna_subset_Ok _ _ _ Hd) as [t [_ [Hidx Hcols]]].
  intros c s Hs. rewrite Hcols in Hs.
  destruct (assoc c (columns df)) as [s0|] eqn:E; [|discriminate].
  injection Hs as <-. unfold len. rewrite Hidx.
  apply series_mask_length. exact (Hal c s0 E).
Qed.

Lemma map2_length {A B C : Type} (f : A -> B -> C) (a : list A) (b : list B) :
  length a = length b -> length (map2 f a b) = length a.
Proof.
  revert b. induction a as [|x a IH]; intros [|y b] H; try discriminate;
    [reflexivity|].
  injection H as H. simpl. now rewrite IH.
Qed.

Lemma series_binop_length op a b s n :
  series_length a = n -> series_length b = n ->
  series_binop op a b = Ok s -> series_length s = n.
Proof.
  destruct a as [x|x], b as [y|y]; simpl; try discriminate.
  intros Ha Hb [= <-]. simpl. rewrite map2_length; congruence.
Qed.

Lemma series_replace_length old new s :
  series_length (series_replace old new s) = series_length s.
Proof. destruct s; simpl; [apply length_map | reflexivity]. Qed.

Lemma f_value_length {fl : Float64} log1p f ss s n :
  In f (engineered log1p) ->
  Forall (fun s0 => series_length s0 = n) ss ->
  f_value f ss = Ok s -> series_length s = n.
Proof.
  unfold engineered. simpl.
  intros [<-|[<-|[<-|[<-|[<-|[<-|[]]]]]]] Hall; simpl;
    repeat (destruct ss as [|? ss]; try discriminate);
    repeat match goal with
           | H : Forall _ (_ :: _) |- _ => inversion H; clear H; subst
           end.
  - unfold guarded_ratio. apply series_binop_length; auto.
    now rewrite series_replace_length.
  - unfold guarded_ratio. apply series_binop_length; auto.
    now rewrite series_replace_length.
  - intros H. apply bind_Ok in H as [np [Hnp H]].
    eapply series_binop_length; [| |exact H]; auto.
    eapply series_binop_length; [| |exact Hnp]; auto.
  - destruct s0; simpl; [|discriminate]. intros [= <-]. simpl in *.
    now rewrite length_map.
  - unfold guarded_ratio. apply series_binop_length; auto.
    now rewrite series_replace_length.
  - apply series_binop_length; auto.
Qed.

Lemma engineered_by_name {fl : Float64} log1p c :
  In c engineered_names -> exists f, In f (engineered log1p) /\ f_name f = c.
Proof.
  rewrite <- (engineered_names_eq log1p). intros H.
  apply in_map_iff in H as [f [Hf Hin]]. eauto.
Qed.

Lemma In_dec_engineered c : {In c engineered_names} + {~ In c engineered_names}.
Proof. apply in_dec, string_dec. Qed.

Lemma feature_engineering_aligned {fl : Float64} log1p df df' :
  aligned df -> feature_engineering log1p df = Ok df' -> aligned df'.
Proof.
  intros Hal Hrun.
  destruct (feature_engineering_Ok _ _ _ Hrun) as [Hidx [Hframe Hout]].
  intros c s Hs. unfold len. rewrite Hidx. fold (len df).
  destruct (In_dec_engineered c) as [Heng|Hnot].
  - destruct (engineered_by_name log1p c Heng) as [f [Hf <-]].
    specialize (Hout f Hf). unfold feature_outcome in Hout.
    destruct (computable f df) eqn:Ec.
    + destruct Hout as [s' [Hval Hcol]]. rewrite Hcol in Hs. injection Hs as <-.
      unfold feature_series in Hval.
      destruct (lookup_all df (f_sources f)) as [ss|] eqn:El; [|discriminate].
      apply (f_value_length log1p f ss s' (len df) Hf); [|exact Hval].
      apply Forall_forall. intros s0 Hs0.
      destruct (lookup_all_In _ _ _ El) as [_ Hin].
      destruct (Hin s0 Hs0) as [c0 [_ Hc0]]. exact (Hal c0 s0 Hc0).
    + rewrite Hout in Hs. exact (Hal _ _ Hs).
  - rewrite (Hframe c Hnot) in Hs. exact (Hal _ _ Hs).
Qed.

Lemma getitems_entries df cols X :
  getitems df cols = Ok X ->
  forall cs, In cs (columns X) -> assoc (fst cs) (columns df) = Some (snd cs).
Proof.
  unfold getitems. intros H. apply bind_Ok in H as [l [Hl H]].
  injection H as <-. simpl. apply map_result_Ok in Hl.
  induction Hl as [|c [k s] cols l Hc _ IH]; intros cs; [intros []|].
  unfold getitem in Hc.
  destruct (assoc c (columns df)) as [s0|] eqn:E; simpl in Hc; [|discriminate].
  injection Hc as <- <-.
  intros [<-|Hin]; [exact E | now apply IH].
Qed.

Lemma map_result_length {A B : Type} (f : A -> result B) (l : list A) (l' : list B) :
  map_result f l = Ok l' -> length l' = length l.
Proof.
  intros H. apply map_result_Ok in H. symmetry. eapply Forall2_length; eauto.
Qed.

Lemma series_take_length pos s s' :
  series_take pos s = Ok s' -> series_length s' = length pos.
Proof.
  destruct s; simpl; intros H; apply bind_Ok in H as [v [Hv H]];
    injection H as <-; simpl; eapply map_result_length; eauto.
Qed.

Lemma iloc_rectangular df pos df' :
  iloc df pos = Ok df' -> rectangular df' /\ len df' = length pos.
Proof.
  unfold iloc. intros H. apply bind_Ok in H as [idx [Hidx H]].
  apply bind_Ok in H as [cs [Hcs H]]. injection H as <-.
  assert (Hlen : length idx = length pos) by (eapply map_result_length; eauto).
  split; [|exact Hlen]. unfold rectangular, len. simpl. rewrite Hlen.
  apply map_result_Ok in Hcs.
  induction Hcs as [|[c s] [c' s'] l l' Hc _ IH]; constructor; [|exact IH].
  apply bind_Ok in Hc as [s0 [Hs0 Hc]]. injection Hc as _ <-. simpl.
  eapply series_take_length; eauto.
Qed.

Section Rectangular.

Context {fl : Float64}.
Variable log1p : num -> num.
Variable shuffle_split : nat -> result (list nat * list nat).

(** From a rectangular loaded table the cell makes a rectangular feature
    matrix and a target vector with one value per row of it; the train and
    test parts are rectangular and as long as their target vectors. *)
Theorem X_and_y_have_the_same_rows (df : DataFrame) (r : Prepared) :
  rectangular df ->
  prepare log1p shuffle_split df = Ok r ->
  rectangular (p_X r)
  /\ series_length (p_y r) = len (p_X r)
  /\ rectangular (p_X_train r)
  /\ series_length (p_y_train r) = len (p_X_train r)
  /\ rectangular (p_X_test r)
  /\ series_length (p_y_test r) = len (p_X_test r).
Proof.
  intros Hrect Hrun.
  destruct (prepare_Ok _ _ _ _ Hrun) as [d [_ [Hd [He [Hy [_ [HX Hsplit]]]]]]].
  assert (Hal : aligned (p_df r)).
  { eapply feature_engineering_aligned; [|exact He].
    eapply dropna_aligned; [|exact Hd]. now apply rectangular_aligned. }
  destruct (getitems_Ok _ _ _ HX) as [HidxX _].
  split.
  { unfold rectangular. apply Forall_forall. intros cs Hcs.
    unfold len. rewrite HidxX.
    exact (Hal _ _ (getitems_entries _ _ _ HX cs Hcs)). }
  split.
  { unfold getitem in Hy.
    destruct (assoc target (columns (p_df r))) as [y|] eqn:E; [|discriminate].
    injection Hy as <-. unfold len. rewrite HidxX. exact (Hal _ _ E). }
  unfold train_test_split in Hsplit.
  apply bind_Ok in Hsplit as [split [_ H]].
  apply bind_Ok in H as [a [Ha H]].
  apply bind_Ok in H as [b [Hb H]].
  apply bind_Ok in H as [c [Hc H]].
  apply bind_Ok in H as [e [He' H]].
  injection H as <- <- <- <-.
  destruct (iloc_rectangular _ _ _ Ha) as [Hra Hla].
  destruct (iloc_rectangular _ _ _ Hb) as [Hrb Hlb].
  rewrite Hla, Hlb.
  repeat split; auto; eapply series_take_length; eauto.
Qed.

End Rectangular.

Lemma X_and_y_have_the_same_rows_witness :
  exists r,
    prepare sample_log1p sample_split soil_table = Ok r
    /\ rectangular (p_X r)
    /\ series_length (p_y r) = len (p_X r)
    /\ rectangular (p_X_train r)
    /\ series_length (p_y_train r) = len (p_X_train r)
    /\ rectangular (p_X_test r)
    /\ series_length (p_y_test r) = len (p_X_test r).
Proof.
  eexists. split; [vm_compute; reflexivity|].
  apply (X_and_y_have_the_same_rows sample_log1p sample_split soil_table).
  - unfold rectangular. repeat constructor.
  - vm_compute. reflexivity.
Defined.

(** ** Rows of the matrix against rows of the loaded table *)

Lemma take_mask_aligned {A : Type} (m : list bool) :
  forall (l : list A) (a k label : nat),
    nth_error (take_mask m (seq a (length l))) k = Some label ->
    (a <= label)%nat
    /\ nth_error (take_mask m l) k = nth_error l (label - a).
Proof.
  induction m as [|b m IH]; intros [|x l] a k label; simpl;
    try (destruct k; discriminate).
  assert (Hrest : forall k', nth_error (take_mask m (seq (S a) (length l))) k'
                               = Some label ->
                               (a <= label)%nat
                               /\ nth_error (take_mask m l) k'
                                  = nth_error (x :: l) (label - a)).
  { intros k' H. destruct (IH l (S a) k' label H) as [Hle Hnth].
    split; [lia|]. rewrite Hnth.
    replace (label - a)%nat with (S (label - S a)) by lia. reflexivity. }
  destruct b; [|apply Hrest].
  destruct k as [|k]; simpl; [|apply Hrest].
  intros [= <-]. split; [lia|]. now rewrite Nat.sub_diag.
Qed.

Lemma series_get_mask (m : list bool) (s : Series) (n k label : nat) :
  series_length s = n ->
  nth_error (take_mask m (seq 0 n)) k = Some label ->
  series_get (series_mask m s) k = series_get s label.
Proof.
  intros Hlen Hk. destruct s as [v|v]; simpl in *; subst n;
    destruct (take_mask_aligned m v 0 k label Hk) as [_ H];
    rewrite Nat.sub_0_r in H; now rewrite H.
Qed.

Lemma assoc_Some_name {A : Type} (c : string) (l : list (string * A)) (v : A) :
  assoc c l = Some v -> In c (map fst l).
Proof.
  intros H. apply assoc_In in H. apply in_map_iff. exists (c, v). auto.
Qed.

Section RowsMatch.

Context {fl : Float64}.
Variable log1p : num -> num.
Variable shuffle_split : nat -> result (list nat * list nat).

(** In a rectangular loaded table, row [k] of the feature matrix and entry
    [k] of the target vector are the row of the loaded table whose label is
    the [k]-th label of the matrix: the target value is the loaded one, and
    so is the value of every column that is not an engineered feature. *)
Theorem X_and_y_rows_are_loaded_rows (df : DataFrame) (r : Prepared) :
  index df = seq 0 (len df) ->
  rectangular df ->
  prepare log1p shuffle_split df = Ok r ->
  exists t,
    assoc target (columns df) = Some t
    /\ forall k label,
         nth_error (index (p_X r)) k = Some label ->
         series_get (p_y r) k = series_get t label
         /\ forall c s,
              ~ In c engineered_names ->
              assoc c (columns (p_X r)) = Some s ->
              exists s0, assoc c (columns df) = Some s0
                         /\ series_get s k = series_get s0 label.
Proof.
  intros Hrange Hrect Hrun.
  pose proof (rectangular_aligned _ Hrect) as Hal.
  destruct (prepare_columns _ _ _ _ Hrun) as [t [Ht [_ [HidxX Hcols]]]].
  destruct (prepare_Ok _ _ _ _ Hrun) as [d [_ [_ [_ [Hy [_ [HX _]]]]]]].
  exists t. split; [exact Ht|].
  intros k label Hk. rewrite HidxX, Hrange in Hk. split.
  - unfold getitem in Hy. rewrite (Hcols target target_not_engineered), Ht in Hy.
    simpl in Hy. injection Hy as <-.
    apply (series_get_mask _ _ (len df)); [exact (Hal _ _ Ht) | exact Hk].
  - intros c s Hc Hs.
    destruct (getitems_Ok _ _ _ HX) as [_ Hget].
    rewrite Hget in Hs.
    2:{ rewrite <- (getitems_names _ _ _ HX). eapply assoc_Some_name; eauto. }
    rewrite (Hcols c Hc) in Hs.
    destruct (assoc c (columns df)) as [s0|] eqn:E; [|discriminate].
    injection Hs as <-. exists s0. split; [reflexivity|].
    apply (series_get_mask _ _ (len df)); [exact (Hal _ _ E) | exact Hk].
Qed.

End RowsMatch.

Lemma X_and_y_rows_are_loaded_rows_witness :
  exists r,
    prepare sample_log1p sample_split soil_table = Ok r
    /\ exists t,
      assoc target (columns soil_table) = Some t
      /\ forall k label,
           nth_error (index (p_X r)) k = Some label ->
           series_get (p_y r) k = series_get t label
           /\ forall c s,
                ~ In c engineered_names ->
                assoc c (columns (p_X r)) = Some s ->
                exists s0, assoc c (columns soil_table) = Some s0
                           /\ series_get s k = series_get s0 label.
Proof.
  eexists. split; [vm_compute; reflexivity|].
  apply (X_and_y_rows_are_loaded_rows sample_log1p sample_split soil_table).
  - reflexivity.
  - unfold rectangular. repeat constructor.
  - vm_compute. reflexivity.
Defined.

(** ** The cell returns on a well-formed table *)

Lemma map_result_total {A B : Type} (f : A -> result B) (l : list A) :
  (forall x, In x l -> exists y, f x = Ok y) -> exists l', map_result f l = Ok l'.
Proof.
  induction l as [|x l IH]; intros H; [exists []; reflexivity|].
  destruct (H x (or_introl eq_refl)) as [y Hy].
  destruct IH as [l' Hl']; [intros z Hz; apply H; right; exact Hz|].
  exists (y :: l'). simpl. now rewrite Hy, Hl'.
Qed.

Lemma getitems_total df cols :
  (forall c, In c cols -> has_column df c = true) ->
  exists X, getitems df cols = Ok X.
Proof.
  intros H. unfold getitems.
  destruct (map_result_total (fun c => s <- getitem df c ;; Ok (c, s)) cols)
    as [cs Hcs].
  { intros c Hc. specialize (H c Hc). unfold has_column in H. unfold getitem.
    destruct (assoc c (columns df)) as [s|]; [|discriminate].
    exists (c, s). reflexivity. }
  rewrite Hcs. simpl. eauto.
Qed.

Lemma name_has_column (df : DataFrame) (c : string) :
  In c (map fst (columns df)) -> has_column df c = true.
Proof.
  unfold has_column. induction (columns df) as [|[k v] l IH]; simpl; [tauto|].
  destruct (String.eqb_spec c k) as [->|Hne]; [reflexivity|].
  intros [Heq|Hin]; [congruence | now apply IH].
Qed.

Lemma numeric_cols_has_column df c :
  In c (numeric_cols df) -> has_column df c = true.
Proof.
  unfold numeric_cols, select_dtypes_number. intros H.
  apply filter_In in H as [H _]. apply in_map_iff in H as [cs [<- Hcs]].
  apply filter_In in Hcs as [Hcs _]. apply name_has_column. now apply in_map.
Qed.

Lemma take_positions_total {A : Type} (pos : list nat) (l : list A) :
  Forall (fun p => (p < length l)%nat) pos ->
  exists l', take_positions pos l = Ok l'.
Proof.
  intros H. apply map_result_total. intros p Hp.
  rewrite Forall_forall in H. specialize (H p Hp).
  destruct (nth_error l p) as [x|] eqn:E; [eauto|].
  apply nth_error_None in E. lia.
Qed.

Lemma series_take_total pos s :
  Forall (fun p => (p < series_length s)%nat) pos ->
  exists s', series_take pos s = Ok s'.
Proof.
  destruct s as [v|v]; simpl; intros H;
    destruct (take_positions_total pos v H) as [v' Hv]; rewrite Hv; simpl; eauto.
Qed.

Lemma iloc_total df pos :
  rectangular df ->
  Forall (fun p => (p < len df)%nat) pos ->
  exists df', iloc df pos = Ok df'.
Proof.
  intros Hrect Hpos. unfold iloc.
  destruct (take_positions_total pos (index df) Hpos) as [idx Hidx].
  rewrite Hidx. cbn [bind].
  destruct (map_result_total
              (fun cs => s <- series_take pos (snd cs) ;; Ok (fst cs, s))
              (columns df)) as [cs Hcs].
  { intros [c s] Hin. unfold rectangular in Hrect. rewrite Forall_forall in Hrect.
    specialize (Hrect (c, s) Hin). simpl in Hrect.
    destruct (series_take_total pos s) as [s' Hs']; [now rewrite Hrect|].
    simpl. rewrite Hs'. simpl. eauto. }
  rewrite Hcs. simpl. eauto.
Qed.

Lemma candidates_not_engineered c :
  In c categorical_cols_declared -> ~ In c engineered_names.
Proof.
  unfold categorical_cols_declared, engineered_names. simpl.
  intuition (subst; discriminate).
Qed.

Section Returns.

Context {fl : Float64}.
Variable log1p : num -> num.
Variable shuffle_split : nat -> result (list nat * list nat).

(** The cell raises nothing on a rectangular table that has the target
    column and numeric measurement columns, as soon as the split of the
    rows with a target gives positions among those rows: in particular the
    selection of the matrix columns finds every name it asks for. *)
Theorem prepare_returns (df : DataFrame) (t : Series) (train test : list nat) :
  rectangular df ->
  assoc target (columns df) = Some t ->
  numeric_sources df ->
  shuffle_split (count_true (notnull t)) = Ok (train, test) ->
  Forall (fun p => (p < count_true (notnull t))%nat) (train ++ test) ->
  exists r,
    prepare log1p shuffle_split df = Ok r
    /\ len (p_X r) = count_true (notnull t)
    /\ len (p_X_train r) = length train
    /\ len (p_X_test r) = length test.
Proof.
  intros Hrect Ht Hnum Hsplit Hpos.
  pose proof (rectangular_aligned _ Hrect) as Hal.
  (* dropna *)
  assert (Hd : exists d, dropna_subset df target = Ok d).
  { unfold dropna_subset, getitem. rewrite Ht. simpl. eauto. }
  destruct Hd as [d Hd].
  destruct (dropna_subset_Ok _ _ _ Hd) as [t' [Ht' [Hidx Hdcols]]].
  assert (t' = t) by congruence. subst t'.
  (* the feature block *)
  assert (Hnumd : numeric_sources d).
  { intros c s Hc Hs. rewrite Hdcols in Hs.
    destruct (assoc c (columns df)) as [s0|] eqn:E; [|discriminate].
    injection Hs as <-. specialize (Hnum c s0 Hc E). now destruct s0. }
  destruct (feature_engineering_total log1p d Hnumd) as [df' He].
  destruct (feature_engineering_Ok _ _ _ He) as [Hidx' [Hframe _]].
  assert (Hal' : aligned df').
  { eapply feature_engineering_aligned; [|exact He].
    eapply dropna_aligned; eauto. }
  (* the target vector *)
  assert (Hy : getitem df' target = Ok (series_mask (notnull t) t)).
  { unfold getitem. now rewrite (Hframe target target_not_engineered), Hdcols, Ht. }
  (* the matrix *)
  destruct (getitems_total df'
              (numeric_cols df' ++ List.filter (kept_col df) categorical_cols_declared))
    as [X HX].
  { intros c Hc. apply in_app_or in Hc as [Hc|Hc].
    - now apply numeric_cols_has_column.
    - apply filter_In in Hc as [Hdecl Hkept].
      unfold has_column. rewrite (Hframe c (candidates_not_engineered c Hdecl)), Hdcols.
      unfold kept_col in Hkept.
      destruct (assoc c (columns df)); [reflexivity | discriminate]. }
  destruct (getitems_Ok _ _ _ HX) as [HidxX _].
  assert (HlenX : len X = count_true (notnull t)).
  { unfold len. rewrite HidxX, Hidx', Hidx. apply take_mask_length.
    rewrite notnull_length. symmetry. exact (Hal _ _ Ht). }
  assert (HrectX : rectangular X).
  { unfold rectangular. apply Forall_forall. intros cs Hcs.
    unfold len. rewrite HidxX.
    exact (Hal' _ _ (getitems_entries _ _ _ HX cs Hcs)). }
  (* the split *)
  apply Forall_app in Hpos as [Htrain Htest].
  rewrite <- HlenX in Htrain, Htest.
  destruct (iloc_total X train HrectX Htrain) as [Xtr Hxtr].
  destruct (iloc_total X test HrectX Htest) as [Xte Hxte].
  assert (Hylen : series_length (series_mask (notnull t) t) = len X).
  { unfold len. rewrite HidxX. apply (Hal' target).
    unfold getitem in Hy. destruct (assoc target (columns df')); congruence. }
  destruct (series_take_total train (series_mask (notnull t) t)) as [ytr Hytr];
    [now rewrite Hylen|].
  destruct (series_take_total test (series_mask (notnull t) t)) as [yte Hyte];
    [now rewrite Hylen|].
  eexists. split; [|split; [|split]].
  - unfold prepare. rewrite filtered_cat_cols_eq. cbn [bind].
    rewrite Hd. cbn [bind]. rewrite He. cbn [bind]. rewrite Hy. cbn [bind].
    rewrite HX. cbn [bind]. unfold train_test_split.
    rewrite HlenX, Hsplit. cbn [bind fst snd].
    rewrite Hxtr, Hxte. cbn [bind]. rewrite Hytr, Hyte. cbn [bind].
    reflexivity.
  - exact HlenX.
  - cbn [p_X_train]. exact (proj2 (iloc_rectangular _ _ _ Hxtr)).
  - cbn [p_X_test]. exact (proj2 (iloc_rectangular _ _ _ Hxte)).
Qed.

End Returns.

Lemma prepare_returns_witness :
  exists r,
    prepare sample_log1p sample_split soil_table = Ok r
    /\ len (p_X r)
       = count_true (notnull (NumCol [Fin 7; NaN; Fin (13 # 2); NaN; Fin 5]))
    /\ len (p_X_train r) = length [1%nat; 2%nat]
    /\ len (p_X_test r) = length [0%nat].
Proof.
  apply (prepare_returns sample_log1p sample_split soil_table
           (NumCol [Fin 7; NaN; Fin (13 # 2); NaN; Fin 5]) [1%nat; 2%nat] [0%nat]).
  - unfold rectangular. repeat constructor.
  - reflexivity.
  - intros c s Hc Hs. unfold source_names in Hc. simpl in Hc.
    repeat (destruct Hc as [<-|Hc];
            [vm_compute in Hs; try discriminate; now injection Hs as <-|]).
    destruct Hc.
  - reflexivity.
  - vm_compute. repeat constructor.
Defined.

(** ** The nutrient sum, row by row *)

Lemma num_add_NaN {fl : Float64} a b c :
  a = NaN \/ b = NaN \/ c = NaN -> num_add (num_add a b) c = NaN.
Proof.
  intros [-> | [-> | ->]].
  - reflexivity.
  - destruct a; reflexivity.
  - destruct (num_add a b); reflexivity.
Qed.

Lemma num_add_finite {fl : Float64} qa qb qc :
  isnan (num_add (num_add (Fin qa) (Fin qb)) (Fin qc)) = false.
Proof.
  cbn [num_add]. pose proof (float_add_number qa qb) as H.
  destruct (float_add qa qb) as [| | |q]; try discriminate H; try reflexivity.
  apply float_add_number.
Qed.

(** When [N], [P] and [K] are numeric columns with a value somewhere,
    [NPK_sum] has a missing value in every row where one of the three is
    missing, and a number in every row where the three are finite: a
    missing nutrient is not counted as zero. *)
Theorem NPK_sum_rows {fl : Float64} (log1p : num -> num) (df df' : DataFrame)
    (n p k : list num) :
  feature_engineering log1p df = Ok df' ->
  lookup_all df ["N"; "P"; "K"] = Some [NumCol n; NumCol p; NumCol k] ->
  forallb has_value [NumCol n; NumCol p; NumCol k] = true ->
  exists r,
    assoc "NPK_sum" (columns df') = Some (NumCol r)
    /\ forall j a b c,
         nth_error n j = Some a -> nth_error p j = Some b ->
         nth_error k j = Some c ->
         exists y,
           nth_error r j = Some y
           /\ (a = NaN \/ b = NaN \/ c = NaN -> y = NaN)
           /\ (forall qa qb qc, a = Fin qa -> b = Fin qb -> c = Fin qc ->
                 isnan y = false).
Proof.
  intros Hrun Hsrc Hready.
  destruct (feature_engineering_Ok _ _ _ Hrun) as [_ [_ Hout]].
  assert (Hf : In NPK_sum_feature (engineered log1p)).
  { unfold engineered. simpl. tauto. }
  specialize (Hout _ Hf).
  unfold feature_outcome, computable, feature_series in Hout.
  cbn [NPK_sum_feature f_sources f_ready f_value f_name] in Hout.
  rewrite Hsrc, Hready in Hout.
  destruct Hout as [s [Hs Hcol]]. simpl in Hs. injection Hs as <-.
  eexists. split; [exact Hcol|].
  intros j a b c Ha Hb Hc.
  assert (Hr : nth_error (map2 num_add (map2 num_add n p) k) j
               = Some (num_add (num_add a b) c)).
  { apply nth_error_map2; [|exact Hc]. now apply nth_error_map2. }
  eexists. split; [exact Hr|]. split.
  - intros Hnan. now apply num_add_NaN.
  - intros qa qb qc -> -> ->. apply num_add_finite.
Qed.

Definition nutrient_table : DataFrame :=
  {| index := seq 0 3;
     columns := [("N", NumCol [Fin 1; NaN; Fin 3]);
                 ("P", NumCol [Fin 10; Fin 20; Fin 30]);
                 ("K", NumCol [Fin 100; Fin 200; NaN]);
                 ("pH_H2O", NumCol [Fin 7; Fin 6; Fin 5])] |}.

Lemma NPK_sum_rows_witness :
  exists df',
    feature_engineering sample_log1p nutrient_table = Ok df'
    /\ exists r,
      assoc "NPK_sum" (columns df') = Some (NumCol r)
      /\ forall j a b c,
           nth_error [Fin 1; NaN; Fin 3] j = Some a ->
           nth_error [Fin 10; Fin 20; Fin 30] j = Some b ->
           nth_error [Fin 100; Fin 200; NaN] j = Some c ->
           exists y,
             nth_error r j = Some y
             /\ (a = NaN \/ b = NaN \/ c = NaN -> y = NaN)
             /\ (forall qa qb qc, a = Fin qa -> b = Fin qb -> c = Fin qc ->
                   isnan y = false).
Proof.
  eexists. split; [vm_compute; reflexivity|].
  apply (NPK_sum_rows sample_log1p nutrient_table).
  - vm_compute. reflexivity.
  - reflexivity.
  - reflexivity.
Defined.

Example nutrient_table_NPK_sum :
  exists df',
    feature_engineering sample_log1p nutrient_table = Ok df'
    /\ assoc "NPK_sum" (columns df') = Some (NumCol [Fin 111; NaN; NaN]).
Proof. eexists. split; vm_compute; reflexivity. Qed.

(** ** The builders and the two lists of the configuration *)

Lemma dense_stack_firstn activation l2_reg ns ds :
  dense_stack activation l2_reg ns (firstn (length ns) ds)
  = dense_stack activation l2_reg ns ds.
Proof. unfold dense_stack. now rewrite <- combine_firstn_l. Qed.

(** What a builder returns from the layers it adds and the learning rate
    it compiles with: the exception of the first layer that Keras refuses,
    or the compiled model of these layers. *)
Definition built {keras : Keras} (ls : list layer) (learning_rate : Q)
  : result Model :=
  match first_refusal [] ls with
  | Some e => Raise e
  | None => Ok {| layers := ls;
                  compiled := Some {| c_optimizer := Adam learning_rate;
                                      c_loss := "mse"; c_metrics := ["mae"] |} |}
  end.

(** The layers of the convolutional builder before its dense stack. *)
Definition conv_stages (input_dim : Z) (activation : string)
    (cnn_filters kernel_size : Z) : list layer :=
  [Reshape [input_dim; 1%Z] [input_dim];
   Conv1D cnn_filters kernel_size "same" (Some activation);
   BatchNormalization;
   Conv1D (cnn_filters * 2) kernel_size "same" (Some activation);
   BatchNormalization;
   GlobalAveragePooling1D].

(** The hidden layers added when the list of rates is the shorter one: a
    block for each rate, then the dense and normalization layers of the
    first block that has no rate. *)
Definition before_missing_rate (activation : string) (l2_reg : Q)
    (neurons_layers : list Z) (dropout_rates : list Q) : list layer :=
  flat_map (fun nd => hidden_block activation l2_reg (fst nd) (snd nd))
           (combine neurons_layers dropout_rates)
  ++ match nth_error neurons_layers (length dropout_rates) with
     | Some neurons =>
         [Dense neurons (Some activation) (Some (l2 l2_reg)) "he_normal";
          BatchNormalization]
     | None => []
     end.

(** What a builder raises when a rate is missing: the exception of the
    first layer that Keras refuses among those added before the rate is
    looked up, or else [IndexError]. *)
Definition stopped {keras : Keras} (ls : list layer) : result Model :=
  match first_refusal [] ls with
  | Some e => Raise e
  | None => Raise IndexError
  end.

Section BuildersAndRates.

Context {keras : Keras}.

Lemma add_all_built (ls : list layer) (learning_rate : Q) :
  (model <- add_all Sequential ls ;;
   Ok (compile model (Adam learning_rate) "mse" ["mae"]))
  = built ls learning_rate.
Proof.
  rewrite add_all_outcome. unfold built. cbn [Sequential layers app].
  destruct (first_refusal [] ls); reflexivity.
Qed.

Lemma add_all_stopped (ls : list layer) :
  (_ <- add_all Sequential ls ;; Raise IndexError) = stopped ls.
Proof.
  rewrite add_all_outcome. unfold stopped. cbn [Sequential layers app].
  destruct (first_refusal [] ls); reflexivity.
Qed.

(** The loop over the hidden layers when a rate is missing. *)
Lemma hidden_loop_short (activation : string) (l2_reg : Q) (ds : list Q) :
  forall (ns : list Z) (k : nat) (m : Model) (n : Z),
    (k <= length ds)%nat ->
    nth_error ns (length ds - k) = Some n ->
    for_each (combine (seq k (length ns)) ns)
             (add_hidden_block ds activation l2_reg) m
    = (_ <- add_all m
              (flat_map (fun nd => hidden_block activation l2_reg
                                     (fst nd) (snd nd))
                        (combine ns (skipn k ds))
               ++ [Dense n (Some activation) (Some (l2 l2_reg)) "he_normal";
                   BatchNormalization]) ;;
       Raise IndexError).
Proof.
  induction ns as [|n0 ns IH]; intros k m n Hk Hn.
  - destruct (length ds - k)%nat; discriminate Hn.
  - cbn [length seq combine for_each].
    destruct (nth_error ds k) as [d|] eqn:Hd.
    + assert (Hlt : (k < length ds)%nat) by (apply nth_error_Some; congruence).
      rewrite (add_hidden_block_rate _ _ _ _ _ _ _ Hd).
      rewrite (skipn_nth_error _ _ _ Hd). cbn [combine flat_map fst snd].
      rewrite <- app_assoc, add_all_app.
      destruct (add_all m _) as [m1|e]; cbn [bind]; [|reflexivity].
      apply IH; [lia|].
      replace (length ds - k)%nat with (S (length ds - S k)) in Hn by lia.
      exact Hn.
    + apply nth_error_None in Hd.
      replace (length ds - k)%nat with 0%nat in Hn by lia.
      injection Hn as ->.
      rewrite (skipn_all2 ds) by exact Hd. destruct ns; cbn [combine flat_map app].
      * rewrite (add_hidden_block_no_rate _ _ _ _ _ _ (proj2 (nth_error_None ds k) Hd)).
        destruct (add_all m _); reflexivity.
      * rewrite (add_hidden_block_no_rate _ _ _ _ _ _ (proj2 (nth_error_None ds k) Hd)).
        destruct (add_all m _); reflexivity.
Qed.

Lemma create_model_short input_dim ns ds activation learning_rate l2_reg :
  (length ds < length ns)%nat ->
  create_model input_dim ns ds activation learning_rate l2_reg
  = stopped (Input [input_dim] :: before_missing_rate activation l2_reg ns ds).
Proof.
  intros Hlen. rewrite <- add_all_stopped. unfold before_missing_rate.
  destruct (nth_error ns (length ds)) as [n|] eqn:Hn.
  2:{ apply nth_error_None in Hn. lia. }
  unfold create_model, enumerate.
  unfold add_all at 1. cbn [for_each].
  change (for_each ?l add ?m) with (add_all m l).
  destruct (add Sequential _) as [m0|e]; cbn [bind]; [|reflexivity].
  rewrite (hidden_loop_short _ _ _ _ 0 m0 n) by (rewrite ?Nat.sub_0_r; auto; lia).
  cbn [skipn]. destruct (add_all m0 _); reflexivity.
Qed.

Lemma create_cnn_model_short input_dim ns ds activation learning_rate l2_reg
    cnn_filters kernel_size :
  (length ds < length ns)%nat ->
  create_cnn_model input_dim ns ds activation learning_rate l2_reg
                   cnn_filters kernel_size
  = stopped (conv_stages input_dim activation cnn_filters kernel_size
             ++ before_missing_rate activation l2_reg ns ds).
Proof.
  intros Hlen. rewrite <- add_all_stopped. unfold before_missing_rate, conv_stages.
  destruct (nth_error ns (length ds)) as [n|] eqn:Hn.
  2:{ apply nth_error_None in Hn. lia. }
  unfold create_cnn_model, enumerate.
  unfold add_all at 1. cbn [for_each app].
  change (for_each ?l add ?m) with (add_all m l).
  destruct (add Sequential _) as [m0|e]; cbn [bind]; [|reflexivity].
  destruct (add m0 _) as [m1|e]; cbn [bind]; [|reflexivity].
  destruct (add m1 _) as [m2|e]; cbn [bind]; [|reflexivity].
  destruct (add m2 _) as [m3|e]; cbn [bind]; [|reflexivity].
  destruct (add m3 _) as [m4|e]; cbn [bind]; [|reflexivity].
  destruct (add m4 _) as [m5|e]; cbn [bind]; [|reflexivity].
  rewrite (hidden_loop_short _ _ _ _ 0 m5 n) by (rewrite ?Nat.sub_0_r; auto; lia).
  cbn [skipn]. destruct (add_all m5 _); reflexivity.
Qed.

(** Each builder returns exactly when there are at least as many dropout
    rates as widths and Keras takes every layer.  With enough rates the
    outcome is the one of Keras on the layers of the model, and the rates
    beyond the number of widths play no part in it.  With too few rates
    the builder raises: [IndexError] at the first hidden layer without a
    rate, unless Keras has refused a layer added before. *)
Theorem builders_and_dropout_rates (input_dim : Z) (neurons_layers : list Z)
    (dropout_rates : list Q) (activation : string) (learning_rate l2_reg : Q)
    (cnn_filters kernel_size : Z) :
  ((length neurons_layers <= length dropout_rates)%nat ->
   create_model input_dim neurons_layers dropout_rates activation
                learning_rate l2_reg
   = built (Input [input_dim]
            :: dense_stack activation l2_reg neurons_layers dropout_rates)
           learning_rate
   /\ create_cnn_model input_dim neurons_layers dropout_rates activation
                       learning_rate l2_reg cnn_filters kernel_size
      = built (conv_stages input_dim activation cnn_filters kernel_size
               ++ dense_stack activation l2_reg neurons_layers dropout_rates)
              learning_rate
   /\ create_model input_dim neurons_layers
                   (firstn (length neurons_layers) dropout_rates)
                   activation learning_rate l2_reg
      = create_model input_dim neurons_layers dropout_rates activation
                     learning_rate l2_reg
   /\ create_cnn_model input_dim neurons_layers
                       (firstn (length neurons_layers) dropout_rates)
                       activation learning_rate l2_reg cnn_filters kernel_size
      = create_cnn_model input_dim neurons_layers dropout_rates activation
                         learning_rate l2_reg cnn_filters kernel_size)
  /\ ((length dropout_rates < length neurons_layers)%nat ->
      create_model input_dim neurons_layers dropout_rates activation
                   learning_rate l2_reg
      = stopped (Input [input_dim]
                 :: before_missing_rate activation l2_reg neurons_layers
                                        dropout_rates)
      /\ create_cnn_model input_dim neurons_layers dropout_rates activation
                          learning_rate l2_reg cnn_filters kernel_size
         = stopped (conv_stages input_dim activation cnn_filters kernel_size
                    ++ before_missing_rate activation l2_reg neurons_layers
                                           dropout_rates))
  /\ (forall ls e, stopped ls <> Ok e).
Proof.
  split; [|split].
  - intros Hle.
    assert (Hfirst : (length neurons_layers
                      <= length (firstn (length neurons_layers) dropout_rates))%nat).
    { rewrite length_firstn. lia. }
    rewrite (create_model_add_all _ _ _ _ _ _ Hfirst).
    rewrite (create_cnn_model_add_all _ _ _ _ _ _ _ _ Hfirst).
    rewrite (create_model_add_all _ _ _ _ _ _ Hle).
    rewrite (create_cnn_model_add_all _ _ _ _ _ _ _ _ Hle).
    rewrite dense_stack_firstn, !add_all_built. auto.
  - intros Hlt. split.
    + now apply create_model_short.
    + now apply create_cnn_model_short.
  - intros ls e. unfold stopped. destruct (first_refusal [] ls); discriminate.
Qed.

End BuildersAndRates.

Example builders_on_short_and_refused_lists :
  create_model 10 [128; 64]%Z [4 # 10] "relu" (1 # 1000) (1 # 1000)
  = Raise IndexError
  /\ create_model 10 [128; 0]%Z [4 # 10] "relu" (1 # 1000) (1 # 1000)
     = Raise ValueError
  /\ create_model 10 [128%Z] [4 # 10; 3 # 2] "relu" (1 # 1000) (1 # 1000)
     = create_model 10 [128%Z] [4 # 10] "relu" (1 # 1000) (1 # 1000).
Proof. repeat split; reflexivity. Qed.

(** ** The names of the parameters of a trial *)

Lemma str_of_nat_inj (i j : nat) : str_of_nat i = str_of_nat j -> i = j.
Proof.
  unfold str_of_nat. intros H.
  apply (f_equal NilEmpty.uint_of_string) in H. rewrite !NilEmpty.usu in H.
  injection H as H. apply (f_equal Nat.of_uint) in H.
  now rewrite !Unsigned.of_to in H.
Qed.

Lemma append_inj (prefix s s' : string) :
  (prefix ++ s)%string = (prefix ++ s')%string -> s = s'.
Proof.
  induction prefix as [|c prefix IH]; simpl; [tauto|].
  intros [= H]. now apply IH.
Qed.

(** The names that the objective asks for outside its loop. *)
Definition fixed_names : list string :=
  ["n_layers"; "activation"; "learning_rate"; "l2_reg"; "batch_size"].

(** The names built for the layers never collide: two layers have
    different names for their widths and for their dropout rates, a width
    is never named like a dropout rate, and neither is named like one of the
    parameters asked for outside the loop. *)
Theorem layer_parameter_names_distinct (i j : nat) :
  (n_units_l i = n_units_l j <-> i = j)
  /\ (dropout_l i = dropout_l j <-> i = j)
  /\ n_units_l i <> dropout_l j
  /\ ~ In (n_units_l i) fixed_names
  /\ ~ In (dropout_l i) fixed_names.
Proof.
  unfold n_units_l, dropout_l, fixed_names.
  split; [|split; [|split; [|split]]].
  - split; [|now intros ->]. intros H. apply append_inj in H.
    now apply str_of_nat_inj.
  - split; [|now intros ->]. intros H. apply append_inj in H.
    now apply str_of_nat_inj.
  - simpl. discriminate.
  - simpl. intuition discriminate.
  - simpl. intuition discriminate.
Qed.

Example layer_names_at_ten :
  n_units_l 10 = "n_units_l10" /\ dropout_l 0 = "dropout_l0".
Proof. split; reflexivity. Qed.

(** ** The model rebuilt from a trial *)

Lemma Forall2_seq_nth {B : Type} (P : nat -> B -> Prop) (l : list B) :
  forall a n,
    Forall2 P (seq a n) l ->
    length l = n /\ forall i x, nth_error l i = Some x -> P (a + i)%nat x.
Proof.
  induction l as [|y l IH]; intros a n H.
  - inversion H as [Hs|]; subst. symmetry in Hs.
    destruct n; [|discriminate]. split; [reflexivity|].
    intros [|i] x; discriminate.
  - destruct n as [|n]; [inversion H|]. simpl in H.
    inversion H as [|? ? ? ? Hy Hrest]; subst.
    destruct (IH (S a) n Hrest) as [Hlen Hnth]. split; [simpl; now rewrite Hlen|].
    intros [|i] x; simpl.
    + intros [= <-]. now rewrite Nat.add_0_r.
    + intros Hx. replace (a + S i)%nat with (S a + i)%nat by lia. now apply Hnth.
Qed.

Lemma dense_stack_length activation l2_reg ns ds :
  length (dense_stack activation l2_reg ns ds)
  = (3 * Nat.min (length ns) (length ds) + 1)%nat.
Proof.
  unfold dense_stack. rewrite length_app, <- length_combine. cbn [length].
  induction (combine ns ds) as [|x l IH]; simpl in *; lia.
Qed.

Lemma params_as_int (t : FrozenTrial) (name : string) (z : Z) :
  (v <- params_getitem t name ;; as_int v) = Ok z ->
  assoc name (params t) = Some (PInt z).
Proof.
  unfold params_getitem. destruct (assoc name (params t)) as [[?|?|?]|];
    simpl; try discriminate. now intros [= ->].
Qed.

Lemma params_as_float (t : FrozenTrial) (name : string) (q : Q) :
  (v <- params_getitem t name ;; as_float v) = Ok q ->
  assoc name (params t) = Some (PFloat q).
Proof.
  unfold params_getitem. destruct (assoc name (params t)) as [[?|?|?]|];
    simpl; try discriminate. now intros [= ->].
Qed.

Lemma params_as_str (t : FrozenTrial) (name : string) (s : string) :
  (v <- params_getitem t name ;; as_str v) = Ok s ->
  assoc name (params t) = Some (PStr s).
Proof.
  unfold params_getitem. destruct (assoc name (params t)) as [[?|?|?]|];
    simpl; try discriminate. now intros [= ->].
Qed.

(** When the cell that rebuilds the best model returns, the trial holds
    every parameter the cell reads: the layer count, one width and one
    dropout rate per layer under the names of the objective, the
    activation, the learning rate and the L2 strength.  The model has one
    hidden block per layer, of those widths and rates in order, and is
    compiled at that learning rate. *)
Theorem best_model_reads_params {keras : Keras} (input_dim : Z)
    (t : FrozenTrial) (model : Model) :
  best_model input_dim t = Ok model ->
  exists n_layers widths rates activation learning_rate l2_reg,
    assoc "n_layers" (params t) = Some (PInt n_layers)
    /\ length widths = Z.to_nat n_layers
    /\ length rates = Z.to_nat n_layers
    /\ (forall i w, nth_error widths i = Some w ->
          assoc (n_units_l i) (params t) = Some (PInt w))
    /\ (forall i d, nth_error rates i = Some d ->
          assoc (dropout_l i) (params t) = Some (PFloat d))
    /\ assoc "activation" (params t) = Some (PStr activation)
    /\ assoc "learning_rate" (params t) = Some (PFloat learning_rate)
    /\ assoc "l2_reg" (params t) = Some (PFloat l2_reg)
    /\ layers model = Input [input_dim] :: dense_stack activation l2_reg widths rates
    /\ length (layers model) = (3 * Z.to_nat n_layers + 2)%nat
    /\ compiled model = Some {| c_optimizer := Adam learning_rate;
                                c_loss := "mse"; c_metrics := ["mae"] |}.
Proof.
  unfold best_model. intros H.
  apply bind_Ok in H as [n [Hn H]].
  apply bind_Ok in H as [ws [Hws H]].
  apply bind_Ok in H as [ds [Hds H]].
  apply bind_Ok in H as [act [Hact H]].
  apply bind_Ok in H as [lr [Hlr H]].
  apply bind_Ok in H as [l2r [Hl2 H]].
  apply params_as_int in Hn. apply params_as_str in Hact.
  apply params_as_float in Hlr. apply params_as_float in Hl2.
  apply map_result_Ok, Forall2_seq_nth in Hws as [Hwlen Hw].
  apply map_result_Ok, Forall2_seq_nth in Hds as [Hdlen Hd].
  apply create_model_Ok in H; [|lia]. subst model.
  exists n, ws, ds, act, lr, l2r. cbn [layers compiled].
  repeat split; try assumption.
  - intros i w Hi. apply params_as_int. exact (Hw i w Hi).
  - intros i d Hi. apply params_as_float. exact (Hd i d Hi).
  - cbn [length]. rewrite dense_stack_length. lia.
Qed.

Definition sample_trial : FrozenTrial :=
  {| number := 3;
     params := [("n_layers", PInt 2); ("n_units_l0", PInt 64);
                ("dropout_l0", PFloat (3 # 10)); ("n_units_l1", PInt 32);
                ("dropout_l1", PFloat (2 # 10)); ("activation", PStr "elu");
                ("learning_rate", PFloat (1 # 1000)); ("l2_reg", PFloat (1 # 10000));
                ("batch_size", PInt 32)];
     distributions := [];
     value := 9 # 100 |}.

Lemma best_model_reads_params_witness :
  exists model,
    best_model 10 sample_trial = Ok model
    /\ exists n_layers widths rates activation learning_rate l2_reg,
      assoc "n_layers" (params sample_trial) = Some (PInt n_layers)
      /\ length widths = Z.to_nat n_layers
      /\ length rates = Z.to_nat n_layers
      /\ (forall i w, nth_error widths i = Some w ->
            assoc (n_units_l i) (params sample_trial) = Some (PInt w))
      /\ (forall i d, nth_error rates i = Some d ->
            assoc (dropout_l i) (params sample_trial) = Some (PFloat d))
      /\ assoc "activation" (params sample_trial) = Some (PStr activation)
      /\ assoc "learning_rate" (params sample_trial) = Some (PFloat learning_rate)
      /\ assoc "l2_reg" (params sample_trial) = Some (PFloat l2_reg)
      /\ layers model = Input [10%Z] :: dense_stack activation l2_reg widths rates
      /\ length (layers model) = (3 * Z.to_nat n_layers + 2)%nat
      /\ compiled model = Some {| c_optimizer := Adam learning_rate;
                                  c_loss := "mse"; c_metrics := ["mae"] |}.
Proof.
  eexists. split; [vm_compute; reflexivity|].
  apply (best_model_reads_params 10 sample_trial).
  vm_compute. reflexivity.
Defined.

Lemma map_result_raise {A B : Type} (f : A -> result B) (l1 l2 : list A) (x : A)
    (e : exn) :
  (forall y, In y l1 -> exists z, f y = Ok z) ->
  f x = Raise e ->
  map_result f (l1 ++ x :: l2) = Raise e.
Proof.
  intros Hok Hx. induction l1 as [|y l1 IH]; simpl.
  - now rewrite Hx.
  - destruct (Hok y (or_introl eq_refl)) as [z Hz]. rewrite Hz. cbn [bind].
    rewrite IH by (intros y' Hy'; apply Hok; right; exact Hy'). reflexivity.
Qed.

Lemma seq_split_at (i n : nat) :
  (i < n)%nat -> seq 0 n = seq 0 i ++ i :: seq (S i) (n - S i).
Proof.
  intros H. replace n with (i + S (n - S i))%nat at 1 by lia.
  rewrite seq_app. reflexivity.
Qed.

(** When the trial lacks the width of a layer below its layer count, and
    holds the widths of the layers before it, the cell stops with a
    [KeyError] on the name of that width. *)
Theorem best_model_missing_width {keras : Keras} (input_dim : Z)
    (t : FrozenTrial) (n_layers : Z) (i : nat) :
  assoc "n_layers" (params t) = Some (PInt n_layers) ->
  (i < Z.to_nat n_layers)%nat ->
  (forall j, (j < i)%nat -> exists w, assoc (n_units_l j) (params t) = Some (PInt w)) ->
  assoc (n_units_l i) (params t) = None ->
  best_model input_dim t = Raise (KeyError (n_units_l i)).
Proof.
  intros Hn Hi Hbefore Hmissing. unfold best_model.
  unfold params_getitem at 1. rewrite Hn. cbn [bind as_int].
  unfold range. rewrite (seq_split_at i (Z.to_nat n_layers) Hi).
  rewrite (map_result_raise _ _ _ i (KeyError (n_units_l i))); [reflexivity| |].
  - intros j Hj. apply in_seq in Hj.
    destruct (Hbefore j) as [w Hw]; [lia|].
    exists w. unfold params_getitem. now rewrite Hw.
  - unfold params_getitem. now rewrite Hmissing.
Qed.

Definition trial_without_second_width : FrozenTrial :=
  {| number := 0;
     params := [("n_layers", PInt 2); ("n_units_l0", PInt 64);
                ("dropout_l0", PFloat (3 # 10))];
     distributions := [];
     value := 1 |}.

Lemma best_model_missing_width_witness :
  best_model 10 trial_without_second_width = Raise (KeyError (n_units_l 1)).
Proof.
  apply (best_model_missing_width 10 trial_without_second_width 2 1).
  - reflexivity.
  - vm_compute. lia.
  - intros j Hj. assert (j = 0%nat) by lia. subst j. exists 64%Z. reflexivity.
  - reflexivity.
Defined.

(** ** Running the feature block again *)

Lemma assoc_set_same {A : Type} (k : string) (v : A) (l : list (string * A)) :
  assoc k l = Some v -> assoc_set k v l = l.
Proof.
  induction l as [|[k' w] l IH]; simpl; [discriminate|].
  destruct (String.eqb k k').
  - now intros [= ->].
  - intros H. now rewrite IH.
Qed.

Lemma setitem_same df k v :
  assoc k (columns df) = Some v -> setitem df k v = df.
Proof.
  intros H. unfold setitem. rewrite (assoc_set_same _ _ _ H). now destruct df.
Qed.

Lemma for_each_fixed {A S : Type} (body : S -> A -> result S) (s : S) (l : list A) :
  (forall x, In x l -> body s x = Ok s) -> for_each l body s = Ok s.
Proof.
  induction l as [|x l IH]; intros H; simpl; [reflexivity|].
  rewrite (H x) by (left; reflexivity). cbn [bind].
  apply IH. intros y Hy. apply H. right; exact Hy.
Qed.

(** The feature block run on its own result changes nothing: every feature
    is computed again from the same source columns and written over itself. *)
Theorem feature_engineering_idempotent {fl : Float64} (log1p : num -> num)
    (df df' : DataFrame) :
  feature_engineering log1p df = Ok df' ->
  feature_engineering log1p df' = Ok df'.
Proof.
  intros Hrun.
  destruct (feature_engineering_Ok _ _ _ Hrun) as [_ [Hframe Hout]].
  rewrite feature_engineering_table. apply for_each_fixed.
  intros f Hf. specialize (Hout f Hf). unfold feature_outcome in Hout.
  assert (Hsame : lookup_all df' (f_sources f) = lookup_all df (f_sources f)).
  { apply lookup_all_agree. intros c Hc. apply Hframe. intros Heng.
    destruct (engineered_by_name log1p c Heng) as [g [Hg Hname]].
    apply (engineered_independent log1p g f Hg Hf). now rewrite Hname. }
  unfold apply_feature, computable, feature_series in *. rewrite Hsame.
  destruct (lookup_all df (f_sources f)) as [ss|]; [|reflexivity].
  destruct (f_ready f ss); [|reflexivity].
  destruct Hout as [s [Hs Hcol]]. rewrite Hs. cbn [bind].
  now rewrite setitem_same.
Qed.

Lemma feature_engineering_idempotent_witness :
  exists df',
    feature_engineering sample_log1p soil_table = Ok df'
    /\ feature_engineering sample_log1p df' = Ok df'.
Proof.
  eexists. split; [vm_compute; reflexivity|].
  apply (feature_engineering_idempotent sample_log1p soil_table).
  vm_compute. reflexivity.
Defined.

(** ** The ratios away from a zero denominator *)

Lemma ratio_feature_column {fl : Float64} (log1p : num -> num)
    (df df' : DataFrame) (f : feature) (a b : list num) :
  feature_engineering log1p df = Ok df' ->
  In f ratio_features ->
  lookup_all df (f_sources f) = Some [NumCol a; NumCol b] ->
  assoc (f_name f) (columns df')
  = Some (NumCol (map2 num_div a (map guarded b))).
Proof.
  intros Hrun Hf Hsrc.
  destruct (feature_engineering_Ok _ _ _ Hrun) as [_ [_ Hout]].
  specialize (Hout f (ratio_features_engineered log1p f Hf)).
  unfold feature_outcome, computable, feature_series in Hout.
  rewrite Hsrc in Hout.
  assert (Hval : f_ready f [NumCol a; NumCol b] = true
                 /\ f_value f [NumCol a; NumCol b]
                    = Ok (NumCol (map2 num_div a (map guarded b)))).
  { unfold ratio_features in Hf. simpl in Hf.
    destruct Hf as [<-|[<-|[<-|[]]]]; split; reflexivity. }
  destruct Hval as [Hready Hval]. rewrite Hready, Hval in Hout.
  destruct Hout as [s [Hs Hcol]]. now injection Hs as <-.
Qed.

(** [np.isinf] *)
Definition isinf (x : num) : bool :=
  match x with PInf | NInf => true | _ => false end.

Lemma guarded_off_zero (d : num) : num_eqb d zero = false -> guarded d = d.
Proof. unfold guarded. now intros ->. Qed.

Lemma isnan_guarded_ratio {fl : Float64} (x d : num) :
  isnan (num_div x (guarded d)) = isnan x || isnan d || (isinf x && isinf d).
Proof.
  destruct d as [| | |q]; [destruct x; reflexivity..|].
  unfold guarded, zero, num_eqb.
  destruct (Qeq_bool q 0) eqn:Eq.
  - rewrite num_div_epsilon_isnan. destruct x; reflexivity.
  - destruct x as [| | |p]; cbn [num_div isnan isinf orb andb]; try reflexivity.
    + now destruct (Qle_bool 0 q).
    + now destruct (Qle_bool 0 q).
    + rewrite Eq. now apply float_div_number.
Qed.

(** The guard of the ratio features is for zeros only: where the
    denominator is not zero the ratio is the quotient by the denominator as
    it is.  A ratio is missing exactly when its numerator or its
    denominator is missing or both are infinite, whether the denominator is
    zero or not; where the denominator is infinite the ratio of a finite
    numerator is zero. *)
Theorem ratio_rows_by_denominator {fl : Float64} (log1p : num -> num)
    (df df' : DataFrame) (f : feature) (a b : list num) :
  feature_engineering log1p df = Ok df' ->
  In f ratio_features ->
  lookup_all df (f_sources f) = Some [NumCol a; NumCol b] ->
  exists r,
    assoc (f_name f) (columns df') = Some (NumCol r)
    /\ length r = Nat.min (length a) (length b)
    /\ forall j x d,
         nth_error a j = Some x -> nth_error b j = Some d ->
         exists y,
           nth_error r j = Some y
           /\ (num_eqb d zero = false -> y = num_div x d)
           /\ isnan y = isnan x || isnan d || (isinf x && isinf d)
           /\ (forall p, x = Fin p -> isinf d = true -> y = Fin 0).
Proof.
  intros Hrun Hf Hsrc. eexists.
  split; [eapply ratio_feature_column; eauto|]. split.
  - assert (H : forall (l : list num) (l' : list num),
               length (map2 num_div l l') = Nat.min (length l) (length l')).
    { induction l as [|x l IH]; intros [|y l']; simpl; auto. }
    now rewrite H, length_map.
  - intros j x d Hx Hd.
    assert (Hr : nth_error (map2 num_div a (map guarded b)) j
                 = Some (num_div x (guarded d))).
    { apply nth_error_map2; [exact Hx|]. now rewrite nth_error_map, Hd. }
    eexists. split; [exact Hr|]. split; [|split].
    + intros Hd0. now rewrite guarded_off_zero.
    + apply isnan_guarded_ratio.
    + intros p -> Hinf. destruct d; try discriminate Hinf; reflexivity.
Qed.

Lemma ratio_rows_by_denominator_witness :
  exists df',
    feature_engineering sample_log1p soil_table = Ok df'
    /\ exists r,
      assoc "CN_ratio" (columns df') = Some (NumCol r)
      /\ length r = Nat.min (length [Fin 0; Fin 2; Fin 3; Fin 0; Fin 6])
                            (length [Fin 1; Fin 0; Fin 0; Fin 2; Fin 3])
      /\ forall j x d,
           nth_error [Fin 0; Fin 2; Fin 3; Fin 0; Fin 6] j = Some x ->
           nth_error [Fin 1; Fin 0; Fin 0; Fin 2; Fin 3] j = Some d ->
           exists y,
             nth_error r j = Some y
             /\ (num_eqb d zero = false -> y = num_div x d)
             /\ isnan y = isnan x || isnan d || (isinf x && isinf d)
             /\ (forall p, x = Fin p -> isinf d = true -> y = Fin 0).
Proof.
  eexists. split; [vm_compute; reflexivity|].
  apply (ratio_rows_by_denominator sample_log1p soil_table _
           (ratio_feature "CN_ratio" "OC" "N")).
  - vm_compute. reflexivity.
  - simpl. tauto.
  - reflexivity.
Defined.

(** ** A numeric column among the categorical candidates *)

(** A table whose [Depth] is a number: few distinct values, none missing. *)
Definition numeric_depth_table : DataFrame :=
  {| index := seq 0 4;
     columns := [("Depth", NumCol [Fin 10; Fin 20; Fin 10; Fin 20]);
                 ("EC", NumCol [Fin 12; Fin 8; Fin 4; Fin 9]);
                 ("pH_H2O", NumCol [Fin 7; Fin 6; Fin 5; Fin 8])] |}.

Section NumericCandidate.

Context {fl : Float64}.
Variable log1p : num -> num.
Variable shuffle_split : nat -> result (list nat * list nat).

(** A candidate categorical column of numeric dtype that passes the filter
    is selected twice into the feature matrix: once among the numeric
    columns and once among the filtered categorical ones. *)
Theorem numeric_candidate_selected_twice (df : DataFrame) (r : Prepared)
    (col : string) (v : list num) :
  prepare log1p shuffle_split df = Ok r ->
  assoc col (columns df) = Some (NumCol v) ->
  In col (p_filtered_cat_cols r) ->
  exists before between after,
    map fst (columns (p_X r)) = before ++ col :: between ++ col :: after
    /\ In col (numeric_cols (p_df r)).
Proof.
  intros Hrun Hv Hkept.
  destruct (prepare_columns _ _ _ _ Hrun) as [t [_ [_ [_ Hcols]]]].
  destruct (prepare_Ok _ _ _ _ Hrun) as [d [Hf [_ [_ [_ [Hnum [HX _]]]]]]].
  destruct (filtered_cat_cols_In _ _ _ Hf Hkept) as [Hdecl _].
  assert (Hnumeric : In col (numeric_cols (p_df r))).
  { apply (In_numeric_cols _ _ (take_mask (notnull t) v)).
    - rewrite (Hcols col (candidates_not_engineered col Hdecl)), Hv. reflexivity.
    - intros ->. exact (target_not_candidate Hdecl). }
  apply in_split in Hnumeric as Hn. destruct Hn as [l1 [l2 Hn]].
  apply in_split in Hkept as [l3 [l4 Hk]].
  exists l1, (l2 ++ l3), l4. split; [|exact Hnumeric].
  rewrite (getitems_names _ _ _ HX), Hnum, Hn, Hk.
  now rewrite <- !app_assoc.
Qed.

End NumericCandidate.

Lemma numeric_candidate_selected_twice_witness :
  exists r,
    prepare sample_log1p sample_split numeric_depth_table = Ok r
    /\ exists before between after,
      map fst (columns (p_X r)) = before ++ "Depth" :: between ++ "Depth" :: after
      /\ In "Depth" (numeric_cols (p_df r)).
Proof.
  eexists. split; [vm_compute; reflexivity|].
  apply (numeric_candidate_selected_twice sample_log1p sample_split
           numeric_depth_table _ "Depth" [Fin 10; Fin 20; Fin 10; Fin 20]).
  - vm_compute. reflexivity.
  - reflexivity.
  - vm_compute. tauto.
Defined.

Example numeric_depth_table_X_columns :
  exists r,
    prepare sample_log1p sample_split numeric_depth_table = Ok r
    /\ map fst (columns (p_X r)) = ["Depth"; "EC"; "Depth"].
Proof. eexists. split; vm_compute; reflexivity. Qed.
